(** * TrendPulse: the cache / refresh / retry core, embedded from the source

    - [services/geminiService.ts]: [delay], [generateContentWithRetry],
      [fetchTopicsByCategory] and the nine category fetchers with their
      static fallback tables;
    - the [App] component: [toggleSaveTopic], the [visibleSections]
      initializer, [loadTopics] and the auto-refresh interval callback.

    JavaScript strings are sequences of UTF-16 code units ([list N]).
    Asynchronous code is written in a state-and-exception monad [ST]. The
    service module runs over a [Net]: the wall clock and the trace of what
    left the process (requests to the generative-AI service, timer
    sleeps). The component runs over a [World]: the [Net], [localStorage]
    and the React state that [loadTopics] writes. The external service is
    an arbitrary function of the history and of the request. A write to
    [localStorage] throws when the browser does not take it. The calls
    that [Promise.all] awaits are tasks in flight together: each is
    resumed when what it waits for has settled, so their requests and
    backoff timers overlap. *)

From Stdlib Require Import ZArith NArith Ascii String DecimalString DecimalZ.
From stdpp Require Import base option list gmap strings.

Open Scope Z_scope.

(** ** JavaScript strings *)

Abbreviation jsstring := (list N).

Fixpoint js (s : string) : jsstring :=
  match s with
  | EmptyString => []
  | String a s' => N_of_ascii a :: js s'
  end.

(** [LineTerminator]: the code units the regular-expression dot refuses. *)
Definition isLineTerminator (c : N) : bool :=
  (N.eqb c 10 || N.eqb c 13 || N.eqb c 8232 || N.eqb c 8233)%N.

(** [WhiteSpace] and [LineTerminator]: what [\s] matches and [trim] strips. *)
Definition isWhiteSpace (c : N) : bool :=
  ((N.leb 9 c && N.leb c 13) || N.eqb c 32 || N.eqb c 160 || N.eqb c 5760
   || (N.leb 8192 c && N.leb c 8202) || N.eqb c 8232 || N.eqb c 8233
   || N.eqb c 8239 || N.eqb c 8287 || N.eqb c 12288 || N.eqb c 65279)%N.

Fixpoint trimStart (s : jsstring) : jsstring :=
  match s with
  | [] => []
  | c :: s' => if isWhiteSpace c then trimStart s' else s
  end.

(** [String.prototype.trim] *)
Definition trim (s : jsstring) : jsstring :=
  rev (trimStart (rev (trimStart s))).

(** [s.replace(/\s/g, '')] *)
Definition removeWhiteSpace (s : jsstring) : jsstring :=
  List.filter (fun c => negb (isWhiteSpace c)) s.

(** [s.split(sep)] for a one-code-unit separator: never the empty array. *)
Fixpoint split (sep : N) (s : jsstring) : list jsstring :=
  match s with
  | [] => [[]]
  | c :: s' =>
      if N.eqb c sep then [] :: split sep s'
      else match split sep s' with
           | l :: ls => (c :: l) :: ls
           | [] => [[c]]
           end
  end.

(** Template-literal rendering of a number. *)
Definition showZ (z : Z) : jsstring := js (NilZero.string_of_int (Z.to_int z)).
Definition showNat (n : nat) : jsstring := showZ (Z.of_nat n).

(** ** types.ts *)

Record Topic := {
  id : jsstring;
  title : jsstring;
  category : jsstring;
  description : jsstring;
  imageUrl : option jsstring
}.

Global Instance Topic_eq_dec : EqDecision Topic.
Proof. solve_decision. Defined.

(** ** The regular expression of the line protocol

    [/TOPIC_START\|(.*?)\|(.*?)\|(.*?)\|TOPIC_END/], run the way a
    backtracking matcher runs it: a lazy group first tries to stop where it
    stands and takes one more code unit (never a line terminator) only
    when the rest of the pattern fails from there. *)

Definition TOPIC_START : jsstring := js "TOPIC_START|".
Definition TOPIC_END : jsstring := js "|TOPIC_END".
Definition BAR : jsstring := js "|".

Fixpoint stripPrefix (p s : jsstring) : option jsstring :=
  match p, s with
  | [], _ => Some s
  | a :: p', b :: s' => if N.eqb a b then stripPrefix p' s' else None
  | _ :: _, [] => None
  end.

Fixpoint lazyDots {A} (k : jsstring -> option A) (acc s : jsstring)
  : option (jsstring * A) :=
  match k s with
  | Some r => Some (rev acc, r)
  | None =>
      match s with
      | [] => None
      | c :: s' => if isLineTerminator c then None else lazyDots k (c :: acc) s'
      end
  end.

(** The three captures of a match anchored at the head of [s]. *)
Definition topicRegexAt (s : jsstring) : option (jsstring * jsstring * jsstring) :=
  s1 ← stripPrefix TOPIC_START s;
  m ← lazyDots (fun s2 =>
         s2' ← stripPrefix BAR s2;
         lazyDots (fun s3 =>
           s3' ← stripPrefix BAR s3;
           lazyDots (stripPrefix TOPIC_END) [] s3') [] s2') [] s1;
  Some (m.1, m.2.1, m.2.2.1).

(** [line.match(regex)]: the leftmost position at which the pattern matches. *)
Fixpoint topicRegexMatch (line : jsstring) : option (jsstring * jsstring * jsstring) :=
  match topicRegexAt line with
  | Some m => Some m
  | None =>
      match line with
      | [] => None
      | _ :: line' => topicRegexMatch line'
      end
  end.

(** The pattern, said declaratively: somewhere in the line the start marker,
    three fields separated by bars, the end marker; no field holds a line
    terminator. *)
Definition noLineTerminator (s : jsstring) : Prop :=
  Forall (fun c => isLineTerminator c = false) s.

Definition matchesTopicPattern (line : jsstring) : Prop :=
  ∃ pre t c d post,
    line = pre ++ TOPIC_START ++ t ++ BAR ++ c ++ BAR ++ d ++ TOPIC_END ++ post
    ∧ noLineTerminator t ∧ noLineTerminator c ∧ noLineTerminator d.

(** ** The world the asynchronous code runs in *)

(** A thrown value, seen through the two properties the retry wrapper
    reads ([error.status], [error.code]); [None] is any value that is not
    a number. *)
Record JsError := {
  status : option Z;
  code : option Z;
  message : jsstring
}.

(** The request handed to [ai.models.generateContent]. *)
Record GenerateParams := {
  contents : jsstring;
  googleSearch : bool
}.

Record GenerateRequest := {
  model : jsstring;
  params : GenerateParams
}.

(** [response.text] is a string or [undefined]. *)
Record GenerateResponse := {
  text : option jsstring
}.

(** What the service does with one request: it settles after [elapsed]
    milliseconds, with a response or with a thrown error. *)
Record Reply := {
  elapsed : Z;
  outcome : GenerateResponse + JsError
}.

Inductive Event :=
  | Generate (req : GenerateRequest)
  | Sleep (ms : Z).

(** The service is a black box: its reply may depend on everything that
    happened before and on the request. *)
Definition Service := list Event -> GenerateRequest -> Reply.

(** What the service module can touch: the wall clock and the outside
    world, recorded as the trace of requests sent and timers slept. *)
Record Net := {
  now : Z;
  trace : list Event
}.

Inductive Result (A : Type) :=
  | Ok (a : A)
  | Throw (e : JsError).
Arguments Ok {A} a.
Arguments Throw {A} e.

(** Computations that read and write a state [S] and may throw. *)
Definition ST (S A : Type) : Type := S -> Result A * S.

Global Instance ST_ret {S} : MRet (ST S) := fun A a s => (Ok a, s).

Global Instance ST_bind {S} : MBind (ST S) := fun A B f m s =>
  match m s with
  | (Ok a, s') => f a s'
  | (Throw e, s') => (Throw e, s')
  end.

Definition throw {S A} (e : JsError) : ST S A := fun s => (Throw e, s).

(** [try { body } catch (e) { handler e }] *)
Definition tryCatch {S A} (body : ST S A) (handler : JsError -> ST S A) : ST S A :=
  fun s =>
    match body s with
    | (Ok a, s') => (Ok a, s')
    | (Throw e, s') => handler e s'
    end.

(** [try { body } finally { cleanup }], for a [cleanup] that neither throws
    nor returns. *)
Definition tryFinally {S A} (body : ST S A) (cleanup : ST S unit) : ST S A :=
  fun s =>
    match body s with
    | (r, s') => (r, (cleanup s').2)
    end.

(** [Date.now()] *)
Definition Date_now : ST Net Z := fun n => (Ok (now n), n).

(** [new Promise(resolve => setTimeout(resolve, ms))], awaited: the timer
    fires [ms] milliseconds later. *)
Definition sleep (ms : Z) : ST Net unit := fun n =>
  (Ok tt, {| now := now n + ms; trace := trace n ++ [Sleep ms] |}).

(** ** Calls in flight

    An [async] function that has been called is a task: it runs to its
    next [await], hands control back, and is resumed when what it waits
    for has settled. A task that is the only one in flight is run by
    [await]; tasks started together are run by [Promise_all2] and
    [Promise_all3] below. *)
Inductive Task (A : Type) : Type :=
  | Settle (r : Result A)
  | AwaitGenerate (req : GenerateRequest)
      (k : GenerateResponse + JsError -> Task A)
  | AwaitTimer (ms : Z) (k : Task A)
  | ReadClock (k : Z -> Task A).
Arguments Settle {A} r.
Arguments AwaitGenerate {A} req k.
Arguments AwaitTimer {A} ms k.
Arguments ReadClock {A} k.

(** What follows a task, whichever way it settles. *)
Fixpoint Task_then {A B} (p : Task A) (f : Result A -> Task B) : Task B :=
  match p with
  | Settle r => f r
  | AwaitGenerate req k => AwaitGenerate req (fun o => Task_then (k o) f)
  | AwaitTimer ms k => AwaitTimer ms (Task_then k f)
  | ReadClock k => ReadClock (fun t => Task_then (k t) f)
  end.

Global Instance Task_ret : MRet Task := fun A a => Settle (Ok a).

Global Instance Task_bind : MBind Task := fun A B f p =>
  Task_then p (fun r =>
    match r with
    | Ok a => f a
    | Throw e => Settle (Throw e)
    end).

(** [try { body } catch (e) { handler e }] around awaits. *)
Definition tryCatch_task {A} (body : Task A) (handler : JsError -> Task A)
  : Task A :=
  Task_then body (fun r =>
    match r with
    | Ok a => Settle (Ok a)
    | Throw e => handler e
    end).

(** Awaiting a task while nothing else is in flight: a request settles
    [elapsed] milliseconds after it was sent, a timer fires [ms]
    milliseconds after it was set. *)
Fixpoint await {A} (ai : Service) (p : Task A) (n : Net) : Result A * Net :=
  match p with
  | Settle r => (r, n)
  | AwaitGenerate req k =>
      let r := ai (trace n) req in
      await ai (k (outcome r))
        {| now := now n + elapsed r; trace := trace n ++ [Generate req] |}
  | AwaitTimer ms k =>
      await ai k {| now := now n + ms; trace := trace n ++ [Sleep ms] |}
  | ReadClock k => await ai (k (now n)) n
  end.

(** Calling an [async] function runs it up to its first [await]: the
    request is sent, or the timer set, at once. What is left is the time
    at which the awaited thing settles and the task to resume then. A task
    that settled without awaiting is resumed at once. *)
Fixpoint start {A} (ai : Service) (p : Task A) (n : Net) : Z * Task A * Net :=
  match p with
  | Settle r => (now n, Settle r, n)
  | AwaitGenerate req k =>
      let r := ai (trace n) req in
      (now n + elapsed r, k (outcome r),
       {| now := now n; trace := trace n ++ [Generate req] |})
  | AwaitTimer ms k =>
      (now n + ms, k, {| now := now n; trace := trace n ++ [Sleep ms] |})
  | ReadClock k => start ai (k (now n)) n
  end.

(** Two tasks in flight, [ka] to be resumed at time [wa] and [kb] at time
    [wb], after the events [h]: the one that is due first is resumed and
    runs to its next [await] (array order decides between two that are due
    together). The first rejection rejects the whole, and what the other
    task goes on to do, awaited by nobody, is left out; when one has
    resolved, the other is awaited alone. *)
Fixpoint race2 {A B} (ai : Service) (ka : Task A) {struct ka}
  : Z -> Task B -> Z -> list Event -> Result (A * B) * Net :=
  fix race2b (wa : Z) (kb : Task B) (wb : Z) (h : list Event) {struct kb}
    : Result (A * B) * Net :=
    if Z.leb wa wb then
      match ka with
      | Settle (Ok x) =>
          match await ai kb {| now := wb; trace := h |} with
          | (Ok y, n') => (Ok (x, y), n')
          | (Throw e, n') => (Throw e, n')
          end
      | Settle (Throw e) => (Throw e, {| now := wa; trace := h |})
      | AwaitGenerate req k =>
          let r := ai h req in
          race2 ai (k (outcome r)) (wa + elapsed r) kb wb (h ++ [Generate req])
      | AwaitTimer ms k => race2 ai k (wa + ms) kb wb (h ++ [Sleep ms])
      | ReadClock k => race2 ai (k wa) wa kb wb h
      end
    else
      match kb with
      | Settle (Ok y) =>
          match await ai ka {| now := wa; trace := h |} with
          | (Ok x, n') => (Ok (x, y), n')
          | (Throw e, n') => (Throw e, n')
          end
      | Settle (Throw e) => (Throw e, {| now := wb; trace := h |})
      | AwaitGenerate req k =>
          let r := ai h req in
          race2b wa (k (outcome r)) (wb + elapsed r) (h ++ [Generate req])
      | AwaitTimer ms k => race2b wa k (wb + ms) (h ++ [Sleep ms])
      | ReadClock k => race2b wa (k wb) wb h
      end.

(** The same for three tasks; when one has resolved the two others go on
    as a pair. *)
Fixpoint race3 {A B C} (ai : Service) (ka : Task A) {struct ka}
  : Z -> Task B -> Z -> Task C -> Z -> list Event -> Result (A * B * C) * Net :=
  fix race3b (wa : Z) (kb : Task B) {struct kb}
    : Z -> Task C -> Z -> list Event -> Result (A * B * C) * Net :=
    fix race3c (wb : Z) (kc : Task C) (wc : Z) (h : list Event) {struct kc}
      : Result (A * B * C) * Net :=
      if Z.leb wa wb && Z.leb wa wc then
        match ka with
        | Settle (Ok x) =>
            match race2 ai kb wb kc wc h with
            | (Ok (y, z), n') => (Ok (x, y, z), n')
            | (Throw e, n') => (Throw e, n')
            end
        | Settle (Throw e) => (Throw e, {| now := wa; trace := h |})
        | AwaitGenerate req k =>
            let r := ai h req in
            race3 ai (k (outcome r)) (wa + elapsed r) kb wb kc wc
              (h ++ [Generate req])
        | AwaitTimer ms k => race3 ai k (wa + ms) kb wb kc wc (h ++ [Sleep ms])
        | ReadClock k => race3 ai (k wa) wa kb wb kc wc h
        end
      else if Z.leb wb wc then
        match kb with
        | Settle (Ok y) =>
            match race2 ai ka wa kc wc h with
            | (Ok (x, z), n') => (Ok (x, y, z), n')
            | (Throw e, n') => (Throw e, n')
            end
        | Settle (Throw e) => (Throw e, {| now := wb; trace := h |})
        | AwaitGenerate req k =>
            let r := ai h req in
            race3b wa (k (outcome r)) (wb + elapsed r) kc wc (h ++ [Generate req])
        | AwaitTimer ms k => race3b wa k (wb + ms) kc wc (h ++ [Sleep ms])
        | ReadClock k => race3b wa (k wb) wb kc wc h
        end
      else
        match kc with
        | Settle (Ok z) =>
            match race2 ai ka wa kb wb h with
            | (Ok (x, y), n') => (Ok (x, y, z), n')
            | (Throw e, n') => (Throw e, n')
            end
        | Settle (Throw e) => (Throw e, {| now := wc; trace := h |})
        | AwaitGenerate req k =>
            let r := ai h req in
            race3c wb (k (outcome r)) (wc + elapsed r) (h ++ [Generate req])
        | AwaitTimer ms k => race3c wb k (wc + ms) (h ++ [Sleep ms])
        | ReadClock k => race3c wb (k wc) wc h
        end.

(** [await Promise.all([a(), b()])]: the calls in the array start both
    tasks, in array order, before anything is awaited; then the tasks are
    resumed as what they wait for settles. *)
Definition Promise_all2 {A B} (ai : Service) (a : Task A) (b : Task B)
  : ST Net (A * B) := fun n =>
  match start ai a n with
  | (wa, ka, n1) =>
      match start ai b n1 with
      | (wb, kb, n2) => race2 ai ka wa kb wb (trace n2)
      end
  end.

Definition Promise_all3 {A B C} (ai : Service) (a : Task A) (b : Task B)
    (c : Task C) : ST Net (A * B * C) := fun n =>
  match start ai a n with
  | (wa, ka, n1) =>
      match start ai b n1 with
      | (wb, kb, n2) =>
          match start ai c n2 with
          | (wc, kc, n3) => race3 ai ka wa kb wb kc wc (trace n3)
          end
      end
  end.

(** ** services/geminiService.ts *)

Definition delay (ms : Z) : ST Net unit := sleep ms.

Definition retryable (e : JsError) : bool :=
  bool_decide (status e = Some 429) || bool_decide (code e = Some 429)
  || bool_decide (status e = Some 503).

(** One parsed line becomes one topic; [index] is the line's index in the
    response, [t] the value of [Date.now()] (the clock does not move while
    the synchronous loop runs). *)
Definition topicOfMatch (categoryPrefix : jsstring) (index : nat) (t : Z)
    (m : jsstring * jsstring * jsstring) : Topic :=
  {| id := categoryPrefix ++ js "-" ++ showNat index ++ js "-" ++ showZ t;
     title := trim m.1.1;
     category := trim m.1.2;
     description := trim m.2;
     imageUrl := Some (js "https://picsum.photos/seed/"
                       ++ (removeWhiteSpace m.1.1 ++ categoryPrefix)
                       ++ js "/600/400") |}.

(** [lines.forEach((line, index) => { ... topics.push(...) ... })] *)
Fixpoint forEachLine (categoryPrefix : jsstring) (t : Z) (index : nat)
    (lines : list jsstring) (topics : list Topic) : list Topic :=
  match lines with
  | [] => topics
  | line :: rest =>
      let topics' :=
        match topicRegexMatch line with
        | Some m => topics ++ [topicOfMatch categoryPrefix index t m]
        | None => topics
        end in
      forEachLine categoryPrefix t (S index) rest topics'
  end.

(** The body of [fetchTopicsByCategory] once the response has arrived:
    [response.text || ""], split, parse, fall back or slice. *)
Definition parseTopics (categoryPrefix : jsstring) (t : Z)
    (response : GenerateResponse) (fallbackData : list Topic) : list Topic :=
  let text := default [] (text response) in
  let lines := split 10 text in
  let topics := forEachLine categoryPrefix t 0 lines [] in
  if Nat.eqb (length topics) 0 then fallbackData else take 10 topics.

Definition FORMAT_INSTRUCTION : jsstring :=
  js " Return them in a strict format where each line represents one topic using this pattern: 'TOPIC_START|Title|Category|Short engaging tagline|TOPIC_END'. Do not add any other text.".

Definition DQUOTE : string := String (ascii_of_N 34) EmptyString.

(** An entry of a static fallback table; [seed] is the one varying segment
    of its picsum image address. *)
Definition staticTopic (i t c d seed : string) : Topic :=
  {| id := js i; title := js t; category := js c; description := js d;
     imageUrl := Some (js "https://picsum.photos/seed/" ++ js seed ++ js "/600/400") |}.

Section GeminiService.

(** [ai.models.generateContent], the external collaborator. *)
Variable ai : Service.

Definition ai_models_generateContent (req : GenerateRequest)
  : ST Net GenerateResponse :=
  fun n =>
    let r := ai (trace n) req in
    let n' := {| now := now n + elapsed r; trace := trace n ++ [Generate req] |} in
    match outcome r with
    | inl response => (Ok response, n')
    | inr e => (Throw e, n')
    end.

Fixpoint generateContentWithRetry (model : jsstring) (params : GenerateParams)
    (retries : nat) : ST Net GenerateResponse :=
  tryCatch
    (ai_models_generateContent {| model := model; params := params |})
    (fun error =>
       match retries with
       | S retries' =>
           if retryable error then
             let waitTime := 2000 * (4 - Z.of_nat retries) in
             _ ← delay waitTime;
             generateContentWithRetry model params retries'
           else throw error
       | O => throw error
       end).

Definition fetchTopicsByCategory (prompt categoryPrefix : jsstring)
    (fallbackData : list Topic) : ST Net (list Topic) :=
  tryCatch
    (response ← generateContentWithRetry (js "gemini-2.5-flash")
                  {| contents := prompt ++ FORMAT_INSTRUCTION;
                     googleSearch := true |} 3;
     t ← Date_now;
     mret (parseTopics categoryPrefix t response fallbackData))
    (fun error => mret fallbackData).

Definition fetchNewsAndPolitics_prompt : jsstring :=
  js "Identify 8-10 major trending topics in General News and US Politics today. Focus on headlines, legislation, or major global events.".

Definition fetchNewsAndPolitics_fallback : list Topic :=
  [ staticTopic "f-news-1" "Global Summit 2024" "Politics" "World leaders gather to discuss climate and trade." "Summit";
    staticTopic "f-news-2" "Economic Shift" "Economy" "New inflation data impacts global markets." "Economy";
    staticTopic "f-news-3" "Tech Regulation" "Policy" "Congress discusses new bills for AI safety." "Congress";
    staticTopic "f-news-4" "Space Mission" "Science" "Historic landing on the lunar south pole." "Moon";
    staticTopic "f-news-5" "Election Update" "Politics" "Latest polling numbers show a tight race." "Vote";
    staticTopic "f-news-6" "Urban Renewal" "Infrastructure" "Major cities announce green energy plans." "City" ].

Definition fetchNewsAndPolitics : ST Net (list Topic) :=
  fetchTopicsByCategory fetchNewsAndPolitics_prompt (js "news") fetchNewsAndPolitics_fallback.

Definition fetchMusicTrends_prompt : jsstring :=
  js "Identify 8-10 trending topics in Mainstream Pop, Rock, and Country music today. Focus on artist news, tours, gossip, and new album announcements. Exclude Hip-Hop.".

Definition fetchMusicTrends_fallback : list Topic :=
  [ staticTopic "f-music-1" "Pop Star Return" "Mainstream" "Legendary artist announces surprise tour." "Microphone";
    staticTopic "f-music-2" "Indie Breakout" "Alternative" "Underground band hits mainstream success." "Guitar";
    staticTopic "f-music-3" "Award Snubs" "Awards" "Fans outrage over recent nominations." "Trophy";
    staticTopic "f-music-4" "Festival Lineup" "Live" "Summer festival headliners revealed." "Festival";
    staticTopic "f-music-5" "Country Crossover" "Country" "Country hit goes viral globally." "Banjo";
    staticTopic "f-music-6" "Supergroup Formed" "Rock" "Famous rockers unite for new project." "Drum" ].

Definition fetchMusicTrends : ST Net (list Topic) :=
  fetchTopicsByCategory fetchMusicTrends_prompt (js "music") fetchMusicTrends_fallback.

Definition fetchBillboardTrends_prompt : jsstring :=
  js "Identify 8-10 trending topics specifically related to Billboard Charts (Hot 100, 200), Chart Toppers, Number 1 hits, and broken records today.".

Definition fetchBillboardTrends_fallback : list Topic :=
  [ staticTopic "f-bb-1" "New #1 Hit" "Hot 100" "The song that just dethroned the reigning champion." "Chart1";
    staticTopic "f-bb-2" "Record Breaker" "History" "Artist breaks record for most weeks at top." "Record";
    staticTopic "f-bb-3" "Album Debut" "Billboard 200" "Massive first-week sales numbers released." "Album";
    staticTopic "f-bb-4" "Sleeper Hit" "Rising" "Song from last year suddenly enters Top 10." "ArrowUp";
    staticTopic "f-bb-5" "Global 200" "World" "K-Pop group dominates global streaming charts." "GlobeMusic";
    staticTopic "f-bb-6" "Longest Running" "Legacy" "Track spends 52 weeks on the chart." "Calendar" ].

Definition fetchBillboardTrends : ST Net (list Topic) :=
  fetchTopicsByCategory fetchBillboardTrends_prompt (js "billboard") fetchBillboardTrends_fallback.

Definition fetchHipHopTrends_prompt : jsstring :=
  js "Identify 8-10 trending topics in Hip-Hop, Rap, and R&B today. Focus on new album releases, artist news, viral tracks, and culture.".

Definition fetchHipHopTrends_fallback : list Topic :=
  [ staticTopic "f-hh-1" "Viral Rap Beef" "Hip-Hop" "Diss tracks exchange heats up between titans." "Rap";
    staticTopic "f-hh-2" "New Album Drop" "Release" "Highly anticipated album dominates streaming." "Vinyl";
    staticTopic "f-hh-3" "Producer Tag" "Production" "The producer tag everyone is hearing right now." "Beat";
    staticTopic "f-hh-4" "Fashion Week" "Culture" "Rappers taking over the runway in Paris." "Fashion";
    staticTopic "f-hh-5" "Underground King" "Rising" "SoundCloud rapper breaks into mainstream." "Mic";
    staticTopic "f-hh-6" "Classic Sample" "History" "90s hit sampled in top charting song." "Boombox" ].

Definition fetchHipHopTrends : ST Net (list Topic) :=
  fetchTopicsByCategory fetchHipHopTrends_prompt (js "hiphop") fetchHipHopTrends_fallback.

Definition fetchTechTrends_prompt : jsstring :=
  js "Identify 8-10 trending topics in AI Software Development, LLM improvements, and general Tech innovation. Focus on new tools, breakthroughs, or major releases.".

Definition fetchTechTrends_fallback : list Topic :=
  [ staticTopic "f-tech-1" "Next-Gen Models" "AI" "The latest LLM benchmarks shatter expectations." "Robot";
    staticTopic "f-tech-2" "Dev Tools 2.0" "Software" "How coding assistants are changing development." "Code";
    staticTopic "f-tech-3" "Quantum Leap" "Innovation" "New breakthrough in quantum computing stability." "Quantum";
    staticTopic "f-tech-4" "VR Headset War" "Hardware" "Competitors launch affordable mixed reality gear." "VR";
    staticTopic "f-tech-5" "Open Source Wins" "Community" "Major corporation open sources key library." "Linux";
    staticTopic "f-tech-6" "Cybersecurity Alert" "Security" "New zero-day vulnerability affects millions." "Lock" ].

Definition fetchTechTrends : ST Net (list Topic) :=
  fetchTopicsByCategory fetchTechTrends_prompt (js "tech") fetchTechTrends_fallback.

Definition fetchMemeTrends_prompt : jsstring :=
  js "Identify 8-10 currently trending Gen Alpha and Gen Z memes, slang, or viral TikTok trends active today. Focus on 'brainrot', viral sounds, or new formats.".

Definition fetchMemeTrends_fallback : list Topic :=
  [ staticTopic "f-meme-1" "Skibidi Variants" "Viral" "The endless evolution of the toilet head phenomenon." "Toilet";
    staticTopic "f-meme-2" "Fanum Tax" "Slang" "The internet culture of food sharing and theft." "Food";
    staticTopic "f-meme-3" "Corecore" "Aesthetic" "Nihilistic video collages taking over TikTok." "Mood";
    staticTopic "f-meme-4" "NPC Streaming" "Live" "Creators acting like video game characters." "NPC";
    staticTopic "f-meme-5" "Grimace Shake" "Throwback" "The purple drink horror trend returns." "Shake";
    staticTopic "f-meme-6" "Roman Empire" "Discussion" "How often do men think about the Roman Empire?" "Roman" ].

Definition fetchMemeTrends : ST Net (list Topic) :=
  fetchTopicsByCategory fetchMemeTrends_prompt (js "meme") fetchMemeTrends_fallback.

Definition fetchGamingTrends_prompt : jsstring :=
  js "Identify 8-10 currently trending topics in Gaming, Esports, Twitch/YouTube streaming, or game releases.".

Definition fetchGamingTrends_fallback : list Topic :=
  [ staticTopic "f-game-1" "GTA VI Leaks" "Rumor" "Analyzing the latest frame-by-frame details." "GTA";
    staticTopic "f-game-2" "Esports Finals" "Esports" "Record-breaking viewership at the latest major." "Esports";
    staticTopic "f-game-3" "Indie Gems" "Release" "The steam hit everyone is playing this week." "Indie";
    staticTopic "f-game-4" "Console Refresh" "Hardware" ("Rumors of a " +:+ DQUOTE +:+ "Pro" +:+ DQUOTE +:+ " console upgrade swirl.") "Console";
    staticTopic "f-game-5" "Speedrun Record" "Community" "Classic game beaten in under 5 minutes." "Timer";
    staticTopic "f-game-6" "RPG Expansion" "DLC" "Massive update drops for popular RPG." "Dragon" ].

Definition fetchGamingTrends : ST Net (list Topic) :=
  fetchTopicsByCategory fetchGamingTrends_prompt (js "gaming") fetchGamingTrends_fallback.

Definition fetchLandscapeTrends_prompt : jsstring :=
  js "Identify 8-10 trending topics related to Landscapes, Nature Photography, Travel Destinations, and Natural Phenomena (like Auroras). Exclude specific animal stories.".

Definition fetchLandscapeTrends_fallback : list Topic :=
  [ staticTopic "f-land-1" "Northern Lights" "Phenomenon" "Solar storms create spectacular views globally." "Aurora";
    staticTopic "f-land-2" "Hidden Beaches" "Travel" "The secret summer destinations trending now." "Beach";
    staticTopic "f-land-3" "Volcanic Eruption" "News" "Live streams of lava flows captivate millions." "Volcano";
    staticTopic "f-land-4" "Autumn Foliage" "Season" "Best spots to see the leaves change color." "Forest";
    staticTopic "f-land-5" "Desert Bloom" "Rare" "Rare rainfall creates flowers in the desert." "Desert";
    staticTopic "f-land-6" "Mountain Pass" "Adventure" "Dangerous but beautiful road opens for season." "Mountain" ].

Definition fetchLandscapeTrends : ST Net (list Topic) :=
  fetchTopicsByCategory fetchLandscapeTrends_prompt (js "landscape") fetchLandscapeTrends_fallback.

Definition fetchWildlifeTrends_prompt : jsstring :=
  js "Identify 8-10 trending topics related to Wildlife, Animals, Zoos, and Pets. Focus on viral animal moments (like Moo Deng), conservation news, or new species.".

Definition fetchWildlifeTrends_fallback : list Topic :=
  [ staticTopic "f-wild-1" "Viral Pygmy Hippo" "Zoo" "The internet falls in love with a new zoo icon." "Hippo";
    staticTopic "f-wild-2" "Rare Bird Sighting" "Discovery" "Extinct bird possibly spotted in rainforest." "Bird";
    staticTopic "f-wild-3" "Panda Return" "Conservation" "Pandas arriving at new sanctuary." "Panda";
    staticTopic "f-wild-4" "Cat Distribution" "Viral" "How stray cats choose their owners." "Cat";
    staticTopic "f-wild-5" "Whale Migration" "Ocean" "Massive pod sighted near coast." "Whale";
    staticTopic "f-wild-6" "Dog Hero" "News" "Local dog saves family from fire." "Dog" ].

Definition fetchWildlifeTrends : ST Net (list Topic) :=
  fetchTopicsByCategory fetchWildlifeTrends_prompt (js "wildlife") fetchWildlifeTrends_fallback.

End GeminiService.

(** The ids of [SECTIONS_CONFIG], which are also the keys of
    [CachedData.data] and of [sectionDataMap]. *)
Inductive SectionId :=
  | news | tech | music | billboard | hiphop | memes | gaming | landscapes | wildlife.

Global Instance SectionId_eq_dec : EqDecision SectionId.
Proof. solve_decision. Defined.

(** The import table of the [App] module: which exported fetcher feeds
    which section. *)
Definition geminiFetch (ai : Service) (c : SectionId) : ST Net (list Topic) :=
  match c with
  | news => fetchNewsAndPolitics ai
  | tech => fetchTechTrends ai
  | music => fetchMusicTrends ai
  | billboard => fetchBillboardTrends ai
  | hiphop => fetchHipHopTrends ai
  | memes => fetchMemeTrends ai
  | gaming => fetchGamingTrends ai
  | landscapes => fetchLandscapeTrends ai
  | wildlife => fetchWildlifeTrends ai
  end.

(** The same functions as tasks, for the callers that have several of them
    in flight at once. *)
Definition ai_models_generateContent_task (req : GenerateRequest)
  : Task GenerateResponse :=
  AwaitGenerate req (fun o =>
    match o with
    | inl response => Settle (Ok response)
    | inr e => Settle (Throw e)
    end).

Definition delay_task (ms : Z) : Task unit := AwaitTimer ms (Settle (Ok tt)).

Definition Date_now_task : Task Z := ReadClock (fun t => Settle (Ok t)).

Fixpoint generateContentWithRetry_task (model : jsstring)
    (params : GenerateParams) (retries : nat) : Task GenerateResponse :=
  tryCatch_task
    (ai_models_generateContent_task {| model := model; params := params |})
    (fun error =>
       match retries with
       | S retries' =>
           if retryable error then
             let waitTime := 2000 * (4 - Z.of_nat retries) in
             _ ← delay_task waitTime;
             generateContentWithRetry_task model params retries'
           else Settle (Throw error)
       | O => Settle (Throw error)
       end).

Definition fetchTopicsByCategory_task (prompt categoryPrefix : jsstring)
    (fallbackData : list Topic) : Task (list Topic) :=
  tryCatch_task
    (response ← generateContentWithRetry_task (js "gemini-2.5-flash")
                  {| contents := prompt ++ FORMAT_INSTRUCTION;
                     googleSearch := true |} 3;
     t ← Date_now_task;
     mret (parseTopics categoryPrefix t response fallbackData))
    (fun error => mret fallbackData).

(** The import table again, as the tasks the calls start. *)
Definition geminiFetch_task (c : SectionId) : Task (list Topic) :=
  match c with
  | news =>
      fetchTopicsByCategory_task fetchNewsAndPolitics_prompt (js "news")
        fetchNewsAndPolitics_fallback
  | tech =>
      fetchTopicsByCategory_task fetchTechTrends_prompt (js "tech")
        fetchTechTrends_fallback
  | music =>
      fetchTopicsByCategory_task fetchMusicTrends_prompt (js "music")
        fetchMusicTrends_fallback
  | billboard =>
      fetchTopicsByCategory_task fetchBillboardTrends_prompt (js "billboard")
        fetchBillboardTrends_fallback
  | hiphop =>
      fetchTopicsByCategory_task fetchHipHopTrends_prompt (js "hiphop")
        fetchHipHopTrends_fallback
  | memes =>
      fetchTopicsByCategory_task fetchMemeTrends_prompt (js "meme")
        fetchMemeTrends_fallback
  | gaming =>
      fetchTopicsByCategory_task fetchGamingTrends_prompt (js "gaming")
        fetchGamingTrends_fallback
  | landscapes =>
      fetchTopicsByCategory_task fetchLandscapeTrends_prompt (js "landscape")
        fetchLandscapeTrends_fallback
  | wildlife =>
      fetchTopicsByCategory_task fetchWildlifeTrends_prompt (js "wildlife")
        fetchWildlifeTrends_fallback
  end.

(** ** The [App] component *)

Definition STORAGE_KEY : jsstring := js "trendpulse_cache_v5".
Definition SAVED_STORAGE_KEY : jsstring := js "trendpulse_saved_v1".
Definition PREFS_KEY : jsstring := js "trendpulse_preferences".
Definition REFRESH_INTERVAL : Z := 8 * 60 * 60 * 1000.

(** [CachedData]: a key of [data] that is missing reads as [undefined],
    here [None]. *)
Record CachedData := {
  timestamp : Z;
  data : SectionId -> option (list Topic)
}.

Definition SECTIONS_CONFIG : list SectionId :=
  [news; tech; music; billboard; hiphop; memes; gaming; landscapes; wildlife].

(** The [id] field of an entry of [SECTIONS_CONFIG]. *)
Definition sectionKey (c : SectionId) : jsstring :=
  match c with
  | news => js "news"
  | tech => js "tech"
  | music => js "music"
  | billboard => js "billboard"
  | hiphop => js "hiphop"
  | memes => js "memes"
  | gaming => js "gaming"
  | landscapes => js "landscapes"
  | wildlife => js "wildlife"
  end.

(** The React state [loadTopics] writes. [sectionData] is [sectionDataMap]:
    one [useState] cell per section. *)
Record AppState := {
  sectionData : SectionId -> list Topic;
  loading : bool;
  refreshing : bool;
  error : option jsstring;
  lastUpdated : option Z
}.

(** [storageAccepts] is the browser's answer to a write: given what is
    stored, the key and the value, whether the value can be set (it cannot
    when the quota is exceeded or storage is disabled for the site). *)
Record World := {
  net : Net;
  localStorage : gmap jsstring jsstring;
  storageAccepts : gmap jsstring jsstring -> jsstring -> jsstring -> bool;
  app : AppState
}.

(** The service module runs inside the application's world and touches
    only its [net] part. *)
Definition liftNet {A} (m : ST Net A) : ST World A := fun w =>
  match m (net w) with
  | (r, n') =>
      (r, {| net := n'; localStorage := localStorage w;
             storageAccepts := storageAccepts w; app := app w |})
  end.

Definition modifyApp (f : AppState -> AppState) : ST World unit := fun w =>
  (Ok tt, {| net := net w; localStorage := localStorage w;
             storageAccepts := storageAccepts w; app := f (app w) |}).

Definition setTopics (c : SectionId) (v : list Topic) : ST World unit :=
  modifyApp (fun st =>
    {| sectionData := fun c' => if decide (c' = c) then v else sectionData st c';
       loading := loading st; refreshing := refreshing st;
       error := error st; lastUpdated := lastUpdated st |}).

Definition setNewsTopics := setTopics news.
Definition setTechTopics := setTopics tech.
Definition setMusicTopics := setTopics music.
Definition setBillboardTopics := setTopics billboard.
Definition setHipHopTopics := setTopics hiphop.
Definition setMemeTopics := setTopics memes.
Definition setGamingTopics := setTopics gaming.
Definition setLandscapeTopics := setTopics landscapes.
Definition setWildlifeTopics := setTopics wildlife.

Definition setLoading (v : bool) : ST World unit :=
  modifyApp (fun st =>
    {| sectionData := sectionData st; loading := v; refreshing := refreshing st;
       error := error st; lastUpdated := lastUpdated st |}).

Definition setRefreshing (v : bool) : ST World unit :=
  modifyApp (fun st =>
    {| sectionData := sectionData st; loading := loading st; refreshing := v;
       error := error st; lastUpdated := lastUpdated st |}).

Definition setError (v : option jsstring) : ST World unit :=
  modifyApp (fun st =>
    {| sectionData := sectionData st; loading := loading st;
       refreshing := refreshing st; error := v; lastUpdated := lastUpdated st |}).

Definition setLastUpdated (v : option Z) : ST World unit :=
  modifyApp (fun st =>
    {| sectionData := sectionData st; loading := loading st;
       refreshing := refreshing st; error := error st; lastUpdated := v |}).

(** [localStorage.getItem(key)]: [None] is [null]. *)
Definition localStorage_getItem (key : jsstring) : ST World (option jsstring) :=
  fun w => (Ok (localStorage w !! key), w).

Definition QuotaExceededError : JsError :=
  {| status := None; code := Some 22; message := js "QuotaExceededError" |}.

(** [localStorage.setItem(key, value)]: it throws, and stores nothing, when
    the value cannot be set. *)
Definition localStorage_setItem (key value : jsstring) : ST World unit := fun w =>
  if storageAccepts w (localStorage w) key value then
    (Ok tt, {| net := net w; localStorage := <[key := value]> (localStorage w);
               storageAccepts := storageAccepts w; app := app w |})
  else (Throw QuotaExceededError, w).

(** The updater [toggleSaveTopic] hands to [setSavedTopics]. *)
Definition toggleSaveTopic (topic : Topic) (prev : list Topic) : list Topic :=
  let exists_ := existsb (fun t => bool_decide (title t = title topic)) prev in
  if exists_
  then List.filter (fun t => negb (bool_decide (title t = title topic))) prev
  else topic :: prev.

Definition isTopicSaved (savedTopics : list Topic) (topic : Topic) : bool :=
  existsb (fun t => bool_decide (title t = title topic)) savedTopics.

(** [toggleSection]: [!prev[id]] of a missing key is [true]. *)
Definition toggleSection (key : jsstring) (prev : gmap jsstring bool)
  : gmap jsstring bool :=
  <[key := negb (default false (prev !! key))]> prev.

(** [setInterval] callback of the auto-refresh effect: [Some force] when it
    calls [loadTopics(force)], [None] when it does nothing. A number is
    truthy unless it is zero. *)
Definition autoRefreshCheck (lastUpdated : option Z) (t : Z) : option bool :=
  match lastUpdated with
  | Some l =>
      if Z.eqb l 0 then None
      else
        let age := t - l in
        if Z.leb REFRESH_INTERVAL age then Some true else None
  | None => None
  end.

Definition AUTO_REFRESH_POLL : Z := 60000.

(** [SECTIONS_CONFIG.reduce((acc, curr) => ({ ...acc, [curr.id]: true }), {})] *)
Definition defaults : gmap jsstring bool :=
  foldl (fun acc curr => <[sectionKey curr := true]> acc) ∅ SECTIONS_CONFIG.

Definition LOAD_ERROR : jsstring :=
  js "Failed to load trending topics. Please check your connection.".

Section App.

(** [JSON.parse] at the two types the component reads it at, and
    [JSON.stringify] of a snapshot. [None] is a thrown [SyntaxError], or a
    value of another shape than the annotated one. *)
Variable JSON_parse_CachedData : jsstring -> option CachedData.
Variable JSON_stringify_CachedData : CachedData -> jsstring.
Variable JSON_parse_prefs : jsstring -> option (gmap jsstring bool).

(** The service, and the tasks that calling the nine fetchers imported from
    the service module starts. *)
Variable ai : Service.
Variable fetch : SectionId -> Task (list Topic).

(** The lazy initializer of [visibleSections], given
    [localStorage.getItem(PREFS_KEY)]. *)
Definition visibleSections_init (saved : option jsstring) : gmap jsstring bool :=
  match saved with
  | Some (c :: s) =>
      match JSON_parse_prefs (c :: s) with
      | Some parsed => parsed ∪ defaults
      | None => defaults
      end
  | _ => defaults
  end.

(** Step 1 of [loadTopics]: [true] when the snapshot was restored and the
    function returned. *)
Definition restoreFromCache : ST World bool :=
  tryCatch
    (cached ← localStorage_getItem STORAGE_KEY;
     match cached with
     | Some (c :: s) =>
         match JSON_parse_CachedData (c :: s) with
         | None => throw {| status := None; code := None; message := js "SyntaxError" |}
         | Some parsed =>
             t ← liftNet Date_now;
             let age := t - timestamp parsed in
             if Z.ltb age REFRESH_INTERVAL then
               _ ← setNewsTopics (default [] (data parsed news));
               _ ← setTechTopics (default [] (data parsed tech));
               _ ← setMusicTopics (default [] (data parsed music));
               _ ← setBillboardTopics (default [] (data parsed billboard));
               _ ← setHipHopTopics (default [] (data parsed hiphop));
               _ ← setMemeTopics (default [] (data parsed memes));
               _ ← setGamingTopics (default [] (data parsed gaming));
               _ ← setLandscapeTopics (default [] (data parsed landscapes));
               _ ← setWildlifeTopics (default [] (data parsed wildlife));
               _ ← setLastUpdated (Some (timestamp parsed));
               _ ← setLoading false;
               _ ← setRefreshing false;
               mret true
             else mret false
         end
     | _ => mret false
     end)
    (fun e => mret false).

Definition wait (ms : Z) : ST World unit := liftNet (sleep ms).

(** The four batches of step 2, up to the last setter. *)
Definition fetchBatches : ST World (SectionId -> list Topic) :=
  '(r_news, r_tech) ← liftNet (Promise_all2 ai (fetch news) (fetch tech));
  _ ← setNewsTopics r_news;
  _ ← setTechTopics r_tech;
  _ ← wait 1500;
  '(r_music, r_billboard, r_hiphop) ←
    liftNet (Promise_all3 ai (fetch music) (fetch billboard) (fetch hiphop));
  _ ← setMusicTopics r_music;
  _ ← setBillboardTopics r_billboard;
  _ ← setHipHopTopics r_hiphop;
  _ ← wait 1500;
  '(r_memes, r_gaming) ← liftNet (Promise_all2 ai (fetch memes) (fetch gaming));
  _ ← setMemeTopics r_memes;
  _ ← setGamingTopics r_gaming;
  _ ← wait 1500;
  '(r_landscapes, r_wildlife) ←
    liftNet (Promise_all2 ai (fetch landscapes) (fetch wildlife));
  _ ← setLandscapeTopics r_landscapes;
  _ ← setWildlifeTopics r_wildlife;
  mret (fun c =>
    match c with
    | news => r_news | tech => r_tech | music => r_music
    | billboard => r_billboard | hiphop => r_hiphop | memes => r_memes
    | gaming => r_gaming | landscapes => r_landscapes | wildlife => r_wildlife
    end).

(** Step 2 of [loadTopics]: fetch, stamp, persist; catch; finally. *)
Definition fetchCycle (forceRefresh : bool) : ST World unit :=
  _ ← (if forceRefresh then mret tt else setLoading true);
  tryFinally
    (tryCatch
       (fetched ← fetchBatches;
        now_ ← liftNet Date_now;
        _ ← setLastUpdated (Some now_);
        let cacheData := {| timestamp := now_; data := fun c => Some (fetched c) |} in
        localStorage_setItem STORAGE_KEY (JSON_stringify_CachedData cacheData))
       (fun e => setError (Some LOAD_ERROR)))
    (_ ← setLoading false; setRefreshing false).

Definition loadTopics (forceRefresh : bool) : ST World unit :=
  _ ← setError None;
  restored ← (if forceRefresh then mret false else restoreFromCache);
  if (restored : bool) then mret tt else fetchCycle forceRefresh.

(** One tick of the auto-refresh interval. *)
Definition autoRefreshTick : ST World unit := fun w =>
  match autoRefreshCheck (lastUpdated (app w)) (now (net w)) with
  | Some force => loadTopics force w
  | None => (Ok tt, w)
  end.

End App.

(** ** More of the service module: topic details and chat *)

(** [SourceLink] and [DetailedInfo] of [types.ts]; [linkTitle] is the
    field [title]. *)
Record SourceLink := {
  linkTitle : jsstring;
  uri : option jsstring
}.

Record DetailedInfo := {
  markdown : jsstring;
  sourceLinks : list SourceLink
}.

(** A grounding chunk of a response: [chunk.web], with its optional
    [title] and [uri]. *)
Record WebSource := {
  webTitle : option jsstring;
  webUri : option jsstring
}.

Record GroundingChunk := {
  web : option WebSource
}.

(** [s || d] for [s] a string or [undefined]: the empty string is falsy. *)
Definition orElse (s : option jsstring) (d : jsstring) : jsstring :=
  match s with
  | Some (c :: r) => c :: r
  | _ => d
  end.

(** [chunks.forEach(chunk => { if (chunk.web) sourceLinks.push(...) })] *)
Fixpoint forEachChunk (chunks : list GroundingChunk) (links : list SourceLink)
  : list SourceLink :=
  match chunks with
  | [] => links
  | chunk :: rest =>
      forEachChunk rest
        (match web chunk with
         | Some w =>
             links ++ [{| linkTitle := orElse (webTitle w) (js "Web Source");
                          uri := webUri w |}]
         | None => links
         end)
  end.

(** The template literal [fetchTopicDetails] sends. *)
Definition detailsPrompt (topicTitle : jsstring) : jsstring :=
  js "Provide a comprehensive " ++ [34%N] ++ js "Know Your Meme" ++ [34%N] ++
  js " / Encyclopedia style summary for the trending topic: " ++ [34%N] ++
  topicTitle ++ [34%N] ++ js ". " ++ [10%N] ++ js "      " ++ [10%N] ++
  js "      Structure the response in Markdown with these sections:" ++
  [10%N] ++ js "      # " ++ topicTitle ++ [10%N] ++ js "      ## Origin" ++
  [10%N] ++
  js "      (Where and when did this start? Who started it? Link to original video descriptions if possible.)" ++
  [10%N] ++ js "      ## Meaning & Context" ++ [10%N] ++
  js "      (What does it mean? Why is it trending now?)" ++ [10%N] ++
  js "      ## Impact/Reception" ++ [10%N] ++
  js "      (How are people reacting? Is there controversy?)" ++ [10%N] ++
  js "      " ++ [10%N] ++ js "      Make it engaging and informative." ++
  [10%N] ++ js "      ".

(** The text of the one user part [fetchChatResponse] sends. *)
Definition chatPrompt (message : jsstring) : jsstring :=
  js "You are a helpful TrendPulse AI assistant. Users use this app to see trending topics." ++
  [10%N] ++
  js "            The user is asking a question about a topic that might not be in the pre-loaded lists." ++
  [10%N] ++
  js "            Answer their query using Google Search grounding to get the absolute latest info." ++
  [10%N] ++
  js "            Keep the answer concise (under 100 words) and engaging." ++
  [10%N] ++ js "            " ++ [10%N] ++ js "            User Query: " ++
  message.

Definition DETAILS_ERROR : DetailedInfo :=
  {| markdown := js "## Error" ++ [10%N]
                 ++ js "Unable to fetch details at this time. Please try again later.";
     sourceLinks := [] |}.

Definition CHAT_NOTHING_FOUND : jsstring :=
  js "I couldn't find anything on that right now.".

Definition CHAT_ERROR : jsstring :=
  js "Sorry, I'm having trouble connecting to the network right now.".

Section GeminiDetails.

Variable ai : Service.

(** [response.candidates?.[0]?.groundingMetadata?.groundingChunks]: the
    part of the response object that [GenerateResponse] does not carry,
    read through an accessor; [None] is [undefined]. *)
Variable groundingChunks : GenerateResponse -> option (list GroundingChunk).

Definition fetchTopicDetails (topicTitle : jsstring) : ST Net DetailedInfo :=
  tryCatch
    (response ← generateContentWithRetry ai (js "gemini-2.5-flash")
                  {| contents := detailsPrompt topicTitle; googleSearch := true |} 3;
     let text := orElse (text response) (js "No details available.") in
     let links :=
       match groundingChunks response with
       | Some chunks => forEachChunk chunks []
       | None => []
       end in
     mret {| markdown := text; sourceLinks := take 6 links |})
    (fun error => mret DETAILS_ERROR).

(** The request carries one user part; its text stands for [contents]. *)
Definition fetchChatResponse (message : jsstring) : ST Net jsstring :=
  tryCatch
    (response ← generateContentWithRetry ai (js "gemini-2.5-flash")
                  {| contents := chatPrompt message; googleSearch := true |} 3;
     mret (orElse (text response) CHAT_NOTHING_FOUND))
    (fun error => mret CHAT_ERROR).

End GeminiDetails.

(** ** The [ChatBot] component *)

Inductive Role := RoleUser | RoleAi.

Record Message := {
  msgId : jsstring;
  role : Role;
  msgText : jsstring
}.

Record ChatState := {
  input : jsstring;
  messages : list Message;
  isLoading : bool
}.

Record ChatWorld := {
  chatNet : Net;
  chat : ChatState
}.

Definition liftChat {A} (m : ST Net A) : ST ChatWorld A := fun w =>
  match m (chatNet w) with
  | (r, n') => (r, {| chatNet := n'; chat := chat w |})
  end.

Definition modifyChat (f : ChatState -> ChatState) : ST ChatWorld unit := fun w =>
  (Ok tt, {| chatNet := chatNet w; chat := f (chat w) |}).

(** [setMessages(prev => [...prev, msg])] *)
Definition pushMessage (msg : Message) : ST ChatWorld unit :=
  modifyChat (fun st =>
    {| input := input st; messages := messages st ++ [msg];
       isLoading := isLoading st |}).

Definition setInput (v : jsstring) : ST ChatWorld unit :=
  modifyChat (fun st =>
    {| input := v; messages := messages st; isLoading := isLoading st |}).

Definition setIsLoading (v : bool) : ST ChatWorld unit :=
  modifyChat (fun st =>
    {| input := input st; messages := messages st; isLoading := v |}).

Definition WELCOME : Message :=
  {| msgId := js "welcome"; role := RoleAi;
     msgText := js "Can't find what you're looking for? Ask me about any other trending topic!" |}.

Definition chatInitial : ChatState :=
  {| input := []; messages := [WELCOME]; isLoading := false |}.

(** [handleSend], with the chat fetcher it imports. *)
Definition handleSend (fetchChat : jsstring -> ST Net jsstring) (text : jsstring)
  : ST ChatWorld unit := fun w =>
  if bool_decide (trim text = []) || isLoading (chat w) then (Ok tt, w)
  else
    (t ← liftChat Date_now;
     _ ← pushMessage {| msgId := showZ t; role := RoleUser; msgText := text |};
     _ ← setInput [];
     _ ← setIsLoading true;
     responseText ← liftChat (fetchChat text);
     t' ← liftChat Date_now;
     _ ← pushMessage {| msgId := showZ (t' + 1); role := RoleAi;
                        msgText := responseText |};
     setIsLoading false) w.

(** ** The [DetailView] component *)

Record DetailState := {
  info : option DetailedInfo;
  detailLoading : bool
}.

Record DetailWorld := {
  detailNet : Net;
  detail : DetailState
}.

Definition liftDetail {A} (m : ST Net A) : ST DetailWorld A := fun w =>
  match m (detailNet w) with
  | (r, n') => (r, {| detailNet := n'; detail := detail w |})
  end.

Definition setInfo (v : option DetailedInfo) : ST DetailWorld unit := fun w =>
  (Ok tt, {| detailNet := detailNet w;
             detail := {| info := v; detailLoading := detailLoading (detail w) |} |}).

Definition setDetailLoading (v : bool) : ST DetailWorld unit := fun w =>
  (Ok tt, {| detailNet := detailNet w;
             detail := {| info := info (detail w); detailLoading := v |} |}).

(** [loadDetails] of the effect on [topic]; [mounted] is the value the
    flag has when the awaited call returns ([false] once the cleanup of
    the effect has run). *)
Definition loadDetails (fetchDetails : jsstring -> ST Net DetailedInfo)
    (topicTitle : jsstring) (mounted : bool) : ST DetailWorld unit :=
  _ ← setDetailLoading true;
  data ← liftDetail (fetchDetails topicTitle);
  if mounted then (_ ← setInfo (Some data); setDetailLoading false)
  else mret tt.

(** ** More of the [App] component *)

(** The lazy initializer of [savedTopics], given
    [localStorage.getItem(SAVED_STORAGE_KEY)]: [JSON.parse] is not
    guarded here. *)
Definition savedTopics_init (JSON_parse_saved : jsstring -> option (list Topic))
    (saved : option jsstring) : Result (list Topic) :=
  match saved with
  | Some (c :: s) =>
      match JSON_parse_saved (c :: s) with
      | Some parsed => Ok parsed
      | None => Throw {| status := None; code := None; message := js "SyntaxError" |}
      end
  | _ => Ok []
  end.

(** The two persistence effects. *)
Definition persistPreferences
    (JSON_stringify_prefs : gmap jsstring bool -> jsstring)
    (visibleSections : gmap jsstring bool) : ST World unit :=
  localStorage_setItem PREFS_KEY (JSON_stringify_prefs visibleSections).

Definition persistSavedTopics (JSON_stringify_saved : list Topic -> jsstring)
    (savedTopics : list Topic) : ST World unit :=
  localStorage_setItem SAVED_STORAGE_KEY (JSON_stringify_saved savedTopics).

(** [handleRefresh] *)
Definition handleRefresh
    (JSON_parse_CachedData : jsstring -> option CachedData)
    (JSON_stringify_CachedData : CachedData -> jsstring)
    (ai : Service) (fetch : SectionId -> Task (list Topic)) : ST World unit :=
  _ ← setRefreshing true;
  loadTopics JSON_parse_CachedData JSON_stringify_CachedData ai fetch true.

(** The sections the grid renders: [SECTIONS_CONFIG.map], skipping the
    entries whose [visibleSections[section.id]] is falsy. *)
Definition renderedSections (visibleSections : gmap jsstring bool)
  : list SectionId :=
  List.filter (fun c => default false (visibleSections !! sectionKey c))
    SECTIONS_CONFIG.

(** The condition of the "No sections selected" hint:
    [Object.values(visibleSections).every(v => !v) && savedTopics.length === 0]. *)
Definition noSectionsSelected (visibleSections : gmap jsstring bool)
    (savedTopics : list Topic) : bool :=
  forallb negb (snd <$> map_to_list visibleSections)
  && Nat.eqb (length savedTopics) 0.

(** ** Definitions used to state the properties *)

(** The records of the matching lines of a response, in line order; [i] is
    the index of the first line. *)
Definition recordsOf (categoryPrefix : jsstring) (t : Z) (i : nat)
    (lines : list jsstring) : list Topic :=
  omap (fun p : nat * jsstring =>
          topicOfMatch categoryPrefix p.1 t <$> topicRegexMatch p.2)
       (zip (seq i (length lines)) lines).

(** The request a category fetch sends. *)
Definition categoryRequest (prompt : jsstring) : GenerateRequest :=
  {| model := js "gemini-2.5-flash";
     params := {| contents := prompt ++ FORMAT_INSTRUCTION; googleSearch := true |} |}.

(** What follows the first request when [n] retries are made, starting
    with [retries] retries left: a backoff sleep, then the request again. *)
Fixpoint retryEvents (req : GenerateRequest) (retries n : nat) : list Event :=
  match n, retries with
  | S n', S retries' =>
      Sleep (2000 * (4 - Z.of_nat retries)) :: Generate req
        :: retryEvents req retries' n'
  | _, _ => []
  end.

(** The events of one call through the retry wrapper that made [n]
    retries. *)
Definition attempts (req : GenerateRequest) (n : nat) : list Event :=
  Generate req :: retryEvents req 3 n.

(** The three arguments each exported fetcher passes to
    [fetchTopicsByCategory]. *)
Definition promptOf (c : SectionId) : jsstring :=
  match c with
  | news => fetchNewsAndPolitics_prompt
  | tech => fetchTechTrends_prompt
  | music => fetchMusicTrends_prompt
  | billboard => fetchBillboardTrends_prompt
  | hiphop => fetchHipHopTrends_prompt
  | memes => fetchMemeTrends_prompt
  | gaming => fetchGamingTrends_prompt
  | landscapes => fetchLandscapeTrends_prompt
  | wildlife => fetchWildlifeTrends_prompt
  end.

Definition prefixOf (c : SectionId) : jsstring :=
  match c with
  | news => js "news"
  | tech => js "tech"
  | music => js "music"
  | billboard => js "billboard"
  | hiphop => js "hiphop"
  | memes => js "meme"
  | gaming => js "gaming"
  | landscapes => js "landscape"
  | wildlife => js "wildlife"
  end.

Definition fallbackOf (c : SectionId) : list Topic :=
  match c with
  | news => fetchNewsAndPolitics_fallback
  | tech => fetchTechTrends_fallback
  | music => fetchMusicTrends_fallback
  | billboard => fetchBillboardTrends_fallback
  | hiphop => fetchHipHopTrends_fallback
  | memes => fetchMemeTrends_fallback
  | gaming => fetchGamingTrends_fallback
  | landscapes => fetchLandscapeTrends_fallback
  | wildlife => fetchWildlifeTrends_fallback
  end.

(** Test doubles of the service: it always answers with one error, or
    always with one text. *)
Definition alwaysRejects (st cd : option Z) : Service := fun _ _ =>
  {| elapsed := 50;
     outcome := inr {| status := st; code := cd; message := js "ApiError" |} |}.

Definition alwaysAnswers (t : jsstring) : Service := fun _ _ =>
  {| elapsed := 50; outcome := inl {| text := Some t |} |}.

Definition net0 : Net := {| now := 1000; trace := [] |}.

(** What the preferences initializer reads from storage: the parsed
    blob, or nothing when the key is absent, empty or does not parse. *)
Definition parsedPrefs (JSON_parse_prefs : jsstring -> option (gmap jsstring bool))
    (saved : option jsstring) : gmap jsstring bool :=
  match saved with
  | Some (c :: s) => default ∅ (JSON_parse_prefs (c :: s))
  | _ => ∅
  end.

(** A preferences blob with the unknown key [foo] and without [tech], and
    a parser that knows this one blob. *)
Definition fooBlob : jsstring :=
  js ("{" +:+ DQUOTE +:+ "foo" +:+ DQUOTE +:+ ": false}").

Definition parseFooBlob (s : jsstring) : option (gmap jsstring bool) :=
  if decide (s = fooBlob) then Some {[ js "foo" := false ]} else None.

Definition topicA : Topic :=
  {| id := js "a"; title := js "A"; category := js "x"; description := js "";
     imageUrl := None |}.

Definition topicT : Topic :=
  {| id := js "t"; title := js "T"; category := js "x"; description := js "";
     imageUrl := None |}.

(** The batch each section is fetched in, counted from zero. *)
Definition groupOf (c : SectionId) : nat :=
  match c with
  | news | tech => 0
  | music | billboard | hiphop => 1
  | memes | gaming => 2
  | landscapes | wildlife => 3
  end.

(** The trace of a fetch cycle in which the fetch of section [c] leaves
    the events [ev c]: four groups, a pause of 1.5 s before each group but
    the first. *)
Definition cycleTrace (ev : SectionId -> list Event) : list Event :=
  (ev news ++ ev tech)
  ++ Sleep 1500 :: (ev music ++ ev billboard ++ ev hiphop)
  ++ Sleep 1500 :: (ev memes ++ ev gaming)
  ++ Sleep 1500 :: (ev landscapes ++ ev wildlife).

(** The world in which the batches of a cycle start. *)
Definition cycleStart (forceRefresh : bool) (w : World) : World :=
  if forceRefresh then w else (setLoading true w).2.

(** Whether the browser takes the snapshot a cycle writes when its batches
    completed in [w1] with results [d]. *)
Definition snapshotAccepted (JSON_stringify_CachedData : CachedData -> jsstring)
    (d : SectionId -> list Topic) (w1 : World) : bool :=
  storageAccepts w1 (localStorage w1) STORAGE_KEY
    (JSON_stringify_CachedData
       {| timestamp := now (net w1); data := fun c => Some (d c) |}).

(** The world a cycle ends in when its batches completed in [w1] with
    results [d] and the snapshot was written: [lastUpdated] and the
    persisted snapshot carry the time at which the last batch completed. *)
Definition persisted (JSON_stringify_CachedData : CachedData -> jsstring)
    (d : SectionId -> list Topic) (w1 : World) : World :=
  {| net := net w1;
     localStorage :=
       <[STORAGE_KEY := JSON_stringify_CachedData
                          {| timestamp := now (net w1);
                             data := fun c => Some (d c) |}]> (localStorage w1);
     storageAccepts := storageAccepts w1;
     app := {| sectionData := sectionData (app w1); loading := false;
               refreshing := false; error := error (app w1);
               lastUpdated := Some (now (net w1)) |} |}.

(** The world a cycle ends in when its batches completed in [w1] and the
    write of the snapshot threw: [lastUpdated] was set before the write. *)
Definition unsaved (w1 : World) : World :=
  {| net := net w1; localStorage := localStorage w1;
     storageAccepts := storageAccepts w1;
     app := {| sectionData := sectionData (app w1); loading := false;
               refreshing := false; error := Some LOAD_ERROR;
               lastUpdated := Some (now (net w1)) |} |}.

(** The world a cycle ends in when a batch threw in [w1]. *)
Definition failed (w1 : World) : World :=
  {| net := net w1; localStorage := localStorage w1;
     storageAccepts := storageAccepts w1;
     app := {| sectionData := sectionData (app w1); loading := false;
               refreshing := false; error := Some LOAD_ERROR;
               lastUpdated := lastUpdated (app w1) |} |}.

(** A snapshot that [loadTopics(false)] restores: stored under the cache
    key as a non-empty text that parses, and younger than the refresh
    interval. *)
Definition freshSnapshot (JSON_parse_CachedData : jsstring -> option CachedData)
    (w : World) (snap : CachedData) : Prop :=
  exists s, localStorage w !! STORAGE_KEY = Some s /\ s <> []
            /\ JSON_parse_CachedData s = Some snap
            /\ now (net w) - timestamp snap < REFRESH_INTERVAL.

(** Test doubles for the application: a fetcher table whose [music]
    fetcher rejects, a serializer, a parser that knows one stored text, and
    two worlds. *)
Definition networkDown : JsError :=
  {| status := None; code := None; message := js "TypeError: Failed to fetch" |}.

Definition musicRejects (c : SectionId) : Task (list Topic) :=
  if decide (c = music) then Settle (Throw networkDown) else mret [topicT].

(** A browser that takes every write, and one that takes none. *)
Definition acceptsAll : gmap jsstring jsstring -> jsstring -> jsstring -> bool :=
  fun _ _ _ => true.

Definition acceptsNone : gmap jsstring jsstring -> jsstring -> jsstring -> bool :=
  fun _ _ _ => false.

Definition stringifyStub (d : CachedData) : jsstring :=
  js "snapshot@" ++ showZ (timestamp d).

Definition parseStub (s : jsstring) : option CachedData :=
  if decide (s = js "snapshot@32400000")
  then Some {| timestamp := 32400000; data := fun _ => Some [topicA] |}
  else None.

(** Every section shows [topicA]; nothing is stored. *)
Definition worldShowingA : World :=
  {| net := net0; localStorage := ∅; storageAccepts := acceptsAll;
     app := {| sectionData := fun _ => [topicA]; loading := false;
               refreshing := true; error := None; lastUpdated := Some 500 |} |}.

(** The same in a browser that takes no write. *)
Definition worldStorageRefused : World :=
  {| net := net0; localStorage := ∅; storageAccepts := acceptsNone;
     app := {| sectionData := fun _ => [topicA]; loading := false;
               refreshing := true; error := None; lastUpdated := Some 500 |} |}.

(** Ten hours on the clock; the state was last updated long ago, and the
    stored snapshot is one hour old. *)
Definition worldStaleStateFreshCache : World :=
  {| net := {| now := 36000000; trace := [] |};
     localStorage := {[ STORAGE_KEY := js "snapshot@32400000" ]};
     storageAccepts := acceptsAll;
     app := {| sectionData := fun _ => []; loading := false;
               refreshing := false; error := None; lastUpdated := Some 1000 |} |}.

(** The net after the pause between two batches. *)
Definition pause (n : Net) : Net :=
  {| now := now n + 1500; trace := trace n ++ [Sleep 1500] |}.

(** The object [{ news, tech, music, billboard, hiphop, memes, gaming,
    landscapes, wildlife }] built from the nine results. *)
Definition resultsOf (r1 r2 r3 r4 r5 r6 r7 r8 r9 : list Topic)
  : SectionId -> list Topic :=
  fun c =>
    match c with
    | news => r1 | tech => r2 | music => r3
    | billboard => r4 | hiphop => r5 | memes => r6
    | gaming => r7 | landscapes => r8 | wildlife => r9
    end.

(** A string without white space at either end. *)
Definition trimmed (s : jsstring) : Prop :=
  (forall c, head s = Some c -> isWhiteSpace c = false)
  /\ (forall c, last s = Some c -> isWhiteSpace c = false).

(** The code unit of the bar. *)
Definition BAR_UNIT : N := 124.

(** A parsed record is clean: bars only in the description, no line
    terminator, no white space around a field. *)
Definition cleanRecord (T : Topic) : Prop :=
(BAR_UNIT ∉ title T) /\ (BAR_UNIT ∉ category T)
  /\ noLineTerminator (title T) /\ noLineTerminator (category T)
  /\ noLineTerminator (description T)
  /\ trimmed (title T) /\ trimmed (category T) /\ trimmed (description T).

(** A response of three lines: a record whose tagline holds a bar, noise,
    and a record with padded fields. *)
Definition threeLines : GenerateResponse :=
  {| text := Some (js "TOPIC_START|A|x|y|z|TOPIC_END" ++ [10%N]
                   ++ js "noise" ++ [10%N]
                   ++ js "- TOPIC_START| B |x|y|TOPIC_END") |}.

(** Counting what a stretch of trace cost: requests sent, time slept. *)
Definition isRequest (ev : Event) : bool :=
  match ev with
  | Generate _ => true
  | Sleep _ => false
  end.

Definition requestCount (evs : list Event) : nat :=
  length (List.filter isRequest evs).

Definition sleepTotal (evs : list Event) : Z :=
  foldr (fun ev acc => match ev with Sleep ms => ms + acc | Generate _ => acc end)
    0 evs.

(** The events of a call through the retry wrapper before its request
    number [j] (counted from zero): [j] failed requests, each followed by
    its backoff sleep. *)
Definition beforeAttempt (req : GenerateRequest) (j : nat) : list Event :=
  flat_map (fun i => [Generate req; Sleep (2000 * Z.of_nat i)]) (seq 1 j).

(** A service that rejects with 429 until two requests have been sent and
    answers [t] afterwards. *)
Definition recoversAfterTwo (t : jsstring) : Service := fun h _ =>
  if Nat.ltb (requestCount h) 2
  then {| elapsed := 50;
          outcome := inr {| status := Some 429; code := None;
                            message := js "RESOURCE_EXHAUSTED" |} |}
  else {| elapsed := 50; outcome := inl {| text := Some t |} |}.

(** The source link a grounding chunk yields, if it has a [web] part. *)
Definition linkOfChunk (chunk : GroundingChunk) : option SourceLink :=
  match web chunk with
  | Some w => Some {| linkTitle := orElse (webTitle w) (js "Web Source");
                      uri := webUri w |}
  | None => None
  end.

(** [beforeAttempt] for a wrapper started with [retries] retries left. *)
Fixpoint retryPrefix (req : GenerateRequest) (retries j : nat) : list Event :=
  match j, retries with
  | S j', S retries' =>
      Generate req :: Sleep (2000 * (4 - Z.of_nat retries))
        :: retryPrefix req retries' j'
  | _, _ => []
  end.

(** An accessor that finds the same eight chunks in every response: the
    third has no [web] part, the fourth an empty title. *)
Definition eightChunks (_ : GenerateResponse) : option (list GroundingChunk) :=
  let named := {| web := Some {| webTitle := Some (js "Source");
                                 webUri := Some (js "https://example.org") |} |} in
  Some [named; named; {| web := None |};
        {| web := Some {| webTitle := Some []; webUri := None |} |};
        named; named; named; named].

(** Preferences in which every known section is hidden and the unknown key
    [foo] is visible. *)
Definition onlyFooVisible : gmap jsstring bool :=
  <[js "foo" := true]> ((fun _ => false) <$> defaults).

(** Serializers of the two small blobs for the examples: they are told
    apart by one character. *)
Definition stringifyPrefsStub (m : gmap jsstring bool) : jsstring :=
  if decide (m = defaults) then js "d" else js "o".

Definition parsePrefsStub (s : jsstring) : option (gmap jsstring bool) :=
  if decide (s = js "d") then Some defaults else None.

Definition stringifySavedStub (l : list Topic) : jsstring :=
  js "#" ++ showNat (length l).

Definition parseSavedStub (s : jsstring) : option (list Topic) :=
  if decide (s = js "#2") then Some [topicT; topicA] else None.

(** The world after the page was closed and opened again [dt]
    milliseconds later: storage stays, the React state starts over. *)
Definition reopened (dt : Z) (st : AppState) (w : World) : World :=
  {| net := {| now := now (net w) + dt; trace := trace (net w) |};
     localStorage := localStorage w;
     storageAccepts := storageAccepts w;
     app := st |}.

Definition appInitial : AppState :=
  {| sectionData := fun _ => []; loading := true; refreshing := false;
     error := None; lastUpdated := None |}.

(** A serializer and a parser of snapshots that agree on the snapshots of
    fallback tables. *)
Definition parseFallbackSnapshot (s : jsstring) : option CachedData :=
  if decide (s = js "snapshot@5700")
  then Some {| timestamp := 5700; data := fun c => Some (fallbackOf c) |}
  else None.

(** The number of occurrences of a code unit in a string. *)
Definition occurrences (c : N) (s : jsstring) : nat :=
  length (List.filter (N.eqb c) s).

(** A run of a task on its own: the events it leaves and how it settles,
    when every request is answered as the service answers it after some
    history, and the clock is read at some time. *)
Inductive Runs (ai : Service) {A : Type} : Task A -> list Event -> Result A -> Prop :=
  | Runs_settle r : Runs ai (Settle r) [] r
  | Runs_generate req k h evs r :
      Runs ai (k (outcome (ai h req))) evs r ->
      Runs ai (AwaitGenerate req k) (Generate req :: evs) r
  | Runs_timer ms k evs r :
      Runs ai k evs r -> Runs ai (AwaitTimer ms k) (Sleep ms :: evs) r
  | Runs_clock k t evs r :
      Runs ai (k t) evs r -> Runs ai (ReadClock k) evs r.

(** [l] lays out the events of [l1] and of [l2], each in its order. *)
Inductive Interleaved {A : Type} : list A -> list A -> list A -> Prop :=
  | Interleaved_nil : Interleaved [] [] []
  | Interleaved_l x l1 l2 l :
      Interleaved l1 l2 l -> Interleaved (x :: l1) l2 (x :: l)
  | Interleaved_r x l1 l2 l :
      Interleaved l1 l2 l -> Interleaved l1 (x :: l2) (x :: l).

Inductive Interleaved3 {A : Type}
  : list A -> list A -> list A -> list A -> Prop :=
  | Interleaved3_nil : Interleaved3 [] [] [] []
  | Interleaved3_1 x l1 l2 l3 l :
      Interleaved3 l1 l2 l3 l -> Interleaved3 (x :: l1) l2 l3 (x :: l)
  | Interleaved3_2 x l1 l2 l3 l :
      Interleaved3 l1 l2 l3 l -> Interleaved3 l1 (x :: l2) l3 (x :: l)
  | Interleaved3_3 x l1 l2 l3 l :
      Interleaved3 l1 l2 l3 l -> Interleaved3 l1 l2 (x :: l3) (x :: l).

(** The events of a group of sections fetched together, when the fetch of
    section [c] makes [k c] retries: the first request of every section,
    in array order, before anything else; then the retries of each, in
    its own order, laid out among those of the others. *)
Definition groupOfTwo (k : SectionId -> nat) (a b : SectionId)
    (g : list Event) : Prop :=
  exists rest,
    g = Generate (categoryRequest (promptOf a))
          :: Generate (categoryRequest (promptOf b)) :: rest
    /\ Interleaved (retryEvents (categoryRequest (promptOf a)) 3 (k a))
                   (retryEvents (categoryRequest (promptOf b)) 3 (k b)) rest.

Definition groupOfThree (k : SectionId -> nat) (a b c : SectionId)
    (g : list Event) : Prop :=
  exists rest,
    g = Generate (categoryRequest (promptOf a))
          :: Generate (categoryRequest (promptOf b))
          :: Generate (categoryRequest (promptOf c)) :: rest
    /\ Interleaved3 (retryEvents (categoryRequest (promptOf a)) 3 (k a))
                    (retryEvents (categoryRequest (promptOf b)) 3 (k b))
                    (retryEvents (categoryRequest (promptOf c)) 3 (k c)) rest.

(** What two tasks in flight together do is a run of each, laid out on one
    trace. When the pair rejects, it is with the rejection of one of the
    two. *)
Definition PairRuns (ai : Service) {A B} (ka : Task A) (kb : Task B)
    (h : list Event) (out : Result (A * B) * Net) : Prop :=
  exists ea eb m,
    Interleaved ea eb m
    /\ trace out.2 = h ++ m
    /\ match out.1 with
       | Ok (x, y) => Runs ai ka ea (Ok x) /\ Runs ai kb eb (Ok y)
       | Throw e =>
           (exists ea', Runs ai ka ea' (Throw e))
           \/ (exists eb', Runs ai kb eb' (Throw e))
       end.

(** The same for three tasks. *)
Definition TripleRuns (ai : Service) {A B C} (ka : Task A) (kb : Task B)
    (kc : Task C) (h : list Event) (out : Result (A * B * C) * Net) : Prop :=
  exists ea eb ec m,
    Interleaved3 ea eb ec m
    /\ trace out.2 = h ++ m
    /\ match out.1 with
       | Ok (x, y, z) =>
           Runs ai ka ea (Ok x) /\ Runs ai kb eb (Ok y) /\ Runs ai kc ec (Ok z)
       | Throw e =>
           (exists ea', Runs ai ka ea' (Throw e))
           \/ (exists eb', Runs ai kb eb' (Throw e))
           \/ (exists ec', Runs ai kc ec' (Throw e))
       end.

(** * Properties *)

(** ** The line protocol *)

Example regex_plain :
  topicRegexMatch (js "TOPIC_START|A b|News| tag |TOPIC_END")
  = Some (js "A b", js "News", js " tag ").
Proof. reflexivity. Qed.

Example regex_unanchored_extra_bar :
  topicRegexMatch (js "1. TOPIC_START|A|B|C|D|TOPIC_END!")
  = Some (js "A", js "B", js "C|D").
Proof. reflexivity. Qed.

Example regex_too_few_fields :
  topicRegexMatch (js "TOPIC_START|A|B|TOPIC_END") = None.
Proof. reflexivity. Qed.

Lemma stripPrefix_Some p s r : stripPrefix p s = Some r <-> s = p ++ r.
Proof.
  revert s. induction p as [|a p IH]; intros s; simpl.
  - split; congruence.
  - destruct s as [|b s]; [split; discriminate|].
    destruct (N.eqb_spec a b) as [->|Hne].
    + rewrite IH. split; congruence.
    + split; [discriminate | intros [=]; congruence].
Qed.

Lemma stripPrefix_app p r : stripPrefix p (p ++ r) = Some r.
Proof. by apply stripPrefix_Some. Qed.

Lemma lazyDots_sound {A} (k : jsstring -> option A) s : forall acc g r,
  lazyDots k acc s = Some (g, r) ->
  exists g' rest, g = rev acc ++ g' /\ s = g' ++ rest /\ k rest = Some r
                  /\ noLineTerminator g'.
Proof.
  induction s as [|c s IH]; intros acc g r; simpl.
  - destruct (k []) eqn:Hk; [|discriminate].
    intros [= <- <-]. exists [], []. rewrite app_nil_r. repeat split; auto.
    constructor.
  - destruct (k (c :: s)) eqn:Hk.
    + intros [= <- <-]. exists [], (c :: s). rewrite app_nil_r.
      repeat split; auto. constructor.
    + destruct (isLineTerminator c) eqn:Hc; [discriminate|].
      intros H. apply IH in H as (g' & rest & -> & -> & Hr & Hg).
      exists (c :: g'), rest. simpl. rewrite <- app_assoc. simpl.
      repeat split; auto. constructor; auto.
Qed.

Lemma lazyDots_complete {A} (k : jsstring -> option A) g : forall rest acc,
  noLineTerminator g -> is_Some (k rest) -> is_Some (lazyDots k acc (g ++ rest)).
Proof.
  induction g as [|c g IH]; intros rest acc Hg [r Hr]; simpl.
  - destruct rest; simpl; rewrite Hr; eauto.
  - destruct (k (c :: g ++ rest)); [eauto|].
    inversion Hg as [|? ? Hc Hg']; subst. rewrite Hc. apply IH; eauto.
Qed.

Lemma topicRegexAt_sound s m :
  topicRegexAt s = Some m ->
  exists t c d post,
    s = TOPIC_START ++ t ++ BAR ++ c ++ BAR ++ d ++ TOPIC_END ++ post
    /\ noLineTerminator t /\ noLineTerminator c /\ noLineTerminator d
    /\ m = (t, c, d).
Proof.
  unfold topicRegexAt. intros H.
  destruct (stripPrefix TOPIC_START s) as [s1|] eqn:H1; [|discriminate].
  cbn [mbind option_bind] in H. apply stripPrefix_Some in H1.
  match type of H with context [lazyDots ?k ?a ?x] =>
    destruct (lazyDots k a x) as [[g1 [g2 [g3 post]]]|] eqn:L1 end; [|discriminate].
  cbn [mbind option_bind fst snd] in H. injection H as <-.
  apply lazyDots_sound in L1 as (t & rest1 & -> & -> & K1 & Ht).
  destruct (stripPrefix BAR rest1) as [s2|] eqn:H2; [|discriminate].
  cbn [mbind option_bind] in K1. apply stripPrefix_Some in H2.
  apply lazyDots_sound in K1 as (c & rest2 & -> & -> & K2 & Hc).
  destruct (stripPrefix BAR rest2) as [s3|] eqn:H3; [|discriminate].
  cbn [mbind option_bind] in K2. apply stripPrefix_Some in H3.
  apply lazyDots_sound in K2 as (d & rest3 & -> & -> & K3 & Hd).
  apply stripPrefix_Some in K3. subst.
  exists t, c, d, post. cbn [rev app]. repeat split; auto.
Qed.

Lemma topicRegexAt_complete t c d post :
  noLineTerminator t -> noLineTerminator c -> noLineTerminator d ->
  is_Some (topicRegexAt
             (TOPIC_START ++ t ++ BAR ++ c ++ BAR ++ d ++ TOPIC_END ++ post)).
Proof.
  intros Ht Hc Hd. unfold topicRegexAt.
  rewrite stripPrefix_app. cbn [mbind option_bind].
  match goal with |- context [lazyDots ?k ?a ?x] =>
    assert (is_Some (lazyDots k a x)) as [m ->] end; [|cbn [mbind option_bind]; eauto].
  apply lazyDots_complete; [done|].
  rewrite stripPrefix_app. cbn [mbind option_bind].
  apply lazyDots_complete; [done|].
  rewrite stripPrefix_app. cbn [mbind option_bind].
  apply lazyDots_complete; [done|].
  rewrite stripPrefix_app. eauto.
Qed.

Lemma topicRegexMatch_sound line m :
  topicRegexMatch line = Some m -> matchesTopicPattern line.
Proof.
  induction line as [|a line IH]; simpl.
  - destruct (topicRegexAt []) eqn:H; [|discriminate]. intros _.
    apply topicRegexAt_sound in H as (t & c & d & post & E & ? & ? & ? & _).
    exists [], t, c, d, post. auto.
  - destruct (topicRegexAt (a :: line)) eqn:H.
    + intros _.
      apply topicRegexAt_sound in H as (t & c & d & post & E & ? & ? & ? & _).
      exists [], t, c, d, post. auto.
    + intros H'. apply IH in H' as (pre & t & c & d & post & -> & ?).
      exists (a :: pre), t, c, d, post. auto.
Qed.

Lemma topicRegexMatch_at s :
  is_Some (topicRegexAt s) -> is_Some (topicRegexMatch s).
Proof. intros [m Hm]. destruct s; cbn [topicRegexMatch]; rewrite Hm; eauto. Qed.

Lemma topicRegexMatch_complete pre : forall t c d post,
  noLineTerminator t -> noLineTerminator c -> noLineTerminator d ->
  is_Some (topicRegexMatch
             (pre ++ TOPIC_START ++ t ++ BAR ++ c ++ BAR ++ d ++ TOPIC_END ++ post)).
Proof.
  induction pre as [|a pre IH]; intros t c d post Ht Hc Hd.
  - rewrite app_nil_l. by apply topicRegexMatch_at, topicRegexAt_complete.
  - rewrite <- app_comm_cons. cbn [topicRegexMatch].
    match goal with |- context [topicRegexAt ?x] => destruct (topicRegexAt x) end;
      [eauto|]. by apply IH.
Qed.

Lemma topicRegexMatch_iff line :
  is_Some (topicRegexMatch line) <-> matchesTopicPattern line.
Proof.
  split.
  - intros [m Hm]. eapply topicRegexMatch_sound; eauto.
  - intros (pre & t & c & d & post & -> & Ht & Hc & Hd).
    by apply topicRegexMatch_complete.
Qed.

Lemma forEachLine_recordsOf categoryPrefix t lines : forall i topics,
  forEachLine categoryPrefix t i lines topics
  = topics ++ recordsOf categoryPrefix t i lines.
Proof.
  unfold recordsOf.
  induction lines as [|line lines IH]; intros i topics; simpl.
  - by rewrite app_nil_r.
  - rewrite IH. destruct (topicRegexMatch line); simpl; [|done].
    by rewrite <- app_assoc.
Qed.

Lemma recordsOf_length categoryPrefix t lines : forall i,
  length (recordsOf categoryPrefix t i lines)
  = length (filter (fun l => is_Some (topicRegexMatch l)) lines).
Proof.
  unfold recordsOf.
  induction lines as [|line lines IH]; intros i; simpl; [done|].
  rewrite filter_cons. destruct (topicRegexMatch line) eqn:E; simpl.
  - destruct (decide (is_Some (Some p))) as [_|n]; [|destruct n; eauto].
    simpl. by rewrite IH.
  - destruct (decide (is_Some (@None (jsstring * jsstring * jsstring))))
      as [[? ?]|_]; [discriminate|]. by rewrite IH.
Qed.

Lemma parseTopics_length categoryPrefix t resp fallbackData :
  parseTopics categoryPrefix t resp fallbackData = fallbackData
  \/ (1 <= length (parseTopics categoryPrefix t resp fallbackData) <= 10)%nat.
Proof.
  unfold parseTopics.
  destruct (forEachLine _ _ _ _ _) as [|x l]; cbn [length Nat.eqb]; [by left|].
  right. rewrite length_take. cbn [length]. lia.
Qed.

(** C3: the parser turns exactly the lines that match the pattern into
    records, in order (a line matches when the markers and three fields
    occur somewhere in it; other lines are skipped); it returns the first
    ten records, and the fallback list when no line matched. *)
Theorem C3_parser_keeps_matching_lines categoryPrefix t response fallbackData :
  let lines := split 10 (default [] (text response)) in
  let topics := recordsOf categoryPrefix t 0 lines in
  (forall line, is_Some (topicRegexMatch line) <-> matchesTopicPattern line)
  /\ forEachLine categoryPrefix t 0 lines [] = topics
  /\ length topics = length (filter (fun l => is_Some (topicRegexMatch l)) lines)
  /\ parseTopics categoryPrefix t response fallbackData
     = (if decide (topics = []) then fallbackData else take 10 topics)
  /\ (parseTopics categoryPrefix t response fallbackData = fallbackData
      \/ (1 <= length (parseTopics categoryPrefix t response fallbackData) <= 10)%nat).
Proof.
  intros lines topics. split; [apply topicRegexMatch_iff|].
  split; [apply forEachLine_recordsOf|].
  split; [apply recordsOf_length|].
  split.
  - unfold parseTopics. fold lines. rewrite forEachLine_recordsOf.
    rewrite app_nil_l. fold topics. clearbody topics.
    destruct topics as [|x l]; [done|]. cbn [length Nat.eqb].
    destruct (decide (x :: l = [])); [discriminate | done].
  - apply parseTopics_length.
Qed.

(** ** The retry wrapper and the category fetch *)

Example attempts_3 req :
  attempts req 3
  = [Generate req; Sleep 2000; Generate req; Sleep 4000; Generate req;
     Sleep 6000; Generate req].
Proof. reflexivity. Qed.

Section GeminiServiceFacts.

Variable ai : Service.

Lemma generateContentWithRetry_trace model params retries : forall n,
  exists k r n',
    (k <= retries)%nat
    /\ generateContentWithRetry ai model params retries n = (r, n')
    /\ trace n' = trace n
         ++ Generate {| model := model; params := params |}
         :: retryEvents {| model := model; params := params |} retries k.
Proof.
  induction retries as [|retries IH]; intros n;
    cbn [generateContentWithRetry]; unfold tryCatch, ai_models_generateContent.
  - exists 0%nat. destruct (outcome _); do 2 eexists; (split; [lia|]);
      split; reflexivity.
  - destruct (outcome _) as [resp|e] eqn:E.
    + exists 0%nat. do 2 eexists. split; [lia|]. split; reflexivity.
    + destruct (retryable e).
      * unfold mbind, ST_bind, delay, sleep.
        match goal with |- context [generateContentWithRetry _ _ _ _ ?m] =>
          destruct (IH m) as (k & r & n' & Hk & -> & Ht) end.
        exists (S k), r, n'. split; [lia|]. split; [done|].
        rewrite Ht. cbn [trace retryEvents]. rewrite <- !app_assoc. done.
      * exists 0%nat. do 2 eexists. split; [lia|]. split; reflexivity.
Qed.

Lemma generateContentWithRetry_exhausted model params retries :
  (forall h, exists e,
      outcome (ai h {| model := model; params := params |}) = inr e
      /\ retryable e = true) ->
  forall n, exists e n',
    generateContentWithRetry ai model params retries n = (Throw e, n')
    /\ trace n' = trace n
         ++ Generate {| model := model; params := params |}
         :: retryEvents {| model := model; params := params |} retries retries.
Proof.
  intros H. induction retries as [|retries IH]; intros n;
    cbn [generateContentWithRetry]; unfold tryCatch, ai_models_generateContent;
    destruct (H (trace n)) as (e & -> & He).
  - do 2 eexists. split; reflexivity.
  - rewrite He. unfold mbind, ST_bind, delay, sleep.
    match goal with |- context [generateContentWithRetry _ _ _ _ ?m] =>
      destruct (IH m) as (e' & n' & -> & Ht) end.
    exists e', n'. split; [done|].
    rewrite Ht. cbn [trace retryEvents]. rewrite <- !app_assoc. done.
Qed.

Lemma fetchTopicsByCategory_throw prompt categoryPrefix fallbackData n e n' :
  generateContentWithRetry ai (js "gemini-2.5-flash")
    {| contents := prompt ++ FORMAT_INSTRUCTION; googleSearch := true |} 3 n
    = (Throw e, n') ->
  fetchTopicsByCategory ai prompt categoryPrefix fallbackData n
  = (Ok fallbackData, n').
Proof.
  intros H. unfold fetchTopicsByCategory, tryCatch, mbind, ST_bind.
  by rewrite H.
Qed.

Lemma fetchTopicsByCategory_ok prompt categoryPrefix fallbackData n resp n' :
  generateContentWithRetry ai (js "gemini-2.5-flash")
    {| contents := prompt ++ FORMAT_INSTRUCTION; googleSearch := true |} 3 n
    = (Ok resp, n') ->
  fetchTopicsByCategory ai prompt categoryPrefix fallbackData n
  = (Ok (parseTopics categoryPrefix (now n') resp fallbackData), n').
Proof.
  intros H. unfold fetchTopicsByCategory, tryCatch, mbind, ST_bind.
  by rewrite H.
Qed.

(** Every category fetch settles with a list: the fallback table or the
    parse of a response; its events are one call through the retry
    wrapper. *)
Lemma fetchTopicsByCategory_settles prompt categoryPrefix fallbackData n :
  exists k res n',
    (k <= 3)%nat
    /\ fetchTopicsByCategory ai prompt categoryPrefix fallbackData n = (Ok res, n')
    /\ trace n' = trace n ++ attempts (categoryRequest prompt) k
    /\ (res = fallbackData
        \/ exists resp, res = parseTopics categoryPrefix (now n') resp fallbackData).
Proof.
  destruct (generateContentWithRetry_trace (js "gemini-2.5-flash")
              {| contents := prompt ++ FORMAT_INSTRUCTION; googleSearch := true |}
              3 n) as (k & r & n' & Hk & Hr & Ht).
  destruct r as [resp|e].
  - exists k, (parseTopics categoryPrefix (now n') resp fallbackData), n'.
    split; [done|]. split; [by apply fetchTopicsByCategory_ok|].
    split; [done|]. right. eauto.
  - exists k, fallbackData, n'.
    split; [done|]. split; [by eapply fetchTopicsByCategory_throw|].
    split; [done|]. by left.
Qed.

End GeminiServiceFacts.

Lemma geminiFetch_unfold ai c :
  geminiFetch ai c
  = fetchTopicsByCategory ai (promptOf c) (prefixOf c) (fallbackOf c).
Proof. by destruct c. Qed.

(** C2: a call that keeps signalling 429 or 503 is made four times, three
    of them retries after sleeps of 2 s, 4 s and 6 s; after that, and after
    any other error, the category fetch returns its fallback table. It
    never throws. *)
Theorem C2_retry_backoff_then_fallback
    (ai : Service) (prompt categoryPrefix : jsstring) (fallbackData : list Topic)
    (n : Net) :
  (exists res n',
      fetchTopicsByCategory ai prompt categoryPrefix fallbackData n = (Ok res, n'))
  /\ (forall e n',
        generateContentWithRetry ai (model (categoryRequest prompt))
          (params (categoryRequest prompt)) 3 n = (Throw e, n') ->
        fetchTopicsByCategory ai prompt categoryPrefix fallbackData n
        = (Ok fallbackData, n'))
  /\ ((forall h, exists e,
          outcome (ai h (categoryRequest prompt)) = inr e /\ retryable e = true) ->
      exists n',
        fetchTopicsByCategory ai prompt categoryPrefix fallbackData n
        = (Ok fallbackData, n')
        /\ trace n' = trace n
             ++ [Generate (categoryRequest prompt); Sleep 2000;
                 Generate (categoryRequest prompt); Sleep 4000;
                 Generate (categoryRequest prompt); Sleep 6000;
                 Generate (categoryRequest prompt)])
  /\ (forall e,
        outcome (ai (trace n) (categoryRequest prompt)) = inr e ->
        retryable e = false ->
        exists n',
          fetchTopicsByCategory ai prompt categoryPrefix fallbackData n
          = (Ok fallbackData, n')
          /\ trace n' = trace n ++ [Generate (categoryRequest prompt)]).
Proof.
  split; [|split; [|split]].
  - destruct (fetchTopicsByCategory_settles ai prompt categoryPrefix
                fallbackData n) as (k & res & n' & _ & H & _). eauto.
  - intros e n' H. by eapply fetchTopicsByCategory_throw.
  - intros H.
    destruct (generateContentWithRetry_exhausted ai _ _ 3 H n)
      as (e & n' & Hr & Ht).
    exists n'. split; [by eapply fetchTopicsByCategory_throw|]. exact Ht.
  - intros e He Hne.
    eexists. split.
    + eapply fetchTopicsByCategory_throw.
      cbn [generateContentWithRetry].
      unfold tryCatch, ai_models_generateContent.
      unfold categoryRequest in He. rewrite He, Hne. reflexivity.
    + reflexivity.
Qed.

Lemma C2_retry_backoff_then_fallback_witness :
  (exists n',
      fetchTopicsByCategory (alwaysRejects (Some 429) None) (js "p") (js "news")
        fetchNewsAndPolitics_fallback net0
      = (Ok fetchNewsAndPolitics_fallback, n')
      /\ trace n' = trace net0
           ++ [Generate (categoryRequest (js "p")); Sleep 2000;
               Generate (categoryRequest (js "p")); Sleep 4000;
               Generate (categoryRequest (js "p")); Sleep 6000;
               Generate (categoryRequest (js "p"))])
  /\ (exists n',
      fetchTopicsByCategory (alwaysRejects (Some 500) None) (js "p") (js "news")
        fetchNewsAndPolitics_fallback net0
      = (Ok fetchNewsAndPolitics_fallback, n')
      /\ trace n' = trace net0 ++ [Generate (categoryRequest (js "p"))]).
Proof.
  split.
  - destruct (C2_retry_backoff_then_fallback (alwaysRejects (Some 429) None)
                (js "p") (js "news") fetchNewsAndPolitics_fallback net0)
      as (_ & _ & H & _).
    apply H. intros h. eexists. split; reflexivity.
  - destruct (C2_retry_backoff_then_fallback (alwaysRejects (Some 500) None)
                (js "p") (js "news") fetchNewsAndPolitics_fallback net0)
      as (_ & _ & _ & H).
    apply (H {| status := Some 500; code := None; message := js "ApiError" |});
      reflexivity.
Defined.

Example retry_503_run :
  fetchTopicsByCategory (alwaysRejects (Some 503) None) (js "p") (js "x") [] net0
  = (Ok [],
     {| now := 1000 + 50 + 2000 + 50 + 4000 + 50 + 6000 + 50;
        trace := attempts (categoryRequest (js "p")) 3 |}).
Proof. vm_compute. reflexivity. Qed.

(** An error whose [code] is 503 (and whose [status] is not) is not
    retried: the wrapper reads [status] for 503. *)
Example code_503_not_retried :
  trace (fetchTopicsByCategory (alwaysRejects None (Some 503)) (js "p") (js "x")
           [] net0).2
  = [Generate (categoryRequest (js "p"))].
Proof. vm_compute. reflexivity. Qed.

Lemma fallbackOf_length c : length (fallbackOf c) = 6%nat.
Proof. by destruct c. Qed.

Lemma fetchTopicsByCategory_length ai prompt categoryPrefix fallbackData n :
  fallbackData <> [] ->
  exists res n',
    fetchTopicsByCategory ai prompt categoryPrefix fallbackData n = (Ok res, n')
    /\ (1 <= length res <= Nat.max 10 (length fallbackData))%nat.
Proof.
  intros Hne.
  assert (1 <= length fallbackData)%nat as Hfb.
  { destruct fallbackData; [done | cbn [length]; lia]. }
  destruct (fetchTopicsByCategory_settles ai prompt categoryPrefix
              fallbackData n) as (k & res & n' & _ & H & _ & Hres).
  exists res, n'. split; [done|].
  destruct Hres as [->|[resp ->]]; [lia|].
  destruct (parseTopics_length categoryPrefix (now n') resp fallbackData)
    as [->|?]; lia.
Qed.

(** C10: each of the nine static fallback tables has six entries, and each
    of the nine category fetches returns between one and ten topics,
    whatever the service answers; for any non-empty fallback table the
    result is never empty (and holds at most ten topics, or the table). *)
Theorem C10_category_fetch_never_empty :
  (forall c, length (fallbackOf c) = 6%nat)
  /\ (forall ai c n, exists res n',
        geminiFetch ai c n = (Ok res, n') /\ (1 <= length res <= 10)%nat)
  /\ (forall ai prompt categoryPrefix fallbackData n,
        fallbackData <> [] ->
        exists res n',
          fetchTopicsByCategory ai prompt categoryPrefix fallbackData n
          = (Ok res, n')
          /\ (1 <= length res <= Nat.max 10 (length fallbackData))%nat).
Proof.
  split; [apply fallbackOf_length|]. split.
  - intros ai c n. rewrite geminiFetch_unfold.
    destruct (fetchTopicsByCategory_length ai (promptOf c) (prefixOf c)
                (fallbackOf c) n) as (res & n' & H & Hl).
    { intros E. pose proof (fallbackOf_length c) as L. rewrite E in L.
      discriminate. }
    exists res, n'. split; [done|]. rewrite fallbackOf_length in Hl. lia.
  - intros. by apply fetchTopicsByCategory_length.
Qed.

Lemma C10_category_fetch_never_empty_witness :
  exists res n',
    fetchTopicsByCategory (alwaysAnswers (js "no topics today")) (js "p")
      (js "news") fetchNewsAndPolitics_fallback net0 = (Ok res, n')
    /\ (1 <= length res <= Nat.max 10 (length fetchNewsAndPolitics_fallback))%nat.
Proof.
  apply (proj2 (proj2 C10_category_fetch_never_empty)). discriminate.
Defined.

Example parse_two_of_three_lines :
  map title
    (parseTopics (js "news") 7
       {| text := Some (js "TOPIC_START|A|x|y|TOPIC_END" ++ [10%N]
                        ++ js "noise" ++ [10%N]
                        ++ js "- TOPIC_START| B |x|y|TOPIC_END") |} [])
  = [js "A"; js "B"].
Proof. vm_compute. reflexivity. Qed.

Example parse_ids :
  map id
    (parseTopics (js "news") 7
       {| text := Some (js "noise" ++ [10%N]
                        ++ js "TOPIC_START|A|x|y|TOPIC_END") |} [])
  = [js "news-1-7"].
Proof. vm_compute. reflexivity. Qed.

(** ** The saved collection *)

Lemma isTopicSaved_false_filter topic prev :
  isTopicSaved prev topic = false ->
  List.filter (fun t => negb (bool_decide (title t = title topic))) prev = prev.
Proof.
  unfold isTopicSaved. induction prev as [|x prev IH]; cbn [existsb List.filter];
    [done|].
  intros H. apply orb_false_iff in H as [Hx Hp]. rewrite Hx. cbn [negb].
  by rewrite IH.
Qed.

Lemma isTopicSaved_filter topic prev :
  isTopicSaved (List.filter (fun t => negb (bool_decide (title t = title topic)))
                  prev) topic = false.
Proof.
  unfold isTopicSaved. induction prev as [|x prev IH]; cbn [existsb List.filter];
    [done|].
  destruct (bool_decide (title x = title topic)) eqn:E; cbn [negb]; [done|].
  cbn [existsb]. by rewrite E, IH.
Qed.

Lemma isTopicSaved_title topic topic' prev :
  title topic' = title topic ->
  isTopicSaved prev topic' = isTopicSaved prev topic.
Proof. unfold isTopicSaved. by intros ->. Qed.

Lemma NoDup_titles_filter (f : Topic -> bool) prev :
  NoDup (map title prev) -> NoDup (map title (List.filter f prev)).
Proof.
  induction prev as [|x prev IH]; cbn [map List.filter]; [done|].
  intros H. apply NoDup_cons in H as [Hx Hp].
  destruct (f x); cbn [map]; [|by apply IH].
  apply NoDup_cons. split; [|by apply IH].
  intros Hin. apply Hx.
  apply list_elem_of_In, in_map_iff in Hin as (y & Hy & Hin).
  apply filter_In in Hin as [Hin _].
  apply list_elem_of_In, in_map_iff. eauto.
Qed.

Lemma isTopicSaved_false_title topic prev :
  isTopicSaved prev topic = false -> title topic ∉ map title prev.
Proof.
  unfold isTopicSaved. intros H Hin.
  apply list_elem_of_In, in_map_iff in Hin as (y & Hy & Hin).
  assert (existsb (fun t => bool_decide (title t = title topic)) prev = true)
    as E; [|congruence].
  apply existsb_exists. exists y. split; [done|]. by apply bool_decide_eq_true.
Qed.

Lemma toggleSaveTopic_unfold topic prev :
  toggleSaveTopic topic prev
  = if isTopicSaved prev topic
    then List.filter (fun t => negb (bool_decide (title t = title topic))) prev
    else topic :: prev.
Proof. reflexivity. Qed.

(** C7, as the code has it: [toggleSaveTopic] removes every entry with the
    topic's title when there is one and otherwise puts the topic first; a
    second toggle with the same title restores the collection when the
    title was absent, and puts the topic first in the collection without
    that title when it was present; titles stay pairwise distinct. *)
Theorem C7_toggle_saved (topic topic' : Topic) (prev : list Topic) :
  title topic' = title topic ->
  (isTopicSaved prev topic = true ->
     toggleSaveTopic topic prev
     = List.filter (fun t => negb (bool_decide (title t = title topic))) prev
     /\ toggleSaveTopic topic' (toggleSaveTopic topic prev)
        = topic' :: List.filter (fun t => negb (bool_decide (title t = title topic)))
                      prev)
  /\ (isTopicSaved prev topic = false ->
        toggleSaveTopic topic prev = topic :: prev
        /\ toggleSaveTopic topic' (toggleSaveTopic topic prev) = prev)
  /\ (NoDup (map title prev) -> NoDup (map title (toggleSaveTopic topic prev))).
Proof.
  intros Ht. split; [|split].
  - intros H. rewrite (toggleSaveTopic_unfold topic prev), H. split; [done|].
    rewrite toggleSaveTopic_unfold, (isTopicSaved_title topic topic') by done.
    by rewrite isTopicSaved_filter.
  - intros H. rewrite (toggleSaveTopic_unfold topic prev), H. split; [done|].
    rewrite toggleSaveTopic_unfold, (isTopicSaved_title topic topic') by done.
    unfold isTopicSaved. cbn [existsb].
    rewrite bool_decide_eq_true_2 by done. cbn [orb].
    rewrite Ht. cbn [List.filter]. rewrite bool_decide_eq_true_2 by done.
    cbn [negb]. by apply isTopicSaved_false_filter.
  - intros H. rewrite toggleSaveTopic_unfold.
    destruct (isTopicSaved prev topic) eqn:E.
    + by apply NoDup_titles_filter.
    + cbn [map]. apply NoDup_cons. split; [|done].
      by apply isTopicSaved_false_title.
Qed.

Lemma C7_toggle_saved_witness :
  (toggleSaveTopic topicT [topicA; topicT] = [topicA]
   /\ toggleSaveTopic topicT (toggleSaveTopic topicT [topicA; topicT])
      = [topicT; topicA])
  /\ (toggleSaveTopic topicT [topicA] = [topicT; topicA]
      /\ toggleSaveTopic topicT (toggleSaveTopic topicT [topicA]) = [topicA])
  /\ NoDup (map title (toggleSaveTopic topicT [topicA])).
Proof.
  split; [|split].
  - apply (C7_toggle_saved topicT topicT [topicA; topicT]); reflexivity.
  - apply (C7_toggle_saved topicT topicT [topicA]); reflexivity.
  - apply (C7_toggle_saved topicT topicT [topicA]); [reflexivity|].
    cbn [map]. apply NoDup_cons. split; [apply not_elem_of_nil|apply NoDup_nil_2].
Defined.

(** C7 as stated fails: toggling twice a topic that was saved, but not
    first, moves it to the front. *)
Lemma C7_double_toggle_counterexample :
  NoDup (map title [topicA; topicT])
  /\ toggleSaveTopic topicT (toggleSaveTopic topicT [topicA; topicT])
     <> [topicA; topicT].
Proof.
  split.
  - cbn [map]. apply NoDup_cons. split.
    + intros H. apply list_elem_of_singleton in H. discriminate.
    + apply NoDup_cons. split; [apply not_elem_of_nil|apply NoDup_nil_2].
  - vm_compute. discriminate.
Qed.

(** ** Preferences *)

Lemma defaults_known c : defaults !! sectionKey c = Some true.
Proof. destruct c; vm_compute; reflexivity. Qed.

Lemma defaults_only_known k b :
  defaults !! k = Some b -> b = true /\ exists c, k = sectionKey c.
Proof.
  unfold defaults, SECTIONS_CONFIG. cbn [foldl]. intros H.
  repeat (apply lookup_insert_Some in H as [[<- <-]|[_ H]];
          [split; [done|]; eexists; reflexivity|]).
  by rewrite lookup_empty in H.
Qed.

Lemma visibleSections_init_union JSON_parse_prefs saved :
  visibleSections_init JSON_parse_prefs saved
  = parsedPrefs JSON_parse_prefs saved ∪ defaults.
Proof.
  unfold visibleSections_init, parsedPrefs.
  destruct saved as [[|c s]|]; try by rewrite (left_id_L ∅ (∪)).
  destruct (JSON_parse_prefs (c :: s)); cbn [default]; [done|].
  by rewrite (left_id_L ∅ (∪)).
Qed.

(** C8, as the code has it: the loaded preferences are the blob's entries
    over the defaults. A known key the blob lacks is visible; every key of
    the blob, known or not, is kept with the blob's value; there is no
    other key. *)
Theorem C8_preferences_merge
    (JSON_parse_prefs : jsstring -> option (gmap jsstring bool))
    (saved : option jsstring) :
  (forall c, parsedPrefs JSON_parse_prefs saved !! sectionKey c = None ->
             visibleSections_init JSON_parse_prefs saved !! sectionKey c
             = Some true)
  /\ (forall k b, parsedPrefs JSON_parse_prefs saved !! k = Some b ->
                  visibleSections_init JSON_parse_prefs saved !! k = Some b)
  /\ (forall k, is_Some (visibleSections_init JSON_parse_prefs saved !! k) ->
                is_Some (parsedPrefs JSON_parse_prefs saved !! k)
                \/ exists c, k = sectionKey c).
Proof.
  rewrite visibleSections_init_union. split; [|split].
  - intros c H. rewrite lookup_union_r by done. apply defaults_known.
  - intros k b H. by apply lookup_union_Some_l.
  - intros k [b H]. apply lookup_union_Some_raw in H as [H|[_ H]]; [eauto|].
    right. by apply defaults_only_known in H as [_ ?].
Qed.

Lemma C8_preferences_merge_witness :
  visibleSections_init parseFooBlob (Some fooBlob) !! sectionKey tech = Some true
  /\ visibleSections_init parseFooBlob (Some fooBlob) !! js "foo" = Some false.
Proof.
  destruct (C8_preferences_merge parseFooBlob (Some fooBlob)) as (H1 & H2 & _).
  split.
  - apply H1. vm_compute. reflexivity.
  - apply H2. vm_compute. reflexivity.
Defined.

(** C8 as stated fails: an unknown key of the blob is a key of the loaded
    preferences. *)
Lemma C8_unknown_key_counterexample :
  (forall c, sectionKey c <> js "foo")
  /\ parsedPrefs parseFooBlob (Some fooBlob) !! js "foo" = Some false
  /\ visibleSections_init parseFooBlob (Some fooBlob) !! js "foo" = Some false.
Proof.
  split; [by intros []|]. split; vm_compute; reflexivity.
Qed.

(** ** Tasks in flight *)

Lemma await_then {A B} ai (p : Task A) (f : Result A -> Task B) n :
  await ai (Task_then p f) n
  = match await ai p n with
    | (r, n') => await ai (f r) n'
    end.
Proof.
  revert n. induction p as [r|req k IH|ms k IH|k IH]; intros n; cbn [Task_then await].
  - reflexivity.
  - apply IH.
  - apply IH.
  - apply IH.
Qed.

(** Awaited on its own, a task of the service module is the function of
    the same name. *)
Lemma await_generateContentWithRetry_task ai model params retries n :
  await ai (generateContentWithRetry_task model params retries) n
  = generateContentWithRetry ai model params retries n.
Proof.
  revert n. induction retries as [|retries IH]; intros n;
    cbn [generateContentWithRetry_task generateContentWithRetry];
    unfold tryCatch_task, tryCatch, ai_models_generateContent_task,
      ai_models_generateContent;
    cbn [Task_then await];
    destruct (outcome (ai (trace n) {| model := model; params := params |}))
      as [resp|e]; cbn [Task_then await]; try reflexivity.
  destruct (retryable e); [|reflexivity].
  unfold mbind, Task_bind, ST_bind, delay_task, delay, sleep.
  cbn [Task_then await]. apply IH.
Qed.

Lemma await_fetchTopicsByCategory_task ai prompt categoryPrefix fallbackData n :
  await ai (fetchTopicsByCategory_task prompt categoryPrefix fallbackData) n
  = fetchTopicsByCategory ai prompt categoryPrefix fallbackData n.
Proof.
  unfold fetchTopicsByCategory_task, fetchTopicsByCategory, tryCatch_task,
    tryCatch, mbind, Task_bind, ST_bind.
  rewrite !await_then, await_generateContentWithRetry_task.
  destruct (generateContentWithRetry ai _ _ 3 n) as [[resp|e] n']; reflexivity.
Qed.

Lemma await_geminiFetch_task ai c n :
  await ai (geminiFetch_task c) n = geminiFetch ai c n.
Proof. destruct c; apply await_fetchTopicsByCategory_task. Qed.

Lemma race2_eq {A B} ai (ka : Task A) wa (kb : Task B) wb h :
  race2 ai ka wa kb wb h
  = if Z.leb wa wb then
      match ka with
      | Settle (Ok x) =>
          match await ai kb {| now := wb; trace := h |} with
          | (Ok y, n') => (Ok (x, y), n')
          | (Throw e, n') => (Throw e, n')
          end
      | Settle (Throw e) => (Throw e, {| now := wa; trace := h |})
      | AwaitGenerate req k =>
          race2 ai (k (outcome (ai h req))) (wa + elapsed (ai h req)) kb wb
            (h ++ [Generate req])
      | AwaitTimer ms k => race2 ai k (wa + ms) kb wb (h ++ [Sleep ms])
      | ReadClock k => race2 ai (k wa) wa kb wb h
      end
    else
      match kb with
      | Settle (Ok y) =>
          match await ai ka {| now := wa; trace := h |} with
          | (Ok x, n') => (Ok (x, y), n')
          | (Throw e, n') => (Throw e, n')
          end
      | Settle (Throw e) => (Throw e, {| now := wb; trace := h |})
      | AwaitGenerate req k =>
          race2 ai ka wa (k (outcome (ai h req))) (wb + elapsed (ai h req))
            (h ++ [Generate req])
      | AwaitTimer ms k => race2 ai ka wa k (wb + ms) (h ++ [Sleep ms])
      | ReadClock k => race2 ai ka wa (k wb) wb h
      end.
Proof. destruct ka, kb; reflexivity. Qed.

Lemma race3_eq {A B C} ai (ka : Task A) wa (kb : Task B) wb (kc : Task C) wc h :
  race3 ai ka wa kb wb kc wc h
  = if Z.leb wa wb && Z.leb wa wc then
      match ka with
      | Settle (Ok x) =>
          match race2 ai kb wb kc wc h with
          | (Ok (y, z), n') => (Ok (x, y, z), n')
          | (Throw e, n') => (Throw e, n')
          end
      | Settle (Throw e) => (Throw e, {| now := wa; trace := h |})
      | AwaitGenerate req k =>
          race3 ai (k (outcome (ai h req))) (wa + elapsed (ai h req)) kb wb kc wc
            (h ++ [Generate req])
      | AwaitTimer ms k => race3 ai k (wa + ms) kb wb kc wc (h ++ [Sleep ms])
      | ReadClock k => race3 ai (k wa) wa kb wb kc wc h
      end
    else if Z.leb wb wc then
      match kb with
      | Settle (Ok y) =>
          match race2 ai ka wa kc wc h with
          | (Ok (x, z), n') => (Ok (x, y, z), n')
          | (Throw e, n') => (Throw e, n')
          end
      | Settle (Throw e) => (Throw e, {| now := wb; trace := h |})
      | AwaitGenerate req k =>
          race3 ai ka wa (k (outcome (ai h req))) (wb + elapsed (ai h req)) kc wc
            (h ++ [Generate req])
      | AwaitTimer ms k => race3 ai ka wa k (wb + ms) kc wc (h ++ [Sleep ms])
      | ReadClock k => race3 ai ka wa (k wb) wb kc wc h
      end
    else
      match kc with
      | Settle (Ok z) =>
          match race2 ai ka wa kb wb h with
          | (Ok (x, y), n') => (Ok (x, y, z), n')
          | (Throw e, n') => (Throw e, n')
          end
      | Settle (Throw e) => (Throw e, {| now := wc; trace := h |})
      | AwaitGenerate req k =>
          race3 ai ka wa kb wb (k (outcome (ai h req))) (wc + elapsed (ai h req))
            (h ++ [Generate req])
      | AwaitTimer ms k => race3 ai ka wa kb wb k (wc + ms) (h ++ [Sleep ms])
      | ReadClock k => race3 ai ka wa kb wb (k wc) wc h
      end.
Proof. destruct ka, kb, kc; reflexivity. Qed.

(** A task awaited alone makes one of its runs. *)
Lemma await_runs {A} ai (p : Task A) n :
  exists evs,
    Runs ai p evs (await ai p n).1
    /\ trace (await ai p n).2 = trace n ++ evs.
Proof.
  revert n. induction p as [r|req k IH|ms k IH|k IH]; intros n; cbn [await].
  - exists []. split; [constructor|by rewrite app_nil_r].
  - destruct (IH (outcome (ai (trace n) req))
                {| now := now n + elapsed (ai (trace n) req);
                   trace := trace n ++ [Generate req] |}) as (evs & Hr & Ht).
    exists (Generate req :: evs). split; [by econstructor|].
    rewrite Ht. cbn [trace]. by rewrite <- app_assoc.
  - destruct (IH {| now := now n + ms; trace := trace n ++ [Sleep ms] |})
      as (evs & Hr & Ht).
    exists (Sleep ms :: evs). split; [by constructor|].
    rewrite Ht. cbn [trace]. by rewrite <- app_assoc.
  - destruct (IH (now n) n) as (evs & Hr & Ht).
    exists evs. split; [by econstructor|done].
Qed.

Lemma Interleaved_nil_l {A} (l : list A) : Interleaved [] l l.
Proof. induction l; by constructor. Qed.

Lemma Interleaved_nil_r {A} (l : list A) : Interleaved l [] l.
Proof. induction l; by constructor. Qed.

Lemma Interleaved3_skip_1 {A} (l2 l3 l : list A) :
  Interleaved l2 l3 l -> Interleaved3 [] l2 l3 l.
Proof. induction 1; by constructor. Qed.

Lemma Interleaved3_skip_2 {A} (l1 l3 l : list A) :
  Interleaved l1 l3 l -> Interleaved3 l1 [] l3 l.
Proof. induction 1; by constructor. Qed.

Lemma Interleaved3_skip_3 {A} (l1 l2 l : list A) :
  Interleaved l1 l2 l -> Interleaved3 l1 l2 [] l.
Proof. induction 1; by constructor. Qed.

Lemma PairRuns_step_l ai {A B} (ka ka' : Task A) (kb : Task B) h ev out :
  (forall evs r, Runs ai ka' evs r -> Runs ai ka (ev :: evs) r) ->
  PairRuns ai ka' kb (h ++ [ev]) out -> PairRuns ai ka kb h out.
Proof.
  intros Hs (ea & eb & m & Hi & Ht & Hm).
  exists (ev :: ea), eb, (ev :: m). split; [by constructor|].
  split; [by rewrite Ht, <- app_assoc|].
  destruct out.1 as [[x y]|e].
  - destruct Hm. split; [by apply Hs|done].
  - destruct Hm as [[ea' Hm]|Hm]; [left; exists (ev :: ea'); by apply Hs|by right].
Qed.

Lemma PairRuns_step_r ai {A B} (ka : Task A) (kb kb' : Task B) h ev out :
  (forall evs r, Runs ai kb' evs r -> Runs ai kb (ev :: evs) r) ->
  PairRuns ai ka kb' (h ++ [ev]) out -> PairRuns ai ka kb h out.
Proof.
  intros Hs (ea & eb & m & Hi & Ht & Hm).
  exists ea, (ev :: eb), (ev :: m). split; [by constructor|].
  split; [by rewrite Ht, <- app_assoc|].
  destruct out.1 as [[x y]|e].
  - destruct Hm. split; [done|by apply Hs].
  - destruct Hm as [Hm|[eb' Hm]]; [by left|right; exists (ev :: eb'); by apply Hs].
Qed.

Lemma PairRuns_clock_l ai {A B} (k : Z -> Task A) t (kb : Task B) h out :
  PairRuns ai (k t) kb h out -> PairRuns ai (ReadClock k) kb h out.
Proof.
  intros (ea & eb & m & Hi & Ht & Hm). exists ea, eb, m.
  do 2 (split; [done|]). destruct out.1 as [[x y]|e].
  - destruct Hm. split; [by econstructor|done].
  - destruct Hm as [[ea' Hm]|Hm]; [left; exists ea'; by econstructor|by right].
Qed.

Lemma PairRuns_clock_r ai {A B} (ka : Task A) (k : Z -> Task B) t h out :
  PairRuns ai ka (k t) h out -> PairRuns ai ka (ReadClock k) h out.
Proof.
  intros (ea & eb & m & Hi & Ht & Hm). exists ea, eb, m.
  do 2 (split; [done|]). destruct out.1 as [[x y]|e].
  - destruct Hm. split; [done|by econstructor].
  - destruct Hm as [Hm|[eb' Hm]]; [by left|right; exists eb'; by econstructor].
Qed.

Lemma PairRuns_resolved_l ai {A B} (x : A) (kb : Task B) wb h :
  PairRuns ai (Settle (Ok x)) kb h
    match await ai kb {| now := wb; trace := h |} with
    | (Ok y, n') => (Ok (x, y), n')
    | (Throw e, n') => (Throw e, n')
    end.
Proof.
  destruct (await_runs ai kb {| now := wb; trace := h |}) as (evs & Hr & Ht).
  destruct (await ai kb _) as [[y|e] n']; cbn [fst snd trace] in *;
    exists [], evs, evs; (split; [apply Interleaved_nil_l|]); (split; [done|]);
    cbn [fst].
  - split; [constructor|done].
  - right. by exists evs.
Qed.

Lemma PairRuns_resolved_r ai {A B} (ka : Task A) (y : B) wa h :
  PairRuns ai ka (Settle (Ok y)) h
    match await ai ka {| now := wa; trace := h |} with
    | (Ok x, n') => (Ok (x, y), n')
    | (Throw e, n') => (Throw e, n')
    end.
Proof.
  destruct (await_runs ai ka {| now := wa; trace := h |}) as (evs & Hr & Ht).
  destruct (await ai ka _) as [[x|e] n']; cbn [fst snd trace] in *;
    exists evs, [], evs; (split; [apply Interleaved_nil_r|]); (split; [done|]);
    cbn [fst].
  - split; [done|constructor].
  - left. by exists evs.
Qed.

Lemma PairRuns_rejected_l ai {A B} e (kb : Task B) w h :
  PairRuns ai (Settle (Throw e) : Task A) kb h
    (Throw e, {| now := w; trace := h |}).
Proof.
  exists [], [], []. split; [constructor|]. split; [by rewrite app_nil_r|].
  left. exists []. constructor.
Qed.

Lemma PairRuns_rejected_r ai {A B} (ka : Task A) e w h :
  PairRuns ai ka (Settle (Throw e) : Task B) h
    (Throw e, {| now := w; trace := h |}).
Proof.
  exists [], [], []. split; [constructor|]. split; [by rewrite app_nil_r|].
  right. exists []. constructor.
Qed.

Lemma race2_runs ai {A B} (ka : Task A) wa (kb : Task B) wb h :
  PairRuns ai ka kb h (race2 ai ka wa kb wb h).
Proof.
  revert wa kb wb h.
  induction ka as [ra|reqa ka IHa|msa ka IHa|ka IHa]; intros wa kb;
    induction kb as [rb|reqb kb IHb|msb kb IHb|kb IHb]; intros wb h;
    rewrite race2_eq; destruct (Z.leb wa wb);
    try (destruct ra as [x|e];
         [apply PairRuns_resolved_l|apply PairRuns_rejected_l]);
    try (destruct rb as [y|e];
         [apply PairRuns_resolved_r|apply PairRuns_rejected_r]);
    try (eapply PairRuns_step_l; [|apply IHa]; intros evs r Hr;
         by econstructor);
    try (eapply PairRuns_step_r; [|apply IHb]; intros evs r Hr;
         by econstructor);
    try (eapply PairRuns_clock_l; apply IHa);
    try (eapply PairRuns_clock_r; apply IHb).
Qed.

Lemma TripleRuns_step_1 ai {A B C} (ka ka' : Task A) (kb : Task B)
    (kc : Task C) h ev out :
  (forall evs r, Runs ai ka' evs r -> Runs ai ka (ev :: evs) r) ->
  TripleRuns ai ka' kb kc (h ++ [ev]) out -> TripleRuns ai ka kb kc h out.
Proof.
  intros Hs (ea & eb & ec & m & Hi & Ht & Hm).
  exists (ev :: ea), eb, ec, (ev :: m). split; [by constructor|].
  split; [by rewrite Ht, <- app_assoc|].
  destruct out.1 as [[[x y] z]|e].
  - destruct Hm as (? & ? & ?). split; [by apply Hs|done].
  - destruct Hm as [[ea' Hm]|Hm]; [left; exists (ev :: ea'); by apply Hs|by right].
Qed.

Lemma TripleRuns_step_2 ai {A B C} (ka : Task A) (kb kb' : Task B)
    (kc : Task C) h ev out :
  (forall evs r, Runs ai kb' evs r -> Runs ai kb (ev :: evs) r) ->
  TripleRuns ai ka kb' kc (h ++ [ev]) out -> TripleRuns ai ka kb kc h out.
Proof.
  intros Hs (ea & eb & ec & m & Hi & Ht & Hm).
  exists ea, (ev :: eb), ec, (ev :: m). split; [by constructor|].
  split; [by rewrite Ht, <- app_assoc|].
  destruct out.1 as [[[x y] z]|e].
  - destruct Hm as (? & ? & ?). split; [done|]. split; [by apply Hs|done].
  - destruct Hm as [Hm|[[eb' Hm]|Hm]];
      [by left|right; left; exists (ev :: eb'); by apply Hs|by right; right].
Qed.

Lemma TripleRuns_step_3 ai {A B C} (ka : Task A) (kb : Task B)
    (kc kc' : Task C) h ev out :
  (forall evs r, Runs ai kc' evs r -> Runs ai kc (ev :: evs) r) ->
  TripleRuns ai ka kb kc' (h ++ [ev]) out -> TripleRuns ai ka kb kc h out.
Proof.
  intros Hs (ea & eb & ec & m & Hi & Ht & Hm).
  exists ea, eb, (ev :: ec), (ev :: m). split; [by constructor|].
  split; [by rewrite Ht, <- app_assoc|].
  destruct out.1 as [[[x y] z]|e].
  - destruct Hm as (? & ? & ?). do 2 (split; [done|]). by apply Hs.
  - destruct Hm as [Hm|[Hm|[ec' Hm]]];
      [by left|by right; left|right; right; exists (ev :: ec'); by apply Hs].
Qed.

Lemma TripleRuns_clock_1 ai {A B C} (k : Z -> Task A) t (kb : Task B)
    (kc : Task C) h out :
  TripleRuns ai (k t) kb kc h out -> TripleRuns ai (ReadClock k) kb kc h out.
Proof.
  intros (ea & eb & ec & m & Hi & Ht & Hm). exists ea, eb, ec, m.
  do 2 (split; [done|]). destruct out.1 as [[[x y] z]|e].
  - destruct Hm as (? & ? & ?). split; [by econstructor|done].
  - destruct Hm as [[ea' Hm]|Hm]; [left; exists ea'; by econstructor|by right].
Qed.

Lemma TripleRuns_clock_2 ai {A B C} (ka : Task A) (k : Z -> Task B) t
    (kc : Task C) h out :
  TripleRuns ai ka (k t) kc h out -> TripleRuns ai ka (ReadClock k) kc h out.
Proof.
  intros (ea & eb & ec & m & Hi & Ht & Hm). exists ea, eb, ec, m.
  do 2 (split; [done|]). destruct out.1 as [[[x y] z]|e].
  - destruct Hm as (? & ? & ?). split; [done|]. split; [by econstructor|done].
  - destruct Hm as [Hm|[[eb' Hm]|Hm]];
      [by left|right; left; exists eb'; by econstructor|by right; right].
Qed.

Lemma TripleRuns_clock_3 ai {A B C} (ka : Task A) (kb : Task B)
    (k : Z -> Task C) t h out :
  TripleRuns ai ka kb (k t) h out -> TripleRuns ai ka kb (ReadClock k) h out.
Proof.
  intros (ea & eb & ec & m & Hi & Ht & Hm). exists ea, eb, ec, m.
  do 2 (split; [done|]). destruct out.1 as [[[x y] z]|e].
  - destruct Hm as (? & ? & ?). do 2 (split; [done|]). by econstructor.
  - destruct Hm as [Hm|[Hm|[ec' Hm]]];
      [by left|by right; left|right; right; exists ec'; by econstructor].
Qed.

Lemma TripleRuns_resolved_1 ai {A B C} (x : A) (kb : Task B) (kc : Task C)
    h out :
  PairRuns ai kb kc h out ->
  TripleRuns ai (Settle (Ok x)) kb kc h
    match out with
    | (Ok (y, z), n') => (Ok (x, y, z), n')
    | (Throw e, n') => (Throw e, n')
    end.
Proof.
  intros (eb & ec & m & Hi & Ht & Hm).
  destruct out as [[[y z]|e] n']; cbn [fst snd] in *;
    exists [], eb, ec, m; (split; [by apply Interleaved3_skip_1|]);
    (split; [done|]); cbn [fst].
  - destruct Hm. split; [constructor|done].
  - by right.
Qed.

Lemma TripleRuns_resolved_2 ai {A B C} (ka : Task A) (y : B) (kc : Task C)
    h out :
  PairRuns ai ka kc h out ->
  TripleRuns ai ka (Settle (Ok y)) kc h
    match out with
    | (Ok (x, z), n') => (Ok (x, y, z), n')
    | (Throw e, n') => (Throw e, n')
    end.
Proof.
  intros (ea & ec & m & Hi & Ht & Hm).
  destruct out as [[[x z]|e] n']; cbn [fst snd] in *;
    exists ea, [], ec, m; (split; [by apply Interleaved3_skip_2|]);
    (split; [done|]); cbn [fst].
  - destruct Hm. split; [done|]. split; [constructor|done].
  - destruct Hm as [Hm|Hm]; [by left|by right; right].
Qed.

Lemma TripleRuns_resolved_3 ai {A B C} (ka : Task A) (kb : Task B) (z : C)
    h out :
  PairRuns ai ka kb h out ->
  TripleRuns ai ka kb (Settle (Ok z)) h
    match out with
    | (Ok (x, y), n') => (Ok (x, y, z), n')
    | (Throw e, n') => (Throw e, n')
    end.
Proof.
  intros (ea & eb & m & Hi & Ht & Hm).
  destruct out as [[[x y]|e] n']; cbn [fst snd] in *;
    exists ea, eb, [], m; (split; [by apply Interleaved3_skip_3|]);
    (split; [done|]); cbn [fst].
  - destruct Hm. do 2 (split; [done|]). constructor.
  - destruct Hm as [Hm|Hm]; [by left|by right; left].
Qed.

Lemma TripleRuns_rejected ai {A B C} (ka : Task A) (kb : Task B) (kc : Task C)
    e w h :
  (ka = Settle (Throw e) \/ kb = Settle (Throw e) \/ kc = Settle (Throw e)) ->
  TripleRuns ai ka kb kc h (Throw e, {| now := w; trace := h |}).
Proof.
  intros H. exists [], [], [], []. split; [constructor|].
  split; [by rewrite app_nil_r|]. cbn [fst].
  destruct H as [-> | [-> | ->]];
    [left|right; left|right; right]; exists []; constructor.
Qed.

Lemma race3_runs ai {A B C} (ka : Task A) wa (kb : Task B) wb (kc : Task C) wc h :
  TripleRuns ai ka kb kc h (race3 ai ka wa kb wb kc wc h).
Proof.
  revert wa kb wb kc wc h.
  induction ka as [ra|reqa ka IHa|msa ka IHa|ka IHa]; intros wa kb;
    induction kb as [rb|reqb kb IHb|msb kb IHb|kb IHb]; intros wb kc;
    induction kc as [rc|reqc kc IHc|msc kc IHc|kc IHc]; intros wc h;
    rewrite race3_eq;
    (destruct (Z.leb wa wb && Z.leb wa wc); [|destruct (Z.leb wb wc)]).
  all: try (destruct ra as [x|e];
            [apply TripleRuns_resolved_1, race2_runs
            |apply TripleRuns_rejected; by left]).
  all: try (destruct rb as [y|e];
            [apply TripleRuns_resolved_2, race2_runs
            |apply TripleRuns_rejected; by right; left]).
  all: try (destruct rc as [z|e];
            [apply TripleRuns_resolved_3, race2_runs
            |apply TripleRuns_rejected; by right; right]).
  all: try (eapply TripleRuns_step_1; [|apply IHa]; intros evs r Hr;
            by econstructor).
  all: try (eapply TripleRuns_step_2; [|apply IHb]; intros evs r Hr;
            by econstructor).
  all: try (eapply TripleRuns_step_3; [|apply IHc]; intros evs r Hr;
            by econstructor).
  all: try (eapply TripleRuns_clock_1; apply IHa).
  all: try (eapply TripleRuns_clock_2; apply IHb).
  all: try (eapply TripleRuns_clock_3; apply IHc).
Qed.

Lemma Runs_then ai {A B} (p : Task A) (f : Result A -> Task B) evs r :
  Runs ai (Task_then p f) evs r ->
  exists e1 e2 r1,
    Runs ai p e1 r1 /\ Runs ai (f r1) e2 r /\ evs = e1 ++ e2.
Proof.
  revert evs. induction p as [r0|req k IH|ms k IH|k IH]; intros evs;
    cbn [Task_then]; intros H.
  - exists [], evs, r0. split; [constructor|done].
  - inversion H as [|req' k' h evs' r' H'| |]; subst.
    destruct (IH _ _ H') as (e1 & e2 & r1 & H1 & H2 & ->).
    exists (Generate req :: e1), e2, r1. split; [by econstructor|done].
  - inversion H as [| |ms' k' evs' r' H'|]; subst.
    destruct (IH _ H') as (e1 & e2 & r1 & H1 & H2 & ->).
    exists (Sleep ms :: e1), e2, r1. split; [by constructor|done].
  - inversion H as [| | |k' t evs' r' H']; subst.
    destruct (IH _ _ H') as (e1 & e2 & r1 & H1 & H2 & ->).
    exists e1, e2, r1. split; [by econstructor|done].
Qed.

(** Every run of the retry wrapper is a first request and at most
    [retries] retries, each after its backoff sleep. *)
Lemma generateContentWithRetry_task_runs ai model params retries evs r :
  Runs ai (generateContentWithRetry_task model params retries) evs r ->
  exists k,
    (k <= retries)%nat
    /\ evs = Generate {| model := model; params := params |}
               :: retryEvents {| model := model; params := params |} retries k
    /\ ((forall h req, exists e, outcome (ai h req) = inr e) ->
        exists e, r = Throw e).
Proof.
  revert evs. induction retries as [|retries IH]; intros evs;
    cbn [generateContentWithRetry_task];
    unfold tryCatch_task, ai_models_generateContent_task; cbn [Task_then];
    intros H; inversion H as [|req' k' h evs' r' H'| |]; subst; clear H;
    destruct (outcome (ai h _)) as [resp|e] eqn:Ho; cbn [Task_then] in H'.
  - inversion H'; subst. exists 0%nat. split; [lia|]. split; [done|].
    intros Hall. destruct (Hall h {| model := model; params := params |}).
    congruence.
  - inversion H'; subst. exists 0%nat. split; [lia|]. split; [done|]. eauto.
  - inversion H'; subst. exists 0%nat. split; [lia|]. split; [done|].
    intros Hall. destruct (Hall h {| model := model; params := params |}).
    congruence.
  - destruct (retryable e).
    + unfold mbind, Task_bind, delay_task in H'. cbn [Task_then] in H'.
      inversion H' as [| |ms' k'' evs'' r'' H''|]; subst.
      destruct (IH _ H'') as (k & Hk & -> & Hall).
      exists (S k). split; [lia|]. split; [reflexivity|exact Hall].
    + inversion H'; subst. exists 0%nat. split; [lia|]. split; [done|]. eauto.
Qed.

(** Every run of a category fetch resolves: with its fallback table or
    with the parse of a response, after at most three retries. *)
Lemma fetchTopicsByCategory_task_runs ai prompt categoryPrefix fallbackData
    evs r :
  Runs ai (fetchTopicsByCategory_task prompt categoryPrefix fallbackData) evs r ->
  exists k res,
    (k <= 3)%nat
    /\ evs = attempts (categoryRequest prompt) k
    /\ r = Ok res
    /\ (res = fallbackData
        \/ exists resp t, res = parseTopics categoryPrefix t resp fallbackData)
    /\ ((forall h req, exists e, outcome (ai h req) = inr e) ->
        res = fallbackData).
Proof.
  unfold fetchTopicsByCategory_task, tryCatch_task, mbind, Task_bind.
  intros H.
  destruct (Runs_then _ _ _ _ _ H) as (e1 & e2 & r1 & H1 & H2 & ->).
  destruct (Runs_then _ _ _ _ _ H1) as (e3 & e4 & r3 & H3 & H4 & ->).
  destruct (generateContentWithRetry_task_runs _ _ _ _ _ _ H3)
    as (k & Hk & -> & Hall).
  exists k. destruct r3 as [resp|e].
  - unfold Date_now_task, mret, Task_ret in H4. cbn [Task_then] in H4.
    inversion H4 as [| | |k' t evs' r' H']; subst.
    inversion H'; subst. inversion H2; subst.
    exists (parseTopics categoryPrefix t resp fallbackData).
    split; [done|]. split; [by rewrite !app_nil_r|]. split; [done|].
    split; [right; eauto|]. intros Ha. by destruct (Hall Ha).
  - inversion H4; subst. unfold mret, Task_ret in H2. inversion H2; subst.
    exists fallbackData. split; [done|]. split; [by rewrite !app_nil_r|].
    split; [done|]. split; [by left|done].
Qed.

Lemma geminiFetch_task_unfold c :
  geminiFetch_task c
  = fetchTopicsByCategory_task (promptOf c) (prefixOf c) (fallbackOf c).
Proof. by destruct c. Qed.

Lemma geminiFetch_task_runs ai c evs r :
  Runs ai (geminiFetch_task c) evs r ->
  exists k res,
    (k <= 3)%nat
    /\ evs = attempts (categoryRequest (promptOf c)) k
    /\ r = Ok res
    /\ (res = fallbackOf c
        \/ exists resp t, res = parseTopics (prefixOf c) t resp (fallbackOf c))
    /\ ((forall h req, exists e, outcome (ai h req) = inr e) ->
        res = fallbackOf c).
Proof. rewrite geminiFetch_task_unfold. apply fetchTopicsByCategory_task_runs. Qed.

(** A category fetch starts by sending its request. *)
Lemma geminiFetch_task_starts c :
  exists K, geminiFetch_task c = AwaitGenerate (categoryRequest (promptOf c)) K.
Proof. rewrite geminiFetch_task_unfold. eexists. reflexivity. Qed.

(** Two category fetches started together always resolve: both requests
    are sent first, in array order, and each fetch makes its own run,
    whatever the other does. *)
Lemma Promise_all2_gemini ai a b n :
  exists x y n' ka kb rest,
    Promise_all2 ai (geminiFetch_task a) (geminiFetch_task b) n = (Ok (x, y), n')
    /\ trace n'
       = trace n ++ Generate (categoryRequest (promptOf a))
                 :: Generate (categoryRequest (promptOf b)) :: rest
    /\ Interleaved (retryEvents (categoryRequest (promptOf a)) 3 ka)
                   (retryEvents (categoryRequest (promptOf b)) 3 kb) rest
    /\ (ka <= 3)%nat /\ (kb <= 3)%nat
    /\ Runs ai (geminiFetch_task a) (attempts (categoryRequest (promptOf a)) ka)
         (Ok x)
    /\ Runs ai (geminiFetch_task b) (attempts (categoryRequest (promptOf b)) kb)
         (Ok y).
Proof.
  destruct (geminiFetch_task_starts a) as [Ka Ea].
  destruct (geminiFetch_task_starts b) as [Kb Eb].
  unfold Promise_all2. rewrite Ea, Eb. cbn [start now trace].
  rewrite <- Ea, <- Eb.
  match goal with |- context [race2 ai ?ka ?wa ?kb ?wb ?h] =>
    destruct (race2_runs ai ka wa kb wb h) as (ea & eb & m & Hi & Ht & Hm);
    destruct (race2 ai ka wa kb wb h) as [[[x y]|e] n']
  end; cbn [fst snd] in *.
  - destruct Hm as [Ha Hb].
    apply Runs_generate in Ha. apply Runs_generate in Hb.
    rewrite <- Ea in Ha. rewrite <- Eb in Hb.
    destruct (geminiFetch_task_runs _ _ _ _ Ha) as (ka & ? & Hka & Ea' & _).
    destruct (geminiFetch_task_runs _ _ _ _ Hb) as (kb & ? & Hkb & Eb' & _).
    unfold attempts in Ea', Eb'. injection Ea' as ->. injection Eb' as ->.
    exists x, y, n', ka, kb, m. split; [done|].
    split; [by rewrite Ht, <- !app_assoc|]. done.
  - exfalso. destruct Hm as [[ev Hm]|[ev Hm]]; apply Runs_generate in Hm.
    + rewrite <- Ea in Hm.
      by destruct (geminiFetch_task_runs _ _ _ _ Hm) as (? & ? & _ & _ & ? & _).
    + rewrite <- Eb in Hm.
      by destruct (geminiFetch_task_runs _ _ _ _ Hm) as (? & ? & _ & _ & ? & _).
Qed.

Lemma Promise_all3_gemini ai a b c n :
  exists x y z n' ka kb kc rest,
    Promise_all3 ai (geminiFetch_task a) (geminiFetch_task b)
      (geminiFetch_task c) n = (Ok (x, y, z), n')
    /\ trace n'
       = trace n ++ Generate (categoryRequest (promptOf a))
                 :: Generate (categoryRequest (promptOf b))
                 :: Generate (categoryRequest (promptOf c)) :: rest
    /\ Interleaved3 (retryEvents (categoryRequest (promptOf a)) 3 ka)
                    (retryEvents (categoryRequest (promptOf b)) 3 kb)
                    (retryEvents (categoryRequest (promptOf c)) 3 kc) rest
    /\ (ka <= 3)%nat /\ (kb <= 3)%nat /\ (kc <= 3)%nat
    /\ Runs ai (geminiFetch_task a) (attempts (categoryRequest (promptOf a)) ka)
         (Ok x)
    /\ Runs ai (geminiFetch_task b) (attempts (categoryRequest (promptOf b)) kb)
         (Ok y)
    /\ Runs ai (geminiFetch_task c) (attempts (categoryRequest (promptOf c)) kc)
         (Ok z).
Proof.
  destruct (geminiFetch_task_starts a) as [Ka Ea].
  destruct (geminiFetch_task_starts b) as [Kb Eb].
  destruct (geminiFetch_task_starts c) as [Kc Ec].
  unfold Promise_all3. rewrite Ea, Eb, Ec. cbn [start now trace].
  rewrite <- Ea, <- Eb, <- Ec.
  match goal with |- context [race3 ai ?ka ?wa ?kb ?wb ?kc ?wc ?h] =>
    destruct (race3_runs ai ka wa kb wb kc wc h)
      as (ea & eb & ec & m & Hi & Ht & Hm);
    destruct (race3 ai ka wa kb wb kc wc h) as [[[[x y] z]|e] n']
  end; cbn [fst snd] in *.
  - destruct Hm as (Ha & Hb & Hc).
    apply Runs_generate in Ha. apply Runs_generate in Hb.
    apply Runs_generate in Hc.
    rewrite <- Ea in Ha. rewrite <- Eb in Hb. rewrite <- Ec in Hc.
    destruct (geminiFetch_task_runs _ _ _ _ Ha) as (ka & ? & Hka & Ea' & _).
    destruct (geminiFetch_task_runs _ _ _ _ Hb) as (kb & ? & Hkb & Eb' & _).
    destruct (geminiFetch_task_runs _ _ _ _ Hc) as (kc & ? & Hkc & Ec' & _).
    unfold attempts in Ea', Eb', Ec'.
    injection Ea' as ->. injection Eb' as ->. injection Ec' as ->.
    exists x, y, z, n', ka, kb, kc, m. split; [done|].
    split; [by rewrite Ht, <- !app_assoc|]. done.
  - exfalso. destruct Hm as [[ev Hm]|[[ev Hm]|[ev Hm]]];
      apply Runs_generate in Hm.
    + rewrite <- Ea in Hm.
      by destruct (geminiFetch_task_runs _ _ _ _ Hm) as (? & ? & _ & _ & ? & _).
    + rewrite <- Eb in Hm.
      by destruct (geminiFetch_task_runs _ _ _ _ Hm) as (? & ? & _ & _ & ? & _).
    + rewrite <- Ec in Hm.
      by destruct (geminiFetch_task_runs _ _ _ _ Hm) as (? & ? & _ & _ & ? & _).
Qed.

(** ** The fetch cycle *)

Ltac unfold_batches :=
  unfold fetchBatches, setNewsTopics, setTechTopics, setMusicTopics,
    setBillboardTopics, setHipHopTopics, setMemeTopics, setGamingTopics,
    setLandscapeTopics, setWildlifeTopics, setTopics, modifyApp, wait, sleep,
    liftNet, mbind, mret, ST_bind, ST_ret.

Ltac reduce_state :=
  cbn [net localStorage storageAccepts app now trace sectionData loading
       refreshing error lastUpdated fst snd].

Ltac unfold_batches_in H :=
  unfold fetchBatches, setNewsTopics, setTechTopics, setMusicTopics,
    setBillboardTopics, setHipHopTopics, setMemeTopics, setGamingTopics,
    setLandscapeTopics, setWildlifeTopics, setTopics, modifyApp, wait, sleep,
    liftNet, mbind, mret, ST_bind, ST_ret in H.

Ltac reduce_state_in H :=
  cbn [net localStorage storageAccepts app now trace sectionData loading
       refreshing error lastUpdated fst snd] in H.

Section GenericFetchers.

Variable ai : Service.
Variable fetch : SectionId -> Task (list Topic).

(** When the four groups resolve, the batches complete. *)
Lemma fetchBatches_ok w r1 r2 n1 r3 r4 r5 n2 r6 r7 n3 r8 r9 n4 :
  Promise_all2 ai (fetch news) (fetch tech) (net w) = (Ok (r1, r2), n1) ->
  Promise_all3 ai (fetch music) (fetch billboard) (fetch hiphop) (pause n1)
  = (Ok (r3, r4, r5), n2) ->
  Promise_all2 ai (fetch memes) (fetch gaming) (pause n2) = (Ok (r6, r7), n3) ->
  Promise_all2 ai (fetch landscapes) (fetch wildlife) (pause n3)
  = (Ok (r8, r9), n4) ->
  exists w',
    fetchBatches ai fetch w = (Ok (resultsOf r1 r2 r3 r4 r5 r6 r7 r8 r9), w')
    /\ net w' = n4
    /\ localStorage w' = localStorage w
    /\ storageAccepts w' = storageAccepts w
    /\ (forall c, sectionData (app w') c = resultsOf r1 r2 r3 r4 r5 r6 r7 r8 r9 c)
    /\ loading (app w') = loading (app w)
    /\ refreshing (app w') = refreshing (app w)
    /\ error (app w') = error (app w)
    /\ lastUpdated (app w') = lastUpdated (app w).
Proof.
  intros H1 H2 H3 H4. unfold pause in *.
  unfold_batches.
  rewrite H1. reduce_state. rewrite H2. reduce_state.
  rewrite H3. reduce_state. rewrite H4. reduce_state.
  eexists. split; [reflexivity|]. reduce_state.
  do 3 (split; [reflexivity|]).
  split; [by intros []|]. by repeat split.
Qed.

Ltac destruct_groups E :=
  repeat match type of E with
         | context [Promise_all2 ai ?a ?b ?n] =>
             destruct (Promise_all2 ai a b n) as [[[? ?]|?] ?];
             reduce_state_in E
         | context [Promise_all3 ai ?a ?b ?c ?n] =>
             destruct (Promise_all3 ai a b c n) as [[[[? ?] ?]|?] ?];
             reduce_state_in E
         end.

Ltac stage g :=
  exists g; split; [lia|];
    intros [] Hc; cbn in Hc; try lia; reflexivity.

(** What the batches leave behind, whatever the fetchers do: they write no
    storage and no state but the sections'. When they complete, every
    section holds its result. Were a group to reject, it would be some
    group [g], and the sections of [g] and of the later groups would hold
    what they held. *)
Lemma fetchBatches_stages w r w1 :
  fetchBatches ai fetch w = (r, w1) ->
  localStorage w1 = localStorage w
  /\ storageAccepts w1 = storageAccepts w
  /\ loading (app w1) = loading (app w)
  /\ refreshing (app w1) = refreshing (app w)
  /\ error (app w1) = error (app w)
  /\ lastUpdated (app w1) = lastUpdated (app w)
  /\ match r with
     | Ok d => forall c, sectionData (app w1) c = d c
     | Throw _ =>
         exists g, (g <= 3)%nat
           /\ (forall c, (g <= groupOf c)%nat ->
                         sectionData (app w1) c = sectionData (app w) c)
     end.
Proof.
  intros E. unfold_batches_in E.
  destruct_groups E; injection E as <- <-; reduce_state;
    (do 6 (split; [reflexivity|]));
    first [ by intros [] | stage 0%nat | stage 1%nat | stage 2%nat | stage 3%nat ].
Qed.

End GenericFetchers.

(** With the service module's fetchers the four batches always complete.
    The trace is the four groups, a pause of 1.5 s before each but the
    first; in a group every section's first request is sent before
    anything is awaited, and every section's fetch makes its own run and
    gives that section's state. *)
Lemma fetchBatches_gemini ai w :
  exists (k : SectionId -> nat) (d : SectionId -> list Topic) (w' : World)
         (g1 g2 g3 g4 : list Event),
    fetchBatches ai geminiFetch_task w = (Ok d, w')
    /\ (forall c, (k c <= 3)%nat)
    /\ trace (net w')
       = trace (net w)
         ++ g1 ++ Sleep 1500 :: g2 ++ Sleep 1500 :: g3 ++ Sleep 1500 :: g4
    /\ groupOfTwo k news tech g1
    /\ groupOfThree k music billboard hiphop g2
    /\ groupOfTwo k memes gaming g3
    /\ groupOfTwo k landscapes wildlife g4
    /\ (forall c, Runs ai (geminiFetch_task c)
                    (attempts (categoryRequest (promptOf c)) (k c)) (Ok (d c)))
    /\ localStorage w' = localStorage w
    /\ storageAccepts w' = storageAccepts w
    /\ (forall c, sectionData (app w') c = d c)
    /\ loading (app w') = loading (app w)
    /\ refreshing (app w') = refreshing (app w)
    /\ error (app w') = error (app w)
    /\ lastUpdated (app w') = lastUpdated (app w).
Proof.
  destruct (Promise_all2_gemini ai news tech (net w))
    as (r1 & r2 & n1 & k1 & k2 & m1 & H1 & T1 & I1 & K1 & K2 & R1 & R2).
  destruct (Promise_all3_gemini ai music billboard hiphop (pause n1))
    as (r3 & r4 & r5 & n2 & k3 & k4 & k5 & m2 & H2 & T2 & I2 & K3 & K4 & K5
        & R3 & R4 & R5).
  destruct (Promise_all2_gemini ai memes gaming (pause n2))
    as (r6 & r7 & n3 & k6 & k7 & m3 & H3 & T3 & I3 & K6 & K7 & R6 & R7).
  destruct (Promise_all2_gemini ai landscapes wildlife (pause n3))
    as (r8 & r9 & n4 & k8 & k9 & m4 & H4 & T4 & I4 & K8 & K9 & R8 & R9).
  destruct (fetchBatches_ok ai geminiFetch_task w _ _ _ _ _ _ _ _ _ _ _ _ _
              H1 H2 H3 H4)
    as (w' & E & Hn & Hs & Ha & Hd & Hl & Hr & He & Hu).
  exists (fun c => match c with
                   | news => k1 | tech => k2 | music => k3 | billboard => k4
                   | hiphop => k5 | memes => k6 | gaming => k7
                   | landscapes => k8 | wildlife => k9
                   end), (resultsOf r1 r2 r3 r4 r5 r6 r7 r8 r9), w'.
  exists (Generate (categoryRequest (promptOf news))
            :: Generate (categoryRequest (promptOf tech)) :: m1),
         (Generate (categoryRequest (promptOf music))
            :: Generate (categoryRequest (promptOf billboard))
            :: Generate (categoryRequest (promptOf hiphop)) :: m2),
         (Generate (categoryRequest (promptOf memes))
            :: Generate (categoryRequest (promptOf gaming)) :: m3),
         (Generate (categoryRequest (promptOf landscapes))
            :: Generate (categoryRequest (promptOf wildlife)) :: m4).
  split; [exact E|]. split; [intros []; assumption|].
  split.
  { unfold pause in T2, T3, T4. cbn [trace] in T2, T3, T4.
    rewrite Hn, T4, T3, T2, T1.
    repeat first [rewrite <- app_assoc | rewrite <- app_comm_cons].
    reflexivity. }
  split; [exists m1; split; [reflexivity|exact I1]|].
  split; [exists m2; split; [reflexivity|exact I2]|].
  split; [exists m3; split; [reflexivity|exact I3]|].
  split; [exists m4; split; [reflexivity|exact I4]|].
  split; [intros []; assumption|].
  repeat (split; [assumption|]). assumption.
Qed.

Lemma cycleStart_frame forceRefresh w :
  net (cycleStart forceRefresh w) = net w
  /\ localStorage (cycleStart forceRefresh w) = localStorage w
  /\ storageAccepts (cycleStart forceRefresh w) = storageAccepts w
  /\ sectionData (app (cycleStart forceRefresh w)) = sectionData (app w)
  /\ error (app (cycleStart forceRefresh w)) = error (app w)
  /\ lastUpdated (app (cycleStart forceRefresh w)) = lastUpdated (app w).
Proof. by destruct forceRefresh. Qed.

(** The cycle after its batches: stamp, then persist or report that the
    write threw; or report that a batch threw. *)
Lemma fetchCycle_run JSON_stringify_CachedData ai fetch forceRefresh w :
  fetchCycle JSON_stringify_CachedData ai fetch forceRefresh w
  = match fetchBatches ai fetch (cycleStart forceRefresh w) with
    | (Ok d, w1) =>
        if snapshotAccepted JSON_stringify_CachedData d w1
        then (Ok tt, persisted JSON_stringify_CachedData d w1)
        else (Ok tt, unsaved w1)
    | (Throw e, w1) => (Ok tt, failed w1)
    end.
Proof.
  unfold fetchCycle, cycleStart, tryFinally, tryCatch, mbind, ST_bind.
  destruct forceRefresh; cbn [mret ST_ret setLoading modifyApp snd];
    match goal with |- context [fetchBatches ai fetch ?x] =>
      destruct (fetchBatches ai fetch x) as [[d|e] [n1 ls1 sa1 st1]] end;
    try reflexivity;
    unfold snapshotAccepted, localStorage_setItem, liftNet, Date_now,
      setLastUpdated, modifyApp;
    reduce_state;
    match goal with |- context [if ?c then _ else _] => destruct c end;
    reflexivity.
Qed.

(** C5, as the code has it. The category fetches never reject, so the
    four batches always complete, and the one stage of a cycle that can
    throw is the write of the snapshot at its end. When that write
    throws, the exception is caught and reported ([error] set, [loading]
    and [refreshing] cleared) and storage is as it was; but by then every
    section shows the newly fetched topics, and [lastUpdated] is the time
    of this cycle. When the write is taken, no error is reported. *)
Theorem C5_failed_cycle_state
    (JSON_stringify_CachedData : CachedData -> jsstring) (ai : Service)
    (forceRefresh : bool) (w : World) :
  (exists d w1,
      fetchBatches ai geminiFetch_task (cycleStart forceRefresh w) = (Ok d, w1))
  /\ (fetchCycle JSON_stringify_CachedData ai geminiFetch_task
        forceRefresh w).1 = Ok tt
  /\ loading (app (fetchCycle JSON_stringify_CachedData ai geminiFetch_task
                     forceRefresh w).2) = false
  /\ refreshing (app (fetchCycle JSON_stringify_CachedData ai geminiFetch_task
                        forceRefresh w).2) = false
  /\ (forall d w1,
        fetchBatches ai geminiFetch_task (cycleStart forceRefresh w)
        = (Ok d, w1) ->
        snapshotAccepted JSON_stringify_CachedData d w1 = false ->
        error (app (fetchCycle JSON_stringify_CachedData ai geminiFetch_task
                      forceRefresh w).2) = Some LOAD_ERROR
        /\ localStorage (fetchCycle JSON_stringify_CachedData ai
                           geminiFetch_task forceRefresh w).2
           = localStorage w
        /\ (forall c,
              sectionData
                (app (fetchCycle JSON_stringify_CachedData ai geminiFetch_task
                        forceRefresh w).2) c = d c)
        /\ (forall c,
              d c = fallbackOf c
              \/ exists resp t,
                   d c = parseTopics (prefixOf c) t resp (fallbackOf c))
        /\ lastUpdated
             (app (fetchCycle JSON_stringify_CachedData ai geminiFetch_task
                     forceRefresh w).2)
           = Some (now (net (fetchCycle JSON_stringify_CachedData ai
                               geminiFetch_task forceRefresh w).2)))
  /\ (forall d w1,
        fetchBatches ai geminiFetch_task (cycleStart forceRefresh w)
        = (Ok d, w1) ->
        snapshotAccepted JSON_stringify_CachedData d w1 = true ->
        error (app (fetchCycle JSON_stringify_CachedData ai geminiFetch_task
                      forceRefresh w).2) = error (app w)).
Proof.
  destruct (cycleStart_frame forceRefresh w) as (_ & Hs0 & _ & _ & He0 & _).
  destruct (fetchBatches_gemini ai (cycleStart forceRefresh w))
    as (k & d & w1 & g1 & g2 & g3 & g4 & E & _ & _ & _ & _ & _ & _ & Hruns
        & Hs & _ & Hd & _ & _ & He & _).
  rewrite fetchCycle_run, E.
  split; [eauto|].
  split; [by destruct (snapshotAccepted _ d w1)|].
  split; [by destruct (snapshotAccepted _ d w1)|].
  split; [by destruct (snapshotAccepted _ d w1)|].
  split.
  - intros d' w1' [= <- <-] ->.
    cbn [snd unsaved app error localStorage sectionData lastUpdated net].
    split; [done|]. split; [congruence|]. split; [done|]. split; [|done].
    intros c.
    destruct (geminiFetch_task_runs _ _ _ _ (Hruns c))
      as (? & res & _ & _ & [= ->] & Hres & _). exact Hres.
  - intros d' w1' [= <- <-] ->.
    cbn [snd persisted app error]. congruence.
Qed.

Lemma C5_failed_cycle_state_witness :
  error (app (fetchCycle stringifyStub (alwaysRejects (Some 500) None)
                geminiFetch_task true worldStorageRefused).2)
  = Some LOAD_ERROR
  /\ localStorage (fetchCycle stringifyStub (alwaysRejects (Some 500) None)
                     geminiFetch_task true worldStorageRefused).2
     = localStorage worldStorageRefused.
Proof.
  destruct (C5_failed_cycle_state stringifyStub (alwaysRejects (Some 500) None)
              true worldStorageRefused) as (_ & _ & _ & _ & H & _).
  destruct (H fallbackOf
              (fetchBatches (alwaysRejects (Some 500) None) geminiFetch_task
                 worldStorageRefused).2) as (H1 & H2 & _).
  - vm_compute. reflexivity.
  - vm_compute. reflexivity.
  - split; [exact H1 | exact H2].
Defined.

(** C5 as stated fails. The browser refuses the write that ends the cycle:
    the error is reported, and every section, which showed [topicA], now
    shows what the cycle fetched; [lastUpdated] has moved too. *)
Lemma C5_overwritten_sections_counterexample :
  let w' := (loadTopics parseStub stringifyStub (alwaysRejects (Some 500) None)
               geminiFetch_task true worldStorageRefused).2 in
  error (app w') = Some LOAD_ERROR
  /\ (forall c, sectionData (app worldStorageRefused) c = [topicA])
  /\ (forall c, sectionData (app w') c = fallbackOf c)
  /\ sectionData (app w') news <> sectionData (app worldStorageRefused) news
  /\ lastUpdated (app worldStorageRefused) = Some 500
  /\ lastUpdated (app w') = Some 5700
  /\ localStorage w' = ∅.
Proof.
  cbv zeta. split; [vm_compute; reflexivity|]. split; [done|].
  split; [intros []; vm_compute; reflexivity|].
  split; [vm_compute; discriminate|].
  split; [done|]. split; vm_compute; reflexivity.
Qed.




Example all_categories_fail_run :
  let w' := (loadTopics parseStub stringifyStub (alwaysRejects (Some 500) None)
               geminiFetch_task true worldShowingA).2 in
  localStorage w' !! STORAGE_KEY = Some (js "snapshot@5700")
  /\ lastUpdated (app w') = Some 5700
  /\ now (net w') = 5700
  /\ error (app w') = None
  /\ sectionData (app w') wildlife = fetchWildlifeTrends_fallback.
Proof. vm_compute. repeat split; reflexivity. Qed.

(** C6: every cycle of the application requests the nine sections in the
    four groups (news, tech), (music, billboard, hiphop), (memes, gaming),
    (landscapes, wildlife), with a sleep of 1.5 s before the second, third
    and fourth group. In a group the first request of every section is
    sent before any answer is awaited, so no answer to one section can
    keep another from being requested; the retries of the sections of a
    group overlap. Whatever the others do, the fetch of each section makes
    a run of its own, with at most three retries, and the section ends
    with its own fallback table or with the parse of its own response. *)
Theorem C6_four_groups_with_pauses
    (JSON_stringify_CachedData : CachedData -> jsstring) (ai : Service)
    (forceRefresh : bool) (w : World) :
  exists (k : SectionId -> nat) (g1 g2 g3 g4 : list Event),
    (forall c, (k c <= 3)%nat)
    /\ trace (net (fetchCycle JSON_stringify_CachedData ai geminiFetch_task
                     forceRefresh w).2)
       = trace (net w)
         ++ g1 ++ Sleep 1500 :: g2 ++ Sleep 1500 :: g3 ++ Sleep 1500 :: g4
    /\ groupOfTwo k news tech g1
    /\ groupOfThree k music billboard hiphop g2
    /\ groupOfTwo k memes gaming g3
    /\ groupOfTwo k landscapes wildlife g4
    /\ (forall c,
          Runs ai (geminiFetch_task c)
            (attempts (categoryRequest (promptOf c)) (k c))
            (Ok (sectionData
                   (app (fetchCycle JSON_stringify_CachedData ai
                           geminiFetch_task forceRefresh w).2) c)))
    /\ (forall c,
          sectionData
            (app (fetchCycle JSON_stringify_CachedData ai geminiFetch_task
                    forceRefresh w).2) c = fallbackOf c
          \/ exists resp t,
               sectionData
                 (app (fetchCycle JSON_stringify_CachedData ai geminiFetch_task
                         forceRefresh w).2) c
               = parseTopics (prefixOf c) t resp (fallbackOf c)).
Proof.
  destruct (cycleStart_frame forceRefresh w) as (Hn0 & _).
  destruct (fetchBatches_gemini ai (cycleStart forceRefresh w))
    as (k & d & w1 & g1 & g2 & g3 & g4 & E & Hk & Ht & G1 & G2 & G3 & G4
        & Hruns & _ & _ & Hd & _).
  exists k, g1, g2, g3, g4. rewrite fetchCycle_run, E.
  assert (Hfinal :
    net (if snapshotAccepted JSON_stringify_CachedData d w1
         then (Ok tt, persisted JSON_stringify_CachedData d w1)
         else (Ok tt, unsaved w1)).2 = net w1
    /\ sectionData
         (app (if snapshotAccepted JSON_stringify_CachedData d w1
               then (Ok tt, persisted JSON_stringify_CachedData d w1)
               else (Ok tt, unsaved w1)).2) = sectionData (app w1))
    by (by destruct (snapshotAccepted _ d w1)).
  destruct Hfinal as [-> ->].
  split; [done|]. split; [by rewrite Ht, Hn0|].
  do 4 (split; [done|]).
  split.
  - intros c. rewrite Hd. apply Hruns.
  - intros c. rewrite Hd.
    destruct (geminiFetch_task_runs _ _ _ _ (Hruns c))
      as (? & res & _ & _ & [= ->] & Hres & _). exact Hres.
Qed.

Example cycle_trace_when_service_is_down :
  trace (net (fetchCycle stringifyStub (alwaysRejects (Some 500) None)
                geminiFetch_task true worldShowingA).2)
  = cycleTrace (fun c => [Generate (categoryRequest (promptOf c))]).
Proof. vm_compute. reflexivity. Qed.

(** Both requests of a group are rate limited: the two backoff timers run
    together, and both retries are sent when they fire. *)
Example retries_of_a_group_overlap :
  let out := Promise_all2 (recoversAfterTwo (js "TOPIC_START|T|x|y|TOPIC_END"))
               (geminiFetch_task news) (geminiFetch_task tech) net0 in
  trace out.2
  = [Generate (categoryRequest (promptOf news));
     Generate (categoryRequest (promptOf tech));
     Sleep 2000; Sleep 2000;
     Generate (categoryRequest (promptOf news));
     Generate (categoryRequest (promptOf tech))]
  /\ now out.2 = 3100.
Proof. vm_compute. repeat split; reflexivity. Qed.

(** ** Cache or fetch *)

Ltac run_setters :=
  lazy [setNewsTopics setTechTopics setMusicTopics setBillboardTopics
        setHipHopTopics setMemeTopics setGamingTopics setLandscapeTopics
        setWildlifeTopics setTopics setLastUpdated setLoading setRefreshing
        setError modifyApp mret ST_ret net localStorage storageAccepts app
        sectionData
        loading refreshing error lastUpdated fst snd].

Lemma restoreFromCache_fresh JSON_parse_CachedData w snap :
  freshSnapshot JSON_parse_CachedData w snap ->
  exists w',
    restoreFromCache JSON_parse_CachedData w = (Ok true, w')
    /\ net w' = net w
    /\ localStorage w' = localStorage w
    /\ (forall c, sectionData (app w') c = default [] (data snap c))
    /\ lastUpdated (app w') = Some (timestamp snap)
    /\ loading (app w') = false
    /\ refreshing (app w') = false
    /\ error (app w') = error (app w).
Proof.
  intros (s & Hs & Hne & Hp & Hage).
  unfold restoreFromCache, tryCatch, mbind, ST_bind, localStorage_getItem.
  rewrite Hs. destruct s as [|c s]; [done|]. rewrite Hp.
  unfold liftNet, Date_now. reduce_state.
  apply Z.ltb_lt in Hage. rewrite Hage.
  run_setters.
  eexists. split; [reflexivity|]. reduce_state.
  do 2 (split; [reflexivity|]).
  split; [by intros []|]. by repeat split.
Qed.

Lemma restoreFromCache_miss JSON_parse_CachedData w :
  ~ (exists snap, freshSnapshot JSON_parse_CachedData w snap) ->
  restoreFromCache JSON_parse_CachedData w = (Ok false, w).
Proof.
  intros Hno. destruct w as [n ls sa st].
  unfold restoreFromCache, tryCatch, mbind, ST_bind, localStorage_getItem.
  reduce_state.
  destruct (ls !! STORAGE_KEY) as [[|c s]|] eqn:Hs; [done| |done].
  destruct (JSON_parse_CachedData (c :: s)) as [snap|] eqn:Hp; [|done].
  unfold liftNet, Date_now. reduce_state.
  destruct (Z.ltb_spec (now n - timestamp snap) REFRESH_INTERVAL) as [Hage|_];
    [|done].
  destruct Hno. exists snap, (c :: s). by repeat split.
Qed.

Lemma loadTopics_forced JSON_parse_CachedData JSON_stringify_CachedData ai fetch w :
  loadTopics JSON_parse_CachedData JSON_stringify_CachedData ai fetch true w
  = fetchCycle JSON_stringify_CachedData ai fetch true (setError None w).2.
Proof. reflexivity. Qed.

Lemma loadTopics_miss JSON_parse_CachedData JSON_stringify_CachedData ai fetch w :
  ~ (exists snap, freshSnapshot JSON_parse_CachedData w snap) ->
  loadTopics JSON_parse_CachedData JSON_stringify_CachedData ai fetch false w
  = fetchCycle JSON_stringify_CachedData ai fetch false (setError None w).2.
Proof.
  intros Hno. unfold loadTopics, mbind, ST_bind.
  unfold setError at 1, modifyApp at 1.
  rewrite restoreFromCache_miss; [reflexivity|].
  intros (snap & s & H). apply Hno. exists snap, s. exact H.
Qed.

Lemma loadTopics_fresh JSON_parse_CachedData JSON_stringify_CachedData ai fetch w snap :
  freshSnapshot JSON_parse_CachedData w snap ->
  exists w',
    loadTopics JSON_parse_CachedData JSON_stringify_CachedData ai fetch false w
    = (Ok tt, w')
    /\ net w' = net w
    /\ localStorage w' = localStorage w
    /\ (forall c, sectionData (app w') c = default [] (data snap c))
    /\ lastUpdated (app w') = Some (timestamp snap)
    /\ loading (app w') = false
    /\ refreshing (app w') = false
    /\ error (app w') = None.
Proof.
  intros Hf. unfold loadTopics, mbind, ST_bind.
  unfold setError at 1, modifyApp at 1.
  match goal with |- context [restoreFromCache _ ?w0] =>
    destruct (restoreFromCache_fresh JSON_parse_CachedData w0 snap)
      as (w' & -> & Hn & Hs & Hd & Hu & Hl & Hr & He) end.
  { destruct Hf as (s & H). exists s. exact H. }
  exists w'. split; [reflexivity|]. by repeat split.
Qed.

Lemma classic_fresh JSON_parse_CachedData w :
  (exists snap, freshSnapshot JSON_parse_CachedData w snap)
  \/ ~ (exists snap, freshSnapshot JSON_parse_CachedData w snap).
Proof.
  unfold freshSnapshot.
  destruct (localStorage w !! STORAGE_KEY) as [[|c s]|] eqn:Hs.
  - right. intros (snap & s & [= <-] & Hne & _). done.
  - destruct (JSON_parse_CachedData (c :: s)) as [snap|] eqn:Hp.
    + destruct (Z.ltb_spec (now (net w) - timestamp snap) REFRESH_INTERVAL).
      * left. exists snap, (c :: s). by repeat split.
      * right. intros (snap' & s' & [= <-] & _ & Hp' & Hage).
        rewrite Hp in Hp'. injection Hp' as <-. lia.
    + right. intros (snap' & s' & [= <-] & _ & Hp' & _). congruence.
  - right. intros (snap & s & [=] & _).
Qed.

Lemma fetchCycle_gemini_requests JSON_stringify_CachedData ai forceRefresh w :
  exists evs,
    trace (net (fetchCycle JSON_stringify_CachedData ai geminiFetch_task
                  forceRefresh w).2)
    = trace (net w) ++ Generate (categoryRequest (promptOf news)) :: evs.
Proof.
  destruct (cycleStart_frame forceRefresh w) as (Hn0 & _).
  destruct (fetchBatches_gemini ai (cycleStart forceRefresh w))
    as (k & d & w1 & g1 & g2 & g3 & g4 & E & _ & Ht & (rest & -> & _) & _).
  rewrite fetchCycle_run, E.
  replace (net (if snapshotAccepted JSON_stringify_CachedData d w1
                then (Ok tt, persisted JSON_stringify_CachedData d w1)
                else (Ok tt, unsaved w1)).2) with (net w1)
    by (by destruct (snapshotAccepted _ d w1)).
  rewrite Ht, Hn0. rewrite <- !app_comm_cons. eauto.
Qed.

(** C1: [loadTopics(false)] restores the stored snapshot, and touches
    neither the network nor the clock, exactly when a snapshot is stored
    that parses and is younger than eight hours; otherwise it runs the
    fetch cycle, as [loadTopics(true)] always does; and a fetch cycle
    always sends requests. *)
Theorem C1_cache_or_fetch
    (JSON_parse_CachedData : jsstring -> option CachedData)
    (JSON_stringify_CachedData : CachedData -> jsstring)
    (ai : Service) (w : World) :
  (forall snap,
      freshSnapshot JSON_parse_CachedData w snap ->
      exists w',
        loadTopics JSON_parse_CachedData JSON_stringify_CachedData
          ai geminiFetch_task false w = (Ok tt, w')
        /\ net w' = net w
        /\ localStorage w' = localStorage w
        /\ (forall c, sectionData (app w') c = default [] (data snap c))
        /\ lastUpdated (app w') = Some (timestamp snap)
        /\ loading (app w') = false
        /\ refreshing (app w') = false
        /\ error (app w') = None)
  /\ (~ (exists snap, freshSnapshot JSON_parse_CachedData w snap) ->
      loadTopics JSON_parse_CachedData JSON_stringify_CachedData
        ai geminiFetch_task false w
      = fetchCycle JSON_stringify_CachedData ai geminiFetch_task false
          (setError None w).2)
  /\ loadTopics JSON_parse_CachedData JSON_stringify_CachedData
       ai geminiFetch_task true w
     = fetchCycle JSON_stringify_CachedData ai geminiFetch_task true
         (setError None w).2
  /\ (forall forceRefresh w0, exists evs,
        trace (net (fetchCycle JSON_stringify_CachedData ai geminiFetch_task
                      forceRefresh w0).2)
        = trace (net w0) ++ Generate (categoryRequest (promptOf news)) :: evs)
  /\ ((exists snap, freshSnapshot JSON_parse_CachedData w snap)
      <-> trace (net (loadTopics JSON_parse_CachedData JSON_stringify_CachedData
                        ai geminiFetch_task false w).2) = trace (net w)).
Proof.
  split; [intros snap; apply loadTopics_fresh|].
  split; [apply loadTopics_miss|].
  split; [apply loadTopics_forced|].
  split; [intros; apply fetchCycle_gemini_requests|].
  split.
  - intros [snap Hf].
    destruct (loadTopics_fresh JSON_parse_CachedData JSON_stringify_CachedData
                ai geminiFetch_task w snap Hf) as (w' & -> & Hn & _).
    cbn [snd]. by rewrite Hn.
  - intros Ht.
    destruct (classic_fresh JSON_parse_CachedData w) as [Hf|Hno]; [done|].
    rewrite loadTopics_miss in Ht by done.
    destruct (fetchCycle_gemini_requests JSON_stringify_CachedData ai false
                (setError None w).2) as (evs & He).
    rewrite He in Ht. cbn [setError modifyApp snd net] in Ht.
    rewrite <- (app_nil_r (trace (net w))) in Ht at 2.
    apply app_inv_head in Ht. discriminate.
Qed.

Lemma C1_cache_or_fetch_witness :
  exists w',
    loadTopics parseStub stringifyStub
      (alwaysRejects (Some 500) None) geminiFetch_task false
      worldStaleStateFreshCache = (Ok tt, w')
    /\ net w' = net worldStaleStateFreshCache
    /\ localStorage w' = localStorage worldStaleStateFreshCache
    /\ (forall c, sectionData (app w') c = [topicA])
    /\ lastUpdated (app w') = Some 32400000.
Proof.
  destruct (C1_cache_or_fetch parseStub stringifyStub
              (alwaysRejects (Some 500) None) worldStaleStateFreshCache)
    as (H & _).
  destruct (H {| timestamp := 32400000; data := fun _ => Some [topicA] |})
    as (w' & E & Hn & Hs & Hd & Hu & _).
  - exists (js "snapshot@32400000"). repeat split; vm_compute; congruence.
  - exists w'. repeat split; assumption.
Defined.

Example stale_snapshot_refetches :
  let w := {| net := {| now := 32400000 + 9 * 3600000; trace := [] |};
              localStorage := {[ STORAGE_KEY := js "snapshot@32400000" ]};
              storageAccepts := acceptsAll;
              app := app worldShowingA |} in
  let w' := (loadTopics parseStub stringifyStub
               (alwaysRejects (Some 500) None) geminiFetch_task false w).2 in
  length (trace (net w')) = 12%nat
  /\ localStorage w' !! STORAGE_KEY = Some (js "snapshot@64804700")
  /\ lastUpdated (app w') = Some 64804700
  /\ now (net w') = 64804700.
Proof. vm_compute. repeat split; reflexivity. Qed.

(** ** The auto-refresh interval *)

(** C4, as the code has it: a tick of the one-minute interval calls
    [loadTopics(true)], a forced refresh, when [lastUpdated] is set and at
    least eight hours old, and does nothing otherwise (nothing either
    while [lastUpdated] is null or zero). *)
Theorem C4_auto_refresh_is_forced
    (JSON_parse_CachedData : jsstring -> option CachedData)
    (JSON_stringify_CachedData : CachedData -> jsstring)
    (ai : Service) (fetch : SectionId -> Task (list Topic)) (w : World) :
  (forall l,
      lastUpdated (app w) = Some l -> l <> 0 ->
      REFRESH_INTERVAL <= now (net w) - l ->
      autoRefreshCheck (lastUpdated (app w)) (now (net w)) = Some true
      /\ autoRefreshTick JSON_parse_CachedData JSON_stringify_CachedData ai fetch w
         = loadTopics JSON_parse_CachedData JSON_stringify_CachedData ai fetch true w)
  /\ (forall l,
        lastUpdated (app w) = Some l -> now (net w) - l < REFRESH_INTERVAL ->
        autoRefreshTick JSON_parse_CachedData JSON_stringify_CachedData ai fetch w
        = (Ok tt, w))
  /\ (lastUpdated (app w) = None \/ lastUpdated (app w) = Some 0 ->
      autoRefreshTick JSON_parse_CachedData JSON_stringify_CachedData ai fetch w
      = (Ok tt, w))
  /\ AUTO_REFRESH_POLL = 60 * 1000.
Proof.
  unfold autoRefreshTick, autoRefreshCheck. split; [|split; [|split]].
  - intros l -> Hl Hage. apply Z.eqb_neq in Hl. rewrite Hl.
    apply Z.leb_le in Hage. by rewrite Hage.
  - intros l -> Hage. destruct (Z.eqb l 0); [done|].
    apply Z.leb_gt in Hage. by rewrite Hage.
  - by intros [-> | ->].
  - reflexivity.
Qed.

Lemma C4_auto_refresh_is_forced_witness :
  autoRefreshTick parseStub stringifyStub
    (alwaysRejects (Some 500) None) geminiFetch_task worldStaleStateFreshCache
  = loadTopics parseStub stringifyStub
      (alwaysRejects (Some 500) None) geminiFetch_task true
      worldStaleStateFreshCache.
Proof.
  destruct (C4_auto_refresh_is_forced parseStub stringifyStub
              (alwaysRejects (Some 500) None) geminiFetch_task
              worldStaleStateFreshCache) as (H & _).
  apply (H 1000); [reflexivity | discriminate | vm_compute; discriminate].
Defined.

(** C4 as stated fails: with [lastUpdated] more than eight hours old and a
    fresh snapshot in storage, an unforced refresh restores the snapshot
    without a request; the tick forces a cycle of nine requests. *)
Lemma C4_unforced_refresh_counterexample :
  REFRESH_INTERVAL <= now (net worldStaleStateFreshCache) - 1000
  /\ lastUpdated (app worldStaleStateFreshCache) = Some 1000
  /\ trace (net (loadTopics parseStub stringifyStub
                   (alwaysRejects (Some 500) None) geminiFetch_task false
                   worldStaleStateFreshCache).2) = []
  /\ trace (net (autoRefreshTick parseStub stringifyStub
                   (alwaysRejects (Some 500) None) geminiFetch_task
                   worldStaleStateFreshCache).2)
     = cycleTrace (fun c => [Generate (categoryRequest (promptOf c))])
  /\ autoRefreshTick parseStub stringifyStub
       (alwaysRejects (Some 500) None) geminiFetch_task worldStaleStateFreshCache
     <> loadTopics parseStub stringifyStub
          (alwaysRejects (Some 500) None) geminiFetch_task false
          worldStaleStateFreshCache.
Proof.
  split; [vm_compute; discriminate|]. split; [reflexivity|].
  split; [vm_compute; reflexivity|]. split; [vm_compute; reflexivity|].
  intros H. apply (f_equal (fun r => length (trace (net r.2)))) in H.
  vm_compute in H. discriminate.
Qed.

(** * Further properties of the service module *)

(** ** What a parsed record can hold *)

Lemma lazyDots_minimal {A} (k : jsstring -> option A) s : forall acc g r,
  lazyDots k acc s = Some (g, r) ->
  exists g' rest, g = rev acc ++ g' /\ s = g' ++ rest
    /\ forall g1 c g2, g' = g1 ++ c :: g2 -> k (c :: g2 ++ rest) = None.
Proof.
  induction s as [|c s IH]; intros acc g r; cbn [lazyDots].
  - destruct (k []) eqn:Hk; [|discriminate].
    intros [= <- <-]. exists [], []. rewrite app_nil_r. repeat split.
    intros [|? ?] ? ? [=].
  - destruct (k (c :: s)) eqn:Hk.
    + intros [= <- <-]. exists [], (c :: s). rewrite app_nil_r. repeat split.
      intros [|? ?] ? ? [=].
    + destruct (isLineTerminator c); [discriminate|].
      intros H. apply IH in H as (g' & rest & -> & -> & Hmin).
      exists (c :: g'), rest. cbn [rev]. rewrite <- app_assoc.
      repeat split. intros [|x g1] c' g2 E; injection E as -> ->.
      * exact Hk.
      * by eapply Hmin.
Qed.

Lemma BAR_not_terminator : isLineTerminator BAR_UNIT = false.
Proof. reflexivity. Qed.

(** The first two captures stop at the first bar they can stop at. *)
Lemma topicRegexAt_no_bar s t c d :
  topicRegexAt s = Some (t, c, d) -> (BAR_UNIT ∉ t) /\ (BAR_UNIT ∉ c).
Proof.
  unfold topicRegexAt. intros H.
  destruct (stripPrefix TOPIC_START s) as [s1|] eqn:H1; [|discriminate].
  cbn [mbind option_bind] in H.
  match type of H with context [lazyDots ?k ?a ?x] =>
    destruct (lazyDots k a x) as [[g1 [g2 [g3 post]]]|] eqn:L1 end; [|discriminate].
  cbn [mbind option_bind fst snd] in H. injection H as -> -> ->.
  pose proof L1 as M1.
  apply lazyDots_minimal in M1 as (t' & rest1 & Et & -> & Hmin1).
  apply lazyDots_sound in L1 as (t2 & rest1' & Et2 & E1 & K1 & Ht).
  simpl in Et, Et2. subst t'. subst t2.
  apply app_inv_head in E1 as <-.
  destruct (stripPrefix BAR rest1) as [s2|] eqn:H2; [|discriminate].
  cbn [mbind option_bind] in K1. apply stripPrefix_Some in H2 as ->.
  pose proof K1 as M2.
  apply lazyDots_minimal in M2 as (c' & rest2 & Ec & -> & Hmin2).
  apply lazyDots_sound in K1 as (c2 & rest2' & Ec2 & E2 & K2 & Hc).
  simpl in Ec, Ec2. subst c'. subst c2.
  apply app_inv_head in E2 as <-.
  destruct (stripPrefix BAR rest2) as [s3|] eqn:H3; [|discriminate].
  cbn [mbind option_bind] in K2. apply stripPrefix_Some in H3 as ->.
  apply lazyDots_sound in K2 as (d2 & rest3 & Ed2 & -> & K3 & Hd).
  split.
  - intros Hin. apply list_elem_of_split in Hin as (x & y & ->).
    specialize (Hmin1 x BAR_UNIT y eq_refl).
    change (BAR_UNIT :: y ++ BAR ++ c ++ BAR ++ d2 ++ rest3)
      with (BAR ++ y ++ BAR ++ c ++ BAR ++ d2 ++ rest3) in Hmin1.
    rewrite stripPrefix_app in Hmin1. cbn [mbind option_bind] in Hmin1.
    assert (is_Some (lazyDots
              (fun s3 => stripPrefix BAR s3
                         ≫= (fun s3' => lazyDots (stripPrefix TOPIC_END) [] s3'))
              [] ((y ++ BAR ++ c) ++ BAR ++ d2 ++ rest3))) as [? Hs].
    { apply lazyDots_complete.
      - apply Forall_app in Ht as [_ Ht]. apply Forall_cons in Ht as [_ Ht].
        apply Forall_app. split; [done|]. apply Forall_app. split; [|done].
        repeat constructor.
      - rewrite stripPrefix_app. cbn [mbind option_bind].
        apply lazyDots_complete; [done|]. rewrite K3. eauto. }
    rewrite <- !app_assoc in Hs. rewrite Hs in Hmin1. discriminate.
  - intros Hin. apply list_elem_of_split in Hin as (x & y & ->).
    specialize (Hmin2 x BAR_UNIT y eq_refl).
    change (BAR_UNIT :: y ++ BAR ++ d2 ++ rest3)
      with (BAR ++ y ++ BAR ++ d2 ++ rest3) in Hmin2.
    rewrite stripPrefix_app in Hmin2. cbn [mbind option_bind] in Hmin2.
    assert (is_Some (lazyDots (stripPrefix TOPIC_END) []
              ((y ++ BAR ++ d2) ++ rest3))) as [? Hs].
    { apply lazyDots_complete; [|rewrite K3; eauto].
      apply Forall_app in Hc as [_ Hc]. apply Forall_cons in Hc as [_ Hc].
      apply Forall_app. split; [done|]. apply Forall_app. split; [|done].
      repeat constructor. }
    rewrite <- !app_assoc in Hs. rewrite Hs in Hmin2. discriminate.
Qed.

Lemma topicRegexMatch_at_suffix line m :
  topicRegexMatch line = Some m ->
  exists pre s, line = pre ++ s /\ topicRegexAt s = Some m.
Proof.
  induction line as [|a line IH]; cbn [topicRegexMatch].
  - destruct (topicRegexAt []) eqn:H; [|discriminate].
    intros [= <-]. by exists [], [].
  - destruct (topicRegexAt (a :: line)) eqn:H.
    + intros [= <-]. by exists [], (a :: line).
    + intros H'. apply IH in H' as (pre & s & -> & Hs).
      by exists (a :: pre), s.
Qed.

Lemma trimStart_suffix s : exists p, s = p ++ trimStart s.
Proof.
  induction s as [|c s [p IH]]; cbn [trimStart]; [by exists []|].
  destruct (isWhiteSpace c); [|by exists []].
  exists (c :: p). rewrite <- app_comm_cons. f_equal. exact IH.
Qed.

Lemma trimStart_head s c : head (trimStart s) = Some c -> isWhiteSpace c = false.
Proof.
  induction s as [|x s IH]; cbn [trimStart]; [discriminate|].
  destruct (isWhiteSpace x) eqn:E; [done|]. cbn [head]. by intros [= <-].
Qed.

Lemma trim_infix s : exists p q, trimStart s = trim s ++ q /\ s = p ++ trim s ++ q.
Proof.
  unfold trim.
  destruct (trimStart_suffix s) as [p Hp].
  destruct (trimStart_suffix (rev (trimStart s))) as [q Hq].
  exists p, (rev q).
  assert (trimStart s = rev (trimStart (rev (trimStart s))) ++ rev q) as E.
  { rewrite <- rev_app_distr, <- Hq. by rewrite rev_involutive. }
  split; [exact E|]. by rewrite <- E.
Qed.

Lemma trim_elem c s : c ∈ trim s -> c ∈ s.
Proof.
  destruct (trim_infix s) as (p & q & _ & E). intros H. rewrite E.
  apply elem_of_app. right. apply elem_of_app. by left.
Qed.

Lemma head_rev_last {A} (l : list A) : head (rev l) = last l.
Proof.
  induction l as [|x l IH] using rev_ind; [done|].
  rewrite rev_app_distr. cbn [rev app head]. by rewrite last_snoc.
Qed.

Lemma trim_trimmed s : trimmed (trim s).
Proof.
  split.
  - intros c Hc. destruct (trim_infix s) as (p & q & E & _).
    apply (trimStart_head s). rewrite E.
    destruct (trim s); [discriminate|]. exact Hc.
  - intros c Hc. unfold trim in Hc.
    rewrite <- head_rev_last, rev_involutive in Hc.
    by apply trimStart_head in Hc.
Qed.

Lemma recordsOf_elem categoryPrefix t lines : forall i T,
  T ∈ recordsOf categoryPrefix t i lines ->
  exists j line m,
    (i <= j)%nat /\ line ∈ lines /\ topicRegexMatch line = Some m
    /\ T = topicOfMatch categoryPrefix j t m.
Proof.
  unfold recordsOf.
  induction lines as [|line lines IH]; intros i T; simpl.
  - intros H. by apply elem_of_nil in H.
  - destruct (topicRegexMatch line) as [m|] eqn:Hm; simpl.
    + intros H. apply elem_of_cons in H as [->|H].
      * exists i, line, m. repeat split; [lia | apply list_elem_of_here | done].
      * apply IH in H as (j & l & m' & Hj & Hl & Hm' & ->).
        exists j, l, m'. repeat split; [lia | by apply list_elem_of_further | done].
    + intros H. apply IH in H as (j & l & m' & Hj & Hl & Hm' & ->).
      exists j, l, m'. repeat split; [lia | by apply list_elem_of_further | done].
Qed.

Lemma parseTopics_records categoryPrefix t resp fallbackData :
  parseTopics categoryPrefix t resp fallbackData = fallbackData
  \/ parseTopics categoryPrefix t resp fallbackData
     = take 10 (recordsOf categoryPrefix t 0 (split 10 (default [] (text resp)))).
Proof.
  unfold parseTopics. rewrite forEachLine_recordsOf, app_nil_l.
  destruct (recordsOf _ _ _ _); cbn [length Nat.eqb]; [by left | by right].
Qed.

Lemma noLineTerminator_trim s : noLineTerminator s -> noLineTerminator (trim s).
Proof.
  unfold noLineTerminator. rewrite !Forall_forall.
  intros H c Hc. apply H. by apply trim_elem.
Qed.

Lemma topicOfMatch_clean categoryPrefix j t line m :
  topicRegexMatch line = Some m -> cleanRecord (topicOfMatch categoryPrefix j t m).
Proof.
  intros Hm. apply topicRegexMatch_at_suffix in Hm as (pre & s & _ & Hs).
  destruct m as [[g1 g2] g3].
  destruct (topicRegexAt_no_bar _ _ _ _ Hs) as [B1 B2].
  apply topicRegexAt_sound in Hs as (t1 & c1 & d1 & post & _ & L1 & L2 & L3 & [= -> -> ->]).
  unfold cleanRecord, topicOfMatch. cbn [title category description fst snd].
  split; [intros H; by apply B1, trim_elem|].
  split; [intros H; by apply B2, trim_elem|].
  do 3 (split; [by apply noLineTerminator_trim|]).
  repeat split; apply trim_trimmed.
Qed.

(** Every topic the parser returns is one of the fallback table or a clean
    record: no bar in its title or category, no line terminator in any
    field, no white space around a field. *)
Theorem parsed_topics_are_clean categoryPrefix t resp fallbackData T :
  T ∈ parseTopics categoryPrefix t resp fallbackData ->
  T ∈ fallbackData \/ cleanRecord T.
Proof.
  destruct (parseTopics_records categoryPrefix t resp fallbackData) as [->| ->];
    [by left|].
  intros H. right. apply elem_of_take in H as (i & H & _).
  apply list_elem_of_lookup_2, recordsOf_elem in H
    as (j & line & m & _ & _ & Hm & ->).
  by eapply topicOfMatch_clean.
Qed.

Lemma parsed_topics_are_clean_witness :
  Forall cleanRecord (parseTopics (js "news") 7 threeLines [])
  /\ map title (parseTopics (js "news") 7 threeLines []) = [js "A"; js "B"]
  /\ map description (parseTopics (js "news") 7 threeLines []) = [js "y|z"; js "y"].
Proof.
  split; [|split; vm_compute; reflexivity].
  apply Forall_forall. intros T HT.
  destruct (parsed_topics_are_clean (js "news") 7 threeLines [] T HT) as [H|H];
    [by apply elem_of_nil in H | exact H].
Defined.

(** ** Identifiers *)

Lemma js_inj a b : js a = js b -> a = b.
Proof.
  revert b. induction a as [|x a IH]; intros [|y b]; cbn [js]; try discriminate;
    [done|].
  intros [= Hx Hab]. f_equal; [|by apply IH].
  rewrite <- (ascii_N_embedding x), <- (ascii_N_embedding y). by rewrite Hx.
Qed.

Lemma to_int_not_nil z :
  Z.to_int z <> Decimal.Pos Decimal.Nil /\ Z.to_int z <> Decimal.Neg Decimal.Nil.
Proof.
  split; intros E; pose proof (DecimalZ.of_to z) as H; rewrite E in H;
    cbn in H; subst z; discriminate.
Qed.

Lemma showZ_inj a b : showZ a = showZ b -> a = b.
Proof.
  unfold showZ. intros H. apply js_inj in H.
  apply (f_equal NilZero.int_of_string) in H.
  destruct (to_int_not_nil a), (to_int_not_nil b).
  rewrite !NilZero.isi in H by done. injection H as H.
  rewrite <- (DecimalZ.of_to a), <- (DecimalZ.of_to b). by rewrite H.
Qed.

Lemma topicOfMatch_id_inj categoryPrefix t i j m m' :
  id (topicOfMatch categoryPrefix i t m) = id (topicOfMatch categoryPrefix j t m') ->
  i = j.
Proof.
  unfold topicOfMatch. cbn [id]. intros H.
  apply app_inv_head in H. rewrite !(app_assoc (js "-")) in H.
  apply app_inv_tail in H. apply app_inv_head in H.
  apply showZ_inj in H. lia.
Qed.

Lemma recordsOf_cons categoryPrefix t i line lines :
  recordsOf categoryPrefix t i (line :: lines)
  = match topicRegexMatch line with
    | Some m => topicOfMatch categoryPrefix i t m
                  :: recordsOf categoryPrefix t (S i) lines
    | None => recordsOf categoryPrefix t (S i) lines
    end.
Proof. unfold recordsOf. simpl. by destruct (topicRegexMatch line). Qed.

Lemma recordsOf_ids_NoDup categoryPrefix t lines : forall i,
  NoDup (map id (recordsOf categoryPrefix t i lines)).
Proof.
  induction lines as [|line lines IH]; intros i; [apply NoDup_nil_2|].
  rewrite recordsOf_cons.
  destruct (topicRegexMatch line) as [m|]; [|apply IH].
  cbn [map]. apply NoDup_cons. split; [|apply IH].
  intros Hin. apply list_elem_of_In, in_map_iff in Hin as (T & HT & Hin).
  apply list_elem_of_In, recordsOf_elem in Hin
    as (j & l & m' & Hj & _ & _ & ->).
  symmetry in HT. apply topicOfMatch_id_inj in HT. lia.
Qed.

(** The topics parsed from one response carry pairwise distinct ids: either
    the parser returned the fallback table, or no two of the topics it
    returned share an id. *)
Theorem parsed_ids_distinct categoryPrefix t resp fallbackData :
  parseTopics categoryPrefix t resp fallbackData = fallbackData
  \/ NoDup (map id (parseTopics categoryPrefix t resp fallbackData)).
Proof.
  destruct (parseTopics_records categoryPrefix t resp fallbackData) as [H|H];
    [by left|].
  right. rewrite H.
  pose proof (recordsOf_ids_NoDup categoryPrefix t
                (split 10 (default [] (text resp))) 0) as N.
  revert N. generalize (recordsOf categoryPrefix t 0
                          (split 10 (default [] (text resp)))).
  intros l N. rewrite <- (take_drop 10 l), map_app in N.
  by apply NoDup_app in N as [N _].
Qed.

(** ** What a call through the retry wrapper costs *)

Lemma requestCount_app l k : requestCount (l ++ k) = (requestCount l + requestCount k)%nat.
Proof. unfold requestCount. by rewrite List.filter_app, length_app. Qed.

Lemma sleepTotal_app l k : sleepTotal (l ++ k) = sleepTotal l + sleepTotal k.
Proof.
  unfold sleepTotal. induction l as [|[?|ms] l IH]; simpl; lia.
Qed.

Lemma retryEvents_cost req k : forall retries,
  (k <= retries)%nat -> requestCount (retryEvents req retries k) = k.
Proof.
  induction k as [|k IH]; intros retries Hk.
  - by destruct retries.
  - destruct retries as [|retries]; [lia|].
    cbn [retryEvents]. unfold requestCount in *. simpl.
    by rewrite IH by lia.
Qed.

Lemma attempts_cost req k :
  (k <= 3)%nat ->
  requestCount (attempts req k) = S k
  /\ sleepTotal (attempts req k) = 1000 * Z.of_nat k * (Z.of_nat k + 1).
Proof.
  intros Hk. destruct k as [|[|[|[|k]]]]; [by vm_compute..|lia].
Qed.

(** Whatever the service does, one call through the retry wrapper sends
    at least one request and at most [retries + 1]; with the default of
    three retries it sleeps 0, 2, 6 or 12 seconds in all. *)
Theorem retry_wrapper_is_bounded (ai : Service) model params retries n :
  (exists evs,
      trace (generateContentWithRetry ai model params retries n).2
      = trace n ++ evs
      /\ (1 <= requestCount evs <= retries + 1)%nat)
  /\ (exists k,
        (k <= 3)%nat
        /\ trace (generateContentWithRetry ai model params 3 n).2
           = trace n ++ attempts {| model := model; params := params |} k
        /\ requestCount (attempts {| model := model; params := params |} k) = S k
        /\ sleepTotal (attempts {| model := model; params := params |} k)
           = 1000 * Z.of_nat k * (Z.of_nat k + 1)).
Proof.
  split.
  - destruct (generateContentWithRetry_trace ai model params retries n)
      as (k & r & n' & Hk & -> & Ht).
    eexists. split; [exact Ht|].
    pose proof (retryEvents_cost {| model := model; params := params |} k
                  retries Hk) as Hc.
    change (Generate ?r :: ?l) with ([Generate r] ++ l).
    rewrite requestCount_app, Hc. cbn. lia.
  - destruct (generateContentWithRetry_trace ai model params 3 n)
      as (k & r & n' & Hk & -> & Ht).
    exists k. split; [done|]. split; [exact Ht|]. by apply attempts_cost.
Qed.

(** ** Recovery *)

Lemma attempts_beforeAttempt req k :
  (k <= 3)%nat -> attempts req k = beforeAttempt req k ++ [Generate req].
Proof. intros Hk. destruct k as [|[|[|[|k]]]]; [reflexivity..|lia]. Qed.

Lemma retryPrefix_attempts req k : forall retries,
  (k <= retries)%nat ->
  retryPrefix req retries k ++ [Generate req]
  = Generate req :: retryEvents req retries k.
Proof.
  induction k as [|k IH]; intros retries Hk.
  - by destruct retries.
  - destruct retries as [|retries]; [lia|].
    cbn [retryPrefix retryEvents]. rewrite <- !app_comm_cons.
    by rewrite IH by lia.
Qed.

Lemma beforeAttempt_retryPrefix req k :
  (k <= 3)%nat -> beforeAttempt req k = retryPrefix req 3 k.
Proof. intros Hk. destruct k as [|[|[|[|k]]]]; [reflexivity..|lia]. Qed.

Lemma generateContentWithRetry_recovers_from (ai : Service) model params resp k :
  forall retries n,
  (k <= retries)%nat ->
  (forall j, (j < k)%nat -> exists e,
      outcome (ai (trace n ++ retryPrefix {| model := model; params := params |}
                                 retries j)
                 {| model := model; params := params |}) = inr e
      /\ retryable e = true) ->
  outcome (ai (trace n ++ retryPrefix {| model := model; params := params |}
                             retries k)
             {| model := model; params := params |}) = inl resp ->
  exists n',
    generateContentWithRetry ai model params retries n = (Ok resp, n')
    /\ trace n' = trace n
         ++ retryPrefix {| model := model; params := params |} retries k
         ++ [Generate {| model := model; params := params |}].
Proof.
  induction k as [|k IH]; intros retries n Hk Hfail Hok.
  - assert (retryPrefix {| model := model; params := params |} retries 0 = [])
      as E by (by destruct retries).
    rewrite E, app_nil_r in Hok. rewrite E.
    destruct retries; cbn [generateContentWithRetry];
      unfold tryCatch, ai_models_generateContent; rewrite Hok;
      eexists; split; reflexivity.
  - destruct retries as [|retries]; [lia|].
    destruct (Hfail 0%nat ltac:(lia)) as (e0 & H0 & R0).
    cbn [retryPrefix] in H0. rewrite app_nil_r in H0.
    cbn [generateContentWithRetry].
    unfold tryCatch, ai_models_generateContent, mbind, ST_bind, delay, sleep.
    rewrite H0, R0.
    match goal with |- context [generateContentWithRetry _ _ _ _ ?m] =>
      destruct (IH retries m) as (n' & -> & Ht) end.
    + lia.
    + intros j Hj. destruct (Hfail (S j) ltac:(lia)) as (e & He & Re).
      exists e. split; [|done]. cbn [trace retryPrefix] in *.
      rewrite <- !app_assoc. exact He.
    + cbn [trace retryPrefix] in *. rewrite <- !app_assoc. exact Hok.
    + exists n'. split; [done|]. rewrite Ht. cbn [trace retryPrefix].
      rewrite <- !app_assoc. reflexivity.
Qed.

(** When the service rejects the first [k] requests of a category fetch
    with retryable errors ([k] at most three) and answers the next, the
    fetch returns the parse of that answer after [k] retries. *)
Theorem category_fetch_recovers
    (ai : Service) prompt categoryPrefix fallbackData n k resp :
  (k <= 3)%nat ->
  (forall j, (j < k)%nat -> exists e,
      outcome (ai (trace n ++ beforeAttempt (categoryRequest prompt) j)
                 (categoryRequest prompt)) = inr e
      /\ retryable e = true) ->
  outcome (ai (trace n ++ beforeAttempt (categoryRequest prompt) k)
             (categoryRequest prompt)) = inl resp ->
  exists n',
    fetchTopicsByCategory ai prompt categoryPrefix fallbackData n
    = (Ok (parseTopics categoryPrefix (now n') resp fallbackData), n')
    /\ trace n' = trace n ++ attempts (categoryRequest prompt) k.
Proof.
  intros Hk Hfail Hok.
  destruct (generateContentWithRetry_recovers_from ai (js "gemini-2.5-flash")
              {| contents := prompt ++ FORMAT_INSTRUCTION; googleSearch := true |}
              resp k 3 n Hk) as (n' & Hr & Ht).
  - intros j Hj. destruct (Hfail j Hj) as (e & He & Re). exists e.
    split; [|done]. by rewrite <- beforeAttempt_retryPrefix by lia.
  - by rewrite <- beforeAttempt_retryPrefix by lia.
  - exists n'. split; [by apply fetchTopicsByCategory_ok|].
    rewrite Ht. unfold attempts. by rewrite retryPrefix_attempts.
Qed.

Lemma category_fetch_recovers_witness :
  exists n',
    fetchTopicsByCategory (recoversAfterTwo (js "TOPIC_START|A|x|y|TOPIC_END"))
      (js "p") (js "news") fetchNewsAndPolitics_fallback net0
    = (Ok (parseTopics (js "news") (now n')
             {| text := Some (js "TOPIC_START|A|x|y|TOPIC_END") |}
             fetchNewsAndPolitics_fallback), n')
    /\ trace n' = trace net0 ++ attempts (categoryRequest (js "p")) 2.
Proof.
  apply (category_fetch_recovers
           (recoversAfterTwo (js "TOPIC_START|A|x|y|TOPIC_END")) (js "p")
           (js "news") fetchNewsAndPolitics_fallback net0 2).
  - lia.
  - intros j Hj. eexists.
    destruct j as [|[|j]]; [split; reflexivity..|lia].
  - reflexivity.
Defined.

(** ** Topic details and chat *)

Lemma orElse_nonempty s d : d <> [] -> orElse s d <> [].
Proof. by destruct s as [[|? ?]|]. Qed.

Lemma forEachChunk_omap chunks : forall links,
  forEachChunk chunks links = links ++ omap linkOfChunk chunks.
Proof.
  induction chunks as [|chunk chunks IH]; intros links; cbn [forEachChunk].
  - by rewrite app_nil_r.
  - rewrite IH. unfold linkOfChunk at 2. simpl.
    destruct (web chunk); simpl; [by rewrite <- app_assoc | done].
Qed.

Lemma linkOfChunk_titled chunk link :
  linkOfChunk chunk = Some link -> linkTitle link <> [].
Proof.
  unfold linkOfChunk. destruct (web chunk) as [w|]; [|discriminate].
  intros [= <-]. cbn [linkTitle]. by apply orElse_nonempty.
Qed.

Lemma fetchTopicDetails_run
    (ai : Service) (groundingChunks : GenerateResponse -> option (list GroundingChunk))
    (topicTitle : jsstring) (n : Net) :
  exists info n',
    fetchTopicDetails ai groundingChunks topicTitle n = (Ok info, n')
    /\ markdown info <> []
    /\ (length (sourceLinks info) <= 6)%nat
    /\ Forall (fun link => linkTitle link <> []) (sourceLinks info)
    /\ match generateContentWithRetry ai (js "gemini-2.5-flash")
               {| contents := detailsPrompt topicTitle; googleSearch := true |} 3 n
       with
       | (Ok response, _) =>
           markdown info = orElse (text response) (js "No details available.")
           /\ sourceLinks info
              = take 6 (omap linkOfChunk (default [] (groundingChunks response)))
       | (Throw _, _) => info = DETAILS_ERROR
       end.
Proof.
  unfold fetchTopicDetails, tryCatch, mbind, ST_bind.
  destruct (generateContentWithRetry ai _ _ 3 n) as [[response|e] n'].
  - eexists _, n'. split; [reflexivity|]. cbn [markdown sourceLinks].
    assert (match groundingChunks response with
            | Some chunks => forEachChunk chunks []
            | None => []
            end = omap linkOfChunk (default [] (groundingChunks response))) as ->.
    { destruct (groundingChunks response); [|done].
      by rewrite forEachChunk_omap. }
    split; [by apply orElse_nonempty|].
    split; [rewrite length_take; lia|].
    split; [|done].
    apply Forall_forall. intros link Hl.
    apply elem_of_take in Hl as (i & Hl & _).
    apply list_elem_of_lookup_2, list_elem_of_omap in Hl as (chunk & _ & Hc).
    by eapply linkOfChunk_titled.
  - exists DETAILS_ERROR, n'. split; [reflexivity|].
    split; [discriminate|]. split; [cbn; lia|]. split; [constructor|done].
Qed.

(** [fetchTopicDetails] never throws. Its narrative is never empty; it
    returns at most six source links, the first six chunks with a [web]
    part in order, each with a non-empty title; when the call fails it
    returns the error narrative and no link. *)
Theorem fetchTopicDetails_always_answers
    (ai : Service) (groundingChunks : GenerateResponse -> option (list GroundingChunk))
    (topicTitle : jsstring) (n : Net) :
  exists info n',
    fetchTopicDetails ai groundingChunks topicTitle n = (Ok info, n')
    /\ markdown info <> []
    /\ (length (sourceLinks info) <= 6)%nat
    /\ Forall (fun link => linkTitle link <> []) (sourceLinks info)
    /\ match generateContentWithRetry ai (js "gemini-2.5-flash")
               {| contents := detailsPrompt topicTitle; googleSearch := true |} 3 n
       with
       | (Ok response, _) =>
           markdown info = orElse (text response) (js "No details available.")
           /\ sourceLinks info
              = take 6 (omap linkOfChunk (default [] (groundingChunks response)))
       | (Throw _, _) => info = DETAILS_ERROR
       end.
Proof. apply fetchTopicDetails_run. Qed.

Example details_first_six_links :
  map linkTitle
    (match (fetchTopicDetails (alwaysAnswers []) eightChunks (js "Roman Empire")
              net0).1 with
     | Ok info => sourceLinks info
     | Throw _ => []
     end)
  = [js "Source"; js "Source"; js "Web Source"; js "Source"; js "Source";
     js "Source"].
Proof. vm_compute. reflexivity. Qed.

Lemma fetchChatResponse_run (ai : Service) (message : jsstring) (n : Net) :
  exists reply n',
    fetchChatResponse ai message n = (Ok reply, n')
    /\ reply <> []
    /\ match generateContentWithRetry ai (js "gemini-2.5-flash")
               {| contents := chatPrompt message; googleSearch := true |} 3 n
       with
       | (Ok response, _) => reply = orElse (text response) CHAT_NOTHING_FOUND
       | (Throw _, _) => reply = CHAT_ERROR
       end.
Proof.
  unfold fetchChatResponse, tryCatch, mbind, ST_bind.
  destruct (generateContentWithRetry ai _ _ 3 n) as [[response|e] n'].
  - eexists _, n'. split; [reflexivity|]. split; [|done].
    by apply orElse_nonempty.
  - exists CHAT_ERROR, n'. split; [reflexivity|]. by split.
Qed.

(** [fetchChatResponse] never throws and never answers with the empty
    string: it returns the response text, the "nothing found" sentence when
    the text is missing or empty, and the apology when the call fails. *)
Theorem fetchChatResponse_always_answers (ai : Service) (message : jsstring) (n : Net) :
  exists reply n',
    fetchChatResponse ai message n = (Ok reply, n')
    /\ reply <> []
    /\ match generateContentWithRetry ai (js "gemini-2.5-flash")
               {| contents := chatPrompt message; googleSearch := true |} 3 n
       with
       | (Ok response, _) => reply = orElse (text response) CHAT_NOTHING_FOUND
       | (Throw _, _) => reply = CHAT_ERROR
       end.
Proof. apply fetchChatResponse_run. Qed.

(** ** The chat box *)

Ltac run_chat :=
  lazy [pushMessage setInput setIsLoading modifyChat liftChat Date_now mbind
        mret ST_bind ST_ret chatNet chat input messages isLoading fst snd].

(** [handleSend] ignores a blank text and any text while a reply is
    awaited: no request, no change. Otherwise it sends one chat request and
    ends with exactly two more messages, the user's text as typed and then
    a non-empty reply, with the input cleared and the box no longer
    loading. *)
Theorem handleSend_appends_question_and_reply (ai : Service) (text : jsstring)
    (w : ChatWorld) :
  (trim text = [] \/ isLoading (chat w) = true ->
   handleSend (fetchChatResponse ai) text w = (Ok tt, w))
  /\ (trim text <> [] -> isLoading (chat w) = false ->
      exists reply n',
        fetchChatResponse ai text (chatNet w) = (Ok reply, n')
        /\ reply <> []
        /\ handleSend (fetchChatResponse ai) text w
           = (Ok tt,
              {| chatNet := n';
                 chat := {| input := [];
                            messages :=
                              (messages (chat w)
                               ++ [{| msgId := showZ (now (chatNet w));
                                      role := RoleUser; msgText := text |}])
                              ++ [{| msgId := showZ (now n' + 1);
                                     role := RoleAi; msgText := reply |}];
                            isLoading := false |} |})).
Proof.
  split.
  - intros [H|H]; unfold handleSend.
    + by rewrite bool_decide_eq_true_2.
    + rewrite H. by rewrite orb_true_r.
  - intros Ht Hl. destruct w as [n0 [inp msgs ld]].
    cbn [chat chatNet isLoading messages] in *. subst ld.
    destruct (fetchChatResponse_run ai text n0) as (reply & n' & E & Hr & _).
    exists reply, n'. split; [done|]. split; [done|].
    unfold handleSend. rewrite bool_decide_eq_false_2 by done.
    cbn [orb chat isLoading]. run_chat. rewrite E. run_chat. reflexivity.
Qed.

Lemma handleSend_appends_question_and_reply_witness :
  handleSend (fetchChatResponse (alwaysAnswers (js "42"))) (js "  ")
    {| chatNet := net0; chat := chatInitial |}
  = (Ok tt, {| chatNet := net0; chat := chatInitial |})
  /\ exists reply n',
       fetchChatResponse (alwaysAnswers (js "42")) (js "NBA?") net0 = (Ok reply, n')
       /\ reply <> []
       /\ handleSend (fetchChatResponse (alwaysAnswers (js "42"))) (js "NBA?")
            {| chatNet := net0; chat := chatInitial |}
          = (Ok tt,
             {| chatNet := n';
                chat := {| input := [];
                           messages :=
                             ([WELCOME]
                              ++ [{| msgId := showZ 1000; role := RoleUser;
                                     msgText := js "NBA?" |}])
                             ++ [{| msgId := showZ (now n' + 1); role := RoleAi;
                                    msgText := reply |}];
                           isLoading := false |} |}).
Proof.
  split.
  - apply (handleSend_appends_question_and_reply (alwaysAnswers (js "42"))
             (js "  ") {| chatNet := net0; chat := chatInitial |}).
    left. reflexivity.
  - apply (handleSend_appends_question_and_reply (alwaysAnswers (js "42"))
             (js "NBA?") {| chatNet := net0; chat := chatInitial |});
      [discriminate | reflexivity].
Defined.

Example chat_reply_run :
  map msgText
    (messages (chat (handleSend (fetchChatResponse (alwaysAnswers (js "42")))
                       (js "NBA?") {| chatNet := net0; chat := chatInitial |}).2))
  = [msgText WELCOME; js "NBA?"; js "42"].
Proof. vm_compute. reflexivity. Qed.

(** * Further properties of the component *)

(** ** Saving and the saved mark *)

Lemma isTopicSaved_filter_other topic other prev :
  title other <> title topic ->
  isTopicSaved (List.filter (fun t => negb (bool_decide (title t = title topic)))
                  prev) other = isTopicSaved prev other.
Proof.
  intros Hne. unfold isTopicSaved.
  induction prev as [|x prev IH]; cbn [existsb List.filter]; [done|].
  destruct (bool_decide_reflect (title x = title topic)) as [Hx|Hx]; cbn [negb].
  - rewrite IH. rewrite bool_decide_eq_false_2 by congruence. done.
  - cbn [existsb]. by rewrite IH.
Qed.

(** Toggling a topic flips its saved mark and no other: afterwards
    [isTopicSaved] answers the opposite for every topic with that title and
    the same as before for every topic with another title. *)
Theorem toggle_flips_the_saved_mark (topic other : Topic) (prev : list Topic) :
  isTopicSaved (toggleSaveTopic topic prev) topic = negb (isTopicSaved prev topic)
  /\ (title other <> title topic ->
      isTopicSaved (toggleSaveTopic topic prev) other = isTopicSaved prev other).
Proof.
  rewrite toggleSaveTopic_unfold. destruct (isTopicSaved prev topic) eqn:E.
  - split; [apply isTopicSaved_filter|]. by apply isTopicSaved_filter_other.
  - split.
    + unfold isTopicSaved. cbn [existsb]. by rewrite bool_decide_eq_true_2.
    + intros Hne. unfold isTopicSaved. cbn [existsb].
      by rewrite bool_decide_eq_false_2 by congruence.
Qed.

Lemma toggle_flips_the_saved_mark_witness :
  isTopicSaved (toggleSaveTopic topicT [topicA; topicT]) topicT = false
  /\ isTopicSaved (toggleSaveTopic topicT [topicA; topicT]) topicA = true.
Proof.
  destruct (toggle_flips_the_saved_mark topicT topicA [topicA; topicT]) as [H1 H2].
  split; [exact H1|]. apply H2. discriminate.
Defined.

(** ** Which sections the grid shows *)

Lemma sectionKey_inj c c' : sectionKey c = sectionKey c' -> c = c'.
Proof. destruct c, c'; (reflexivity || (vm_compute; discriminate)). Qed.

Lemma elem_of_SECTIONS_CONFIG c : In c SECTIONS_CONFIG.
Proof. destruct c; cbn; tauto. Qed.

Lemma elem_of_renderedSections m c :
  In c (renderedSections m) <-> default false (m !! sectionKey c) = true.
Proof.
  unfold renderedSections. rewrite filter_In.
  split; [by intros [_ ?] | intros H; split; [apply elem_of_SECTIONS_CONFIG|done]].
Qed.

(** Toggling a section flips whether the grid shows it (a section the
    preferences do not mention counts as hidden and becomes visible) and
    leaves every other section as it was. *)
Theorem toggleSection_flips_one_section (m : gmap jsstring bool) (c c' : SectionId) :
  (In c (renderedSections (toggleSection (sectionKey c) m))
   <-> ~ In c (renderedSections m))
  /\ (c' <> c ->
      (In c' (renderedSections (toggleSection (sectionKey c) m))
       <-> In c' (renderedSections m))).
Proof.
  rewrite !elem_of_renderedSections. unfold toggleSection. split.
  - rewrite lookup_insert_eq. simpl.
    destruct (default false (m !! sectionKey c)); simpl; intuition congruence.
  - intros Hne. rewrite lookup_insert_ne; [done|].
    intros E. apply sectionKey_inj in E. congruence.
Qed.

Lemma toggleSection_flips_one_section_witness :
  (In tech (renderedSections (toggleSection (sectionKey music) defaults))
   <-> In tech (renderedSections defaults))
  /\ ~ In music (renderedSections (toggleSection (sectionKey music) defaults)).
Proof.
  destruct (toggleSection_flips_one_section defaults music tech) as [H1 H2].
  split; [apply H2; discriminate|].
  intros H. apply H1 in H. apply H. apply elem_of_renderedSections.
  vm_compute. reflexivity.
Defined.

Lemma init_has_known_keys JSON_parse_prefs saved c :
  is_Some (visibleSections_init JSON_parse_prefs saved !! sectionKey c).
Proof.
  rewrite visibleSections_init_union.
  destruct (parsedPrefs JSON_parse_prefs saved !! sectionKey c) as [b|] eqn:E.
  - exists b. by apply lookup_union_Some_l.
  - exists true. rewrite lookup_union_r by done. apply defaults_known.
Qed.

(** After the initializer every known section has an entry, so toggling a
    known section twice gives back exactly the preferences one had. *)
Theorem toggleSection_twice_after_init JSON_parse_prefs saved (c : SectionId) :
  toggleSection (sectionKey c)
    (toggleSection (sectionKey c) (visibleSections_init JSON_parse_prefs saved))
  = visibleSections_init JSON_parse_prefs saved.
Proof.
  destruct (init_has_known_keys JSON_parse_prefs saved c) as [b Hb].
  unfold toggleSection. rewrite lookup_insert_eq, insert_insert_eq, Hb.
  simpl. rewrite negb_involutive. by apply insert_id.
Qed.

Lemma forallb_negb_values (m : gmap jsstring bool) :
  forallb negb (snd <$> map_to_list m) = true
  <-> forall k b, m !! k = Some b -> b = false.
Proof.
  rewrite forallb_forall. split.
  - intros H k b Hk. apply negb_true_iff, H, list_elem_of_In.
    apply list_elem_of_fmap. exists (k, b). split; [done|].
    by apply elem_of_map_to_list.
  - intros H b Hb. apply list_elem_of_In, list_elem_of_fmap in Hb
      as ([k b'] & -> & Hkb). apply elem_of_map_to_list in Hkb.
    apply negb_true_iff. by eapply H.
Qed.

Lemma renderedSections_nil m :
  renderedSections m = []
  <-> forall c, default false (m !! sectionKey c) = false.
Proof.
  split.
  - intros H c. destruct (default false (m !! sectionKey c)) eqn:E; [|done].
    apply elem_of_renderedSections in E. rewrite H in E. destruct E.
  - intros H. destruct (renderedSections m) as [|c l] eqn:E; [done|].
    assert (In c (renderedSections m)) as Hc by (rewrite E; by left).
    apply elem_of_renderedSections in Hc. rewrite H in Hc. discriminate.
Qed.

(** When the "No sections selected" hint is shown, the grid shows no
    section and nothing is saved. The converse holds when the preferences
    have known keys only: a visible entry under an unknown key hides the
    hint although the grid is empty. *)
Theorem noSectionsSelected_hint (m : gmap jsstring bool) (savedTopics : list Topic) :
  (noSectionsSelected m savedTopics = true ->
   renderedSections m = [] /\ savedTopics = [])
  /\ ((forall k b, m !! k = Some b -> exists c, k = sectionKey c) ->
      renderedSections m = [] -> savedTopics = [] ->
      noSectionsSelected m savedTopics = true).
Proof.
  unfold noSectionsSelected. split.
  - intros H. apply andb_true_iff in H as [Hv Hs].
    split; [|by destruct savedTopics].
    apply renderedSections_nil. intros c.
    destruct (m !! sectionKey c) as [b|] eqn:E; [|done].
    simpl. by eapply forallb_negb_values.
  - intros Hknown Hr ->. apply andb_true_iff. split; [|done].
    apply forallb_negb_values. intros k b Hk.
    destruct (Hknown k b Hk) as [c ->].
    rewrite renderedSections_nil in Hr. specialize (Hr c).
    by rewrite Hk in Hr.
Qed.

Lemma noSectionsSelected_hint_witness :
  (renderedSections ((fun _ => false) <$> defaults) = []
   /\ @nil Topic = [])
  /\ renderedSections onlyFooVisible = []
  /\ noSectionsSelected onlyFooVisible [] = false.
Proof.
  destruct (noSectionsSelected_hint ((fun _ => false) <$> defaults) []) as [H _].
  split; [apply H; vm_compute; reflexivity|].
  split; vm_compute; reflexivity.
Defined.

(** ** Persisting and reloading preferences and saved topics *)

Lemma union_defaults_id (m : gmap jsstring bool) :
  (forall c, is_Some (m !! sectionKey c)) -> m ∪ defaults = m.
Proof.
  intros H. apply map_eq. intros k.
  destruct (m !! k) as [b|] eqn:E.
  - by apply lookup_union_Some_l.
  - rewrite lookup_union_r by done.
    destruct (defaults !! k) as [b|] eqn:D; [|done].
    apply defaults_only_known in D as [_ [c ->]].
    destruct (H c) as [b' Hb']. congruence.
Qed.

(** Preferences that mention every known section survive a reload: what
    the persistence effect stores, when the browser takes the write, is
    what the initializer reads back, when [JSON.parse] undoes
    [JSON.stringify] on them; when the browser refuses the write, the
    effect throws and stores nothing. The preferences the initializer
    returns and every toggle of them mention every known section. *)
Theorem preferences_survive_reload
    (JSON_parse_prefs : jsstring -> option (gmap jsstring bool))
    (JSON_stringify_prefs : gmap jsstring bool -> jsstring)
    (m : gmap jsstring bool) (w : World) :
  (forall c, is_Some (m !! sectionKey c)) ->
  JSON_stringify_prefs m <> [] ->
  JSON_parse_prefs (JSON_stringify_prefs m) = Some m ->
  (storageAccepts w (localStorage w) PREFS_KEY (JSON_stringify_prefs m) = true ->
   visibleSections_init JSON_parse_prefs
     (localStorage (persistPreferences JSON_stringify_prefs m w).2 !! PREFS_KEY)
   = m)
  /\ (storageAccepts w (localStorage w) PREFS_KEY (JSON_stringify_prefs m)
      = false ->
      persistPreferences JSON_stringify_prefs m w = (Throw QuotaExceededError, w))
  /\ (forall saved c,
        is_Some (visibleSections_init JSON_parse_prefs saved !! sectionKey c))
  /\ (forall key c, is_Some (toggleSection key m !! sectionKey c)).
Proof.
  intros Hk Hne Hp. split; [|split; [|split]].
  - intros Hw. unfold persistPreferences, localStorage_setItem. rewrite Hw.
    cbn [snd localStorage].
    rewrite lookup_insert_eq, visibleSections_init_union.
    unfold parsedPrefs. destruct (JSON_stringify_prefs m) eqn:E; [done|].
    rewrite Hp. simpl. by apply union_defaults_id.
  - intros Hw. unfold persistPreferences, localStorage_setItem. by rewrite Hw.
  - intros. apply init_has_known_keys.
  - intros key c. unfold toggleSection.
    destruct (decide (key = sectionKey c)) as [->|Hne'].
    + rewrite lookup_insert_eq. eauto.
    + rewrite lookup_insert_ne by done. apply Hk.
Qed.

Lemma preferences_survive_reload_witness :
  visibleSections_init parsePrefsStub
    (localStorage (persistPreferences stringifyPrefsStub defaults worldShowingA).2
     !! PREFS_KEY) = defaults
  /\ persistPreferences stringifyPrefsStub defaults worldStorageRefused
     = (Throw QuotaExceededError, worldStorageRefused).
Proof.
  destruct (preferences_survive_reload parsePrefsStub stringifyPrefsStub defaults
              worldShowingA) as (H1 & _).
  { intros c. rewrite defaults_known. eauto. }
  { vm_compute. discriminate. }
  { vm_compute. reflexivity. }
  destruct (preferences_survive_reload parsePrefsStub stringifyPrefsStub defaults
              worldStorageRefused) as (_ & H2 & _).
  { intros c. rewrite defaults_known. eauto. }
  { vm_compute. discriminate. }
  { vm_compute. reflexivity. }
  split; [apply H1; reflexivity | apply H2; reflexivity].
Defined.

(** The saved collection survives a reload when the browser takes the
    write and [JSON.parse] undoes [JSON.stringify] on it; when the browser
    refuses the write, the effect throws and stores nothing; nothing
    stored, or the empty text, reads as the empty collection; a stored
    text that does not parse makes the initializer throw, for it calls
    [JSON.parse] outside any [try]. *)
Theorem saved_topics_reload
    (JSON_parse_saved : jsstring -> option (list Topic))
    (JSON_stringify_saved : list Topic -> jsstring)
    (savedTopics : list Topic) (w : World) :
  (storageAccepts w (localStorage w) SAVED_STORAGE_KEY
     (JSON_stringify_saved savedTopics) = true ->
   JSON_stringify_saved savedTopics <> [] ->
   JSON_parse_saved (JSON_stringify_saved savedTopics) = Some savedTopics ->
   savedTopics_init JSON_parse_saved
     (localStorage (persistSavedTopics JSON_stringify_saved savedTopics w).2
      !! SAVED_STORAGE_KEY) = Ok savedTopics)
  /\ (storageAccepts w (localStorage w) SAVED_STORAGE_KEY
        (JSON_stringify_saved savedTopics) = false ->
      persistSavedTopics JSON_stringify_saved savedTopics w
      = (Throw QuotaExceededError, w))
  /\ savedTopics_init JSON_parse_saved None = Ok []
  /\ savedTopics_init JSON_parse_saved (Some []) = Ok []
  /\ (forall s, s <> [] -> JSON_parse_saved s = None ->
        exists e, savedTopics_init JSON_parse_saved (Some s) = Throw e).
Proof.
  split; [|split; [|split; [done|split; [done|]]]].
  - intros Hw Hne Hp. unfold persistSavedTopics, localStorage_setItem.
    rewrite Hw.
    cbn [snd localStorage]. rewrite lookup_insert_eq. unfold savedTopics_init.
    destruct (JSON_stringify_saved savedTopics) eqn:E; [done|]. by rewrite Hp.
  - intros Hw. unfold persistSavedTopics, localStorage_setItem. by rewrite Hw.
  - intros [|c s] Hne Hp; [done|]. unfold savedTopics_init. rewrite Hp. eauto.
Qed.

Lemma saved_topics_reload_witness :
  savedTopics_init parseSavedStub
    (localStorage (persistSavedTopics stringifySavedStub [topicT; topicA]
                     worldShowingA).2 !! SAVED_STORAGE_KEY)
  = Ok [topicT; topicA]
  /\ exists e, savedTopics_init parseSavedStub (Some (js "[{")) = Throw e.
Proof.
  destruct (saved_topics_reload parseSavedStub stringifySavedStub
              [topicT; topicA] worldShowingA) as (H1 & _ & _ & _ & H4).
  split.
  - apply H1; [reflexivity | vm_compute; discriminate | vm_compute; reflexivity].
  - apply H4; [discriminate | vm_compute; reflexivity].
Defined.

(** ** Loading *)

Lemma fetchCycle_settles JSON_stringify_CachedData ai fetch forceRefresh w :
  (fetchCycle JSON_stringify_CachedData ai fetch forceRefresh w).1 = Ok tt
  /\ loading (app (fetchCycle JSON_stringify_CachedData ai fetch
                     forceRefresh w).2) = false
  /\ refreshing (app (fetchCycle JSON_stringify_CachedData ai fetch
                        forceRefresh w).2) = false.
Proof.
  rewrite fetchCycle_run.
  destruct (fetchBatches ai fetch (cycleStart forceRefresh w)) as [[d|e] w1];
    [destruct (snapshotAccepted JSON_stringify_CachedData d w1)|];
    by repeat split.
Qed.

Lemma loadTopics_settles JSON_parse_CachedData JSON_stringify_CachedData ai fetch
    forceRefresh w :
  (loadTopics JSON_parse_CachedData JSON_stringify_CachedData ai fetch
     forceRefresh w).1 = Ok tt
  /\ loading (app (loadTopics JSON_parse_CachedData JSON_stringify_CachedData
                     ai fetch forceRefresh w).2) = false
  /\ refreshing (app (loadTopics JSON_parse_CachedData JSON_stringify_CachedData
                        ai fetch forceRefresh w).2) = false.
Proof.
  destruct forceRefresh.
  - rewrite loadTopics_forced. apply fetchCycle_settles.
  - destruct (classic_fresh JSON_parse_CachedData w) as [[snap Hf]|Hno].
    + destruct (loadTopics_fresh JSON_parse_CachedData JSON_stringify_CachedData
                  ai fetch w snap Hf) as (w' & -> & _ & _ & _ & _ & Hl & Hr & _).
      by repeat split.
    + rewrite loadTopics_miss by done. apply fetchCycle_settles.
Qed.

(** [loadTopics] and [handleRefresh] never throw and never leave a spinner
    on, whatever is stored, whatever the fetchers do, rejecting included,
    and whether or not the browser takes the write: they end with
    [loading] and [refreshing] both false. *)
Theorem loading_always_ends
    (JSON_parse_CachedData : jsstring -> option CachedData)
    (JSON_stringify_CachedData : CachedData -> jsstring)
    (ai : Service) (fetch : SectionId -> Task (list Topic))
    (forceRefresh : bool) (w : World) :
  ((loadTopics JSON_parse_CachedData JSON_stringify_CachedData ai fetch
      forceRefresh w).1 = Ok tt
   /\ loading (app (loadTopics JSON_parse_CachedData JSON_stringify_CachedData
                      ai fetch forceRefresh w).2) = false
   /\ refreshing (app (loadTopics JSON_parse_CachedData JSON_stringify_CachedData
                         ai fetch forceRefresh w).2) = false)
  /\ ((handleRefresh JSON_parse_CachedData JSON_stringify_CachedData ai fetch w).1
      = Ok tt
      /\ loading (app (handleRefresh JSON_parse_CachedData
                         JSON_stringify_CachedData ai fetch w).2) = false
      /\ refreshing (app (handleRefresh JSON_parse_CachedData
                            JSON_stringify_CachedData ai fetch w).2) = false).
Proof.
  split; [apply loadTopics_settles|].
  unfold handleRefresh, mbind, ST_bind, setRefreshing, modifyApp.
  apply loadTopics_settles.
Qed.

Example rejecting_fetcher_ends_loading :
  let w' := (handleRefresh parseStub stringifyStub (alwaysRejects (Some 500) None)
               musicRejects worldShowingA).2 in
  loading (app w') = false /\ refreshing (app w') = false
  /\ error (app w') = Some LOAD_ERROR.
Proof. vm_compute. repeat split; reflexivity. Qed.

Example refused_write_ends_loading :
  let w' := (handleRefresh parseStub stringifyStub (alwaysRejects (Some 500) None)
               geminiFetch_task worldStorageRefused).2 in
  loading (app w') = false /\ refreshing (app w') = false
  /\ error (app w') = Some LOAD_ERROR.
Proof. vm_compute. repeat split; reflexivity. Qed.

Lemma autoRefreshTick_fresh JSON_parse_CachedData JSON_stringify_CachedData ai
    fetch w l :
  lastUpdated (app w) = Some l -> now (net w) - l < REFRESH_INTERVAL ->
  autoRefreshTick JSON_parse_CachedData JSON_stringify_CachedData ai fetch w
  = (Ok tt, w).
Proof.
  intros Hl Hage. unfold autoRefreshTick, autoRefreshCheck. rewrite Hl.
  destruct (Z.eqb l 0); [done|].
  apply Z.leb_gt in Hage. by rewrite Hage.
Qed.

Lemma fetchCycle_gemini_fresh JSON_stringify_CachedData ai forceRefresh w :
  ((forall v, storageAccepts w (localStorage w) STORAGE_KEY v = true) ->
   error (app (fetchCycle JSON_stringify_CachedData ai geminiFetch_task
                 forceRefresh w).2) = error (app w))
  /\ lastUpdated (app (fetchCycle JSON_stringify_CachedData ai geminiFetch_task
                         forceRefresh w).2)
     = Some (now (net (fetchCycle JSON_stringify_CachedData ai geminiFetch_task
                         forceRefresh w).2)).
Proof.
  destruct (cycleStart_frame forceRefresh w) as (_ & Hs0 & Ha0 & _ & He0 & _).
  destruct (fetchBatches_gemini ai (cycleStart forceRefresh w))
    as (k & d & w1 & g1 & g2 & g3 & g4 & E & _ & _ & _ & _ & _ & _ & _
        & Hs & Ha & _ & _ & _ & He & _).
  rewrite fetchCycle_run, E. split.
  - intros Hw. unfold snapshotAccepted. rewrite Hs, Ha, Hs0, Ha0, Hw.
    cbn [snd persisted app error]. congruence.
  - by destruct (snapshotAccepted _ d w1).
Qed.

(** With the service module's fetchers no answer of the service makes
    [loadTopics] report an error: when the browser takes the write of the
    snapshot, it ends without error. And it always ends with
    [lastUpdated] set to a time less than eight hours back, so that an
    auto-refresh tick right after it does nothing. *)
Theorem load_with_service_fetchers_ends_fresh
    (JSON_parse_CachedData : jsstring -> option CachedData)
    (JSON_stringify_CachedData : CachedData -> jsstring)
    (ai ai' : Service) (fetch' : SectionId -> Task (list Topic))
    (forceRefresh : bool) (w : World) :
  ((forall v, storageAccepts w (localStorage w) STORAGE_KEY v = true) ->
   error (app (loadTopics JSON_parse_CachedData JSON_stringify_CachedData
                 ai geminiFetch_task forceRefresh w).2) = None)
  /\ (exists l,
        lastUpdated (app (loadTopics JSON_parse_CachedData
                            JSON_stringify_CachedData ai geminiFetch_task
                            forceRefresh w).2) = Some l
        /\ now (net (loadTopics JSON_parse_CachedData JSON_stringify_CachedData
                       ai geminiFetch_task forceRefresh w).2) - l
           < REFRESH_INTERVAL)
  /\ autoRefreshTick JSON_parse_CachedData JSON_stringify_CachedData ai' fetch'
       (loadTopics JSON_parse_CachedData JSON_stringify_CachedData
          ai geminiFetch_task forceRefresh w).2
     = (Ok tt,
        (loadTopics JSON_parse_CachedData JSON_stringify_CachedData
           ai geminiFetch_task forceRefresh w).2).
Proof.
  assert (((forall v, storageAccepts w (localStorage w) STORAGE_KEY v = true) ->
           error (app (loadTopics JSON_parse_CachedData JSON_stringify_CachedData
                         ai geminiFetch_task forceRefresh w).2) = None)
          /\ exists l,
               lastUpdated (app (loadTopics JSON_parse_CachedData
                                   JSON_stringify_CachedData ai geminiFetch_task
                                   forceRefresh w).2) = Some l
               /\ now (net (loadTopics JSON_parse_CachedData
                              JSON_stringify_CachedData ai geminiFetch_task
                              forceRefresh w).2) - l < REFRESH_INTERVAL)
    as (He & l & Hl & Hage).
  { assert (forall f,
              ((forall v, storageAccepts w (localStorage w) STORAGE_KEY v = true) ->
               error (app (fetchCycle JSON_stringify_CachedData ai
                             geminiFetch_task f (setError None w).2).2) = None)
              /\ exists l,
                   lastUpdated (app (fetchCycle JSON_stringify_CachedData ai
                                       geminiFetch_task f (setError None w).2).2)
                   = Some l
                   /\ now (net (fetchCycle JSON_stringify_CachedData ai
                                  geminiFetch_task f (setError None w).2).2) - l
                      < REFRESH_INTERVAL) as Hcycle.
    { intros f.
      destruct (fetchCycle_gemini_fresh JSON_stringify_CachedData ai f
                  (setError None w).2) as [He Hl].
      split; [intros Hw; by rewrite He|]. eexists. split; [exact Hl|].
      rewrite Z.sub_diag. reflexivity. }
    destruct forceRefresh.
    - rewrite loadTopics_forced. apply Hcycle.
    - destruct (classic_fresh JSON_parse_CachedData w) as [[snap Hf]|Hno].
      + destruct (loadTopics_fresh JSON_parse_CachedData
                    JSON_stringify_CachedData ai geminiFetch_task w snap Hf)
          as (w' & -> & Hn & _ & _ & Hu & _ & _ & He).
        cbn [snd]. split; [done|]. exists (timestamp snap). split; [done|].
        rewrite Hn. by destruct Hf as (s & _ & _ & _ & Hage).
      + rewrite loadTopics_miss by done. apply Hcycle. }
  split; [done|]. split; [eauto|]. by eapply autoRefreshTick_fresh.
Qed.

Lemma load_with_service_fetchers_ends_fresh_witness :
  error (app (loadTopics parseStub stringifyStub (alwaysRejects (Some 500) None)
                geminiFetch_task true worldShowingA).2) = None.
Proof.
  destruct (load_with_service_fetchers_ends_fresh parseStub stringifyStub
              (alwaysRejects (Some 500) None) (alwaysRejects (Some 500) None)
              musicRejects true worldShowingA) as (H & _).
  apply H. reflexivity.
Defined.

(** ** The snapshot round trip *)

(** A snapshot written by a completed cycle, the browser having taken the
    write, is read back by [loadTopics(false)] after the page is opened
    again less than eight hours later: every section shows what the cycle
    fetched, [lastUpdated] is the time of the cycle, and no request is
    sent; this when [JSON.parse] undoes [JSON.stringify] on that
    snapshot. *)
Theorem snapshot_round_trip
    (JSON_parse_CachedData : jsstring -> option CachedData)
    (JSON_stringify_CachedData : CachedData -> jsstring)
    (ai ai' : Service) (fetch fetch' : SectionId -> Task (list Topic))
    (forceRefresh : bool)
    (w : World) (d : SectionId -> list Topic) (w1 : World)
    (dt : Z) (st : AppState) :
  fetchBatches ai fetch (cycleStart forceRefresh w) = (Ok d, w1) ->
  snapshotAccepted JSON_stringify_CachedData d w1 = true ->
  JSON_stringify_CachedData
    {| timestamp := now (net w1); data := fun c => Some (d c) |} <> [] ->
  JSON_parse_CachedData
    (JSON_stringify_CachedData
       {| timestamp := now (net w1); data := fun c => Some (d c) |})
  = Some {| timestamp := now (net w1); data := fun c => Some (d c) |} ->
  dt < REFRESH_INTERVAL ->
  exists w3,
    loadTopics JSON_parse_CachedData JSON_stringify_CachedData ai' fetch' false
      (reopened dt st
         (fetchCycle JSON_stringify_CachedData ai fetch forceRefresh w).2)
    = (Ok tt, w3)
    /\ net w3
       = net (reopened dt st
                (fetchCycle JSON_stringify_CachedData ai fetch forceRefresh w).2)
    /\ (forall c, sectionData (app w3) c = d c)
    /\ (forall c,
          sectionData (app w3) c
          = sectionData
              (app (fetchCycle JSON_stringify_CachedData ai fetch
                      forceRefresh w).2) c)
    /\ lastUpdated (app w3)
       = lastUpdated
           (app (fetchCycle JSON_stringify_CachedData ai fetch forceRefresh w).2)
    /\ error (app w3) = None.
Proof.
  intros E Hw Hne Hp Hdt.
  destruct (fetchBatches_stages ai fetch _ _ _ E) as (_ & _ & _ & _ & _ & _ & Hd).
  rewrite fetchCycle_run, E, Hw. cbn [snd].
  destruct (loadTopics_fresh JSON_parse_CachedData JSON_stringify_CachedData
              ai' fetch'
              (reopened dt st (persisted JSON_stringify_CachedData d w1))
              {| timestamp := now (net w1); data := fun c => Some (d c) |})
    as (w3 & H3 & Hn & _ & Hs & Hu & _ & _ & He).
  { eexists. unfold reopened, persisted. cbn [localStorage net now timestamp].
    rewrite lookup_insert_eq. split; [reflexivity|].
    split; [done|]. split; [done|]. lia. }
  exists w3. split; [done|]. split; [done|].
  cbn [timestamp data] in *.
  split; [intros c; by rewrite Hs|].
  split; [intros c; rewrite Hs; cbn [persisted app sectionData]; by rewrite Hd|].
  by split.
Qed.

Lemma snapshot_round_trip_witness :
  exists w3,
    loadTopics parseFallbackSnapshot stringifyStub (alwaysRejects (Some 500) None)
      musicRejects false
      (reopened 3600000 appInitial
         (fetchCycle stringifyStub (alwaysRejects (Some 500) None)
            geminiFetch_task true worldShowingA).2)
    = (Ok tt, w3)
    /\ (forall c, sectionData (app w3) c = fallbackOf c).
Proof.
  destruct (snapshot_round_trip parseFallbackSnapshot stringifyStub
              (alwaysRejects (Some 500) None) (alwaysRejects (Some 500) None)
              geminiFetch_task musicRejects true
              worldShowingA fallbackOf
              (fetchBatches (alwaysRejects (Some 500) None) geminiFetch_task
                 worldShowingA).2 3600000 appInitial)
    as (w3 & H3 & Hn & Hd & _).
  - vm_compute. reflexivity.
  - vm_compute. reflexivity.
  - vm_compute. discriminate.
  - vm_compute. reflexivity.
  - reflexivity.
  - exists w3. split; [exact H3 | exact Hd].
Defined.

(** ** What a fetch cycle costs *)

Lemma requestCount_sleep ms l : requestCount (Sleep ms :: l) = requestCount l.
Proof. reflexivity. Qed.

Lemma sleepTotal_sleep ms l : sleepTotal (Sleep ms :: l) = ms + sleepTotal l.
Proof. reflexivity. Qed.

Lemma backoff_bound k :
  (k <= 3)%nat -> 0 <= 1000 * Z.of_nat k * (Z.of_nat k + 1) <= 12000.
Proof. intros Hk. destruct k as [|[|[|[|k]]]]; [cbn; lia..|lia]. Qed.

(** Laying events out among others changes neither their number nor the
    time slept. *)
Lemma Interleaved_cost l1 l2 l :
  Interleaved l1 l2 l ->
  requestCount l = (requestCount l1 + requestCount l2)%nat
  /\ sleepTotal l = sleepTotal l1 + sleepTotal l2.
Proof.
  unfold requestCount.
  induction 1 as [|[req|ms] l1 l2 l H [IH1 IH2]|[req|ms] l1 l2 l H [IH1 IH2]];
    simpl in *; split; lia.
Qed.

Lemma Interleaved3_cost l1 l2 l3 l :
  Interleaved3 l1 l2 l3 l ->
  requestCount l = (requestCount l1 + requestCount l2 + requestCount l3)%nat
  /\ sleepTotal l = sleepTotal l1 + sleepTotal l2 + sleepTotal l3.
Proof.
  unfold requestCount.
  induction 1 as [|[req|ms] l1 l2 l3 l H [IH1 IH2]
                  |[req|ms] l1 l2 l3 l H [IH1 IH2]
                  |[req|ms] l1 l2 l3 l H [IH1 IH2]];
    simpl in *; split; lia.
Qed.

Lemma groupOfTwo_cost k a b g :
  groupOfTwo k a b g ->
  requestCount g
  = (requestCount (attempts (categoryRequest (promptOf a)) (k a))
     + requestCount (attempts (categoryRequest (promptOf b)) (k b)))%nat
  /\ sleepTotal g
     = sleepTotal (attempts (categoryRequest (promptOf a)) (k a))
       + sleepTotal (attempts (categoryRequest (promptOf b)) (k b)).
Proof.
  intros (rest & -> & Hi). destruct (Interleaved_cost _ _ _ Hi) as [Hc Hs].
  unfold attempts, requestCount in *. simpl in *. split; lia.
Qed.

Lemma groupOfThree_cost k a b c g :
  groupOfThree k a b c g ->
  requestCount g
  = (requestCount (attempts (categoryRequest (promptOf a)) (k a))
     + requestCount (attempts (categoryRequest (promptOf b)) (k b))
     + requestCount (attempts (categoryRequest (promptOf c)) (k c)))%nat
  /\ sleepTotal g
     = sleepTotal (attempts (categoryRequest (promptOf a)) (k a))
       + sleepTotal (attempts (categoryRequest (promptOf b)) (k b))
       + sleepTotal (attempts (categoryRequest (promptOf c)) (k c)).
Proof.
  intros (rest & -> & Hi). destruct (Interleaved3_cost _ _ _ _ Hi) as [Hc Hs].
  unfold attempts, requestCount in *. simpl in *. split; lia.
Qed.

(** Whatever the service answers, one fetch cycle of the application sends
    at least 9 and at most 36 requests and sleeps at least 4.5 and at
    most 112.5 seconds in all (the three pauses, and up to twelve seconds
    of backoff for each section; the backoff timers of a group run
    together, so the cycle may take less time than it sleeps). *)
Theorem fetch_cycle_cost_is_bounded
    (JSON_stringify_CachedData : CachedData -> jsstring) (ai : Service)
    (forceRefresh : bool) (w : World) :
  exists evs,
    trace (net (fetchCycle JSON_stringify_CachedData ai geminiFetch_task
                  forceRefresh w).2) = trace (net w) ++ evs
    /\ (9 <= requestCount evs <= 36)%nat
    /\ 4500 <= sleepTotal evs <= 112500.
Proof.
  destruct (cycleStart_frame forceRefresh w) as (Hn0 & _).
  destruct (fetchBatches_gemini ai (cycleStart forceRefresh w))
    as (k & d & w1 & g1 & g2 & g3 & g4 & E & Hk & Ht & G1 & G2 & G3 & G4 & _).
  eexists. split.
  - rewrite fetchCycle_run, E.
    replace (net (if snapshotAccepted JSON_stringify_CachedData d w1
                  then (Ok tt, persisted JSON_stringify_CachedData d w1)
                  else (Ok tt, unsaved w1)).2) with (net w1)
      by (by destruct (snapshotAccepted _ d w1)).
    rewrite Ht, Hn0. reflexivity.
  - destruct (groupOfTwo_cost _ _ _ _ G1) as [C1 S1].
    destruct (groupOfThree_cost _ _ _ _ _ G2) as [C2 S2].
    destruct (groupOfTwo_cost _ _ _ _ G3) as [C3 S3].
    destruct (groupOfTwo_cost _ _ _ _ G4) as [C4 S4].
    repeat first [ rewrite requestCount_app | rewrite requestCount_sleep ].
    repeat first [ rewrite sleepTotal_app | rewrite sleepTotal_sleep ].
    rewrite C1, C2, C3, C4, S1, S2, S3, S4.
    pose proof (fun c => proj1 (attempts_cost (categoryRequest (promptOf c))
                                  (k c) (Hk c))) as Hc.
    pose proof (fun c => proj2 (attempts_cost (categoryRequest (promptOf c))
                                  (k c) (Hk c))) as Hs.
    rewrite !Hc, !Hs.
    pose proof (fun c => backoff_bound (k c) (Hk c)) as Hb.
    pose proof (Hk news); pose proof (Hk tech); pose proof (Hk music);
      pose proof (Hk billboard); pose proof (Hk hiphop); pose proof (Hk memes);
      pose proof (Hk gaming); pose proof (Hk landscapes);
      pose proof (Hk wildlife).
    pose proof (Hb news); pose proof (Hb tech); pose proof (Hb music);
      pose proof (Hb billboard); pose proof (Hb hiphop); pose proof (Hb memes);
      pose proof (Hb gaming); pose proof (Hb landscapes);
      pose proof (Hb wildlife).
    split; lia.
Qed.

Example cycle_cost_when_rate_limited :
  let w' := (fetchCycle stringifyStub (alwaysRejects (Some 429) None)
               geminiFetch_task true worldShowingA).2 in
  requestCount (trace (net w')) = 36%nat
  /\ sleepTotal (trace (net w')) = 112500
  /\ now (net w') = 1000 + 4 * 12200 + 3 * 1500.
Proof. vm_compute. repeat split; reflexivity. Qed.

(** * Further properties: one record per line, and the detail view *)

Lemma split_length sep s : length (split sep s) = S (occurrences sep s).
Proof.
  unfold occurrences. induction s as [|c s IH]; [reflexivity|].
  cbn [split List.filter]. rewrite (N.eqb_sym sep c).
  destruct (N.eqb c sep); cbn [length].
  - by rewrite IH.
  - destruct (split sep s) as [|l ls]; [discriminate|]. exact IH.
Qed.

Lemma recordsOf_le_lines categoryPrefix t lines i :
  (length (recordsOf categoryPrefix t i lines) <= length lines)%nat.
Proof.
  rewrite recordsOf_length.
  induction lines as [|line lines IH]; [reflexivity|].
  rewrite filter_cons. destruct (decide _); cbn [length]; lia.
Qed.

(** The parser makes at most one topic of a line, the first record on it:
    unless it returns the fallback table, it returns no more topics than
    the response has lines, that is one more than it has line feeds. *)
Theorem at_most_one_topic_per_line categoryPrefix t resp fallbackData :
  parseTopics categoryPrefix t resp fallbackData = fallbackData
  \/ (length (parseTopics categoryPrefix t resp fallbackData)
      <= S (occurrences 10 (default [] (text resp))))%nat.
Proof.
  destruct (parseTopics_records categoryPrefix t resp fallbackData) as [H|H];
    [by left|].
  right. rewrite H, length_take, <- split_length.
  pose proof (recordsOf_le_lines categoryPrefix t
                (split 10 (default [] (text resp))) 0). lia.
Qed.

Example two_records_on_one_line :
  map title
    (parseTopics (js "news") 7
       {| text := Some (js "TOPIC_START|A|x|y|TOPIC_END TOPIC_START|B|x|y|TOPIC_END") |}
       [])
  = [js "A"].
Proof. vm_compute. reflexivity. Qed.

(** A details load that returns while the view is mounted ends with the
    spinner off and a narrative to show, never empty, with at most six
    links; one that returns after the view was left changes nothing but
    the spinner it had switched on. It never throws. *)
Theorem loadDetails_shows_a_narrative
    (ai : Service) (groundingChunks : GenerateResponse -> option (list GroundingChunk))
    (topicTitle : jsstring) (w : DetailWorld) :
  (exists data,
      (loadDetails (fetchTopicDetails ai groundingChunks) topicTitle true w).1 = Ok tt
      /\ detail (loadDetails (fetchTopicDetails ai groundingChunks) topicTitle
                   true w).2
         = {| info := Some data; detailLoading := false |}
      /\ markdown data <> []
      /\ (length (sourceLinks data) <= 6)%nat)
  /\ (loadDetails (fetchTopicDetails ai groundingChunks) topicTitle false w).1
     = Ok tt
  /\ detail (loadDetails (fetchTopicDetails ai groundingChunks) topicTitle false w).2
     = {| info := info (detail w); detailLoading := true |}.
Proof.
  destruct w as [n [i l]].
  destruct (fetchTopicDetails_run ai groundingChunks topicTitle n)
    as (data & n' & E & Hm & Hl & _).
  unfold loadDetails, mbind, mret, ST_bind, ST_ret, setDetailLoading, setInfo,
    liftDetail.
  cbn [detailNet detail info detailLoading]. rewrite E.
  cbn [detailNet detail info detailLoading].
  split; [exists data|]; by repeat split.
Qed.
